(** * hh-autoclicker: the application workflow of [hh_auto_apply.py]

    A shallow embedding of the methods [_save_applied_vacancy],
    [_build_search_url], [_get_vacancy_links], [_apply_to_vacancy] and [run]
    of the class [HHAutoApply], and the properties of the workflow
    specification checked against them.

    Python [str] values are represented by their UTF-8 bytes ([string]); the
    separators the code looks for ('/', '?', ' ', ASCII words) are single
    bytes below 128, which never occur inside a multi-byte UTF-8 sequence,
    so splitting and searching bytes agrees with splitting and searching
    code points. A [str] that holds a lone surrogate has no UTF-8 encoding
    and is not represented; [PyText.encodable] tells the byte strings that
    are the encoding of a [str]. *)

From Stdlib Require Import ZArith QArith String Ascii List Bool Lia DecimalString.
From stdpp Require Import base option list gmap strings.

Import ListNotations.
Local Open Scope string_scope.
Local Open Scope Z_scope.
Local Open Scope list_scope.

(** ** Python string primitives *)

Module PyStr.

(** [s.split(sep)] for a one-character separator: never the empty list. *)
Fixpoint split (sep : ascii) (s : string) : list string :=
  match s with
  | EmptyString => [EmptyString]
  | String c s' =>
      if Ascii.eqb c sep then EmptyString :: split sep s'
      else match split sep s' with
           | h :: t => String c h :: t
           | [] => [String c EmptyString]
           end
  end.

(** [l[-1]] and [l[0]] on the lists [split] returns (never empty, see
    [split_nonempty]); the default stands for the [IndexError] that
    cannot happen there. *)
Definition last_item (l : list string) : string := List.last l EmptyString.
Definition first_item (l : list string) : string := List.hd EmptyString l.

(** [s.startswith(p)] *)
Fixpoint startswith (p s : string) : bool :=
  match p, s with
  | EmptyString, _ => true
  | String a p', String b s' => Ascii.eqb a b && startswith p' s'
  | String _ _, EmptyString => false
  end.

(** [needle in hay] *)
Fixpoint contains (needle hay : string) : bool :=
  startswith needle hay ||
  match hay with
  | EmptyString => false
  | String _ hay' => contains needle hay'
  end.

(** [c in s] for a character, as a proposition. *)
Fixpoint has_char (c : ascii) (s : string) : Prop :=
  match s with
  | EmptyString => False
  | String a s' => a = c \/ has_char c s'
  end.

(** Truthiness of a [str] and of an optional ([None]-able) [str]. *)
Definition truthy (s : string) : bool :=
  match s with EmptyString => false | _ => true end.

Definition truthy_opt (o : option string) : bool :=
  match o with Some s => truthy s | None => false end.

End PyStr.

(** The identifier of a listing, line 1026:
    [vacancy_url.split('/')[-1].split('?')[0]]. *)
Definition vacancy_id_of (vacancy_url : string) : string :=
  PyStr.first_item (PyStr.split "?" (PyStr.last_item (PyStr.split "/" vacancy_url))).

(** The identifier as the specification words it: the text after the last
    '/' of the URL (the whole URL when it has none), cut before its first
    '?'. *)
Fixpoint before_first (c : ascii) (s : string) : string :=
  match s with
  | EmptyString => EmptyString
  | String a s' => if Ascii.eqb a c then EmptyString else String a (before_first c s')
  end.

Fixpoint after_last (c : ascii) (s : string) : string :=
  match s with
  | EmptyString => EmptyString
  | String a s' =>
      if PyStr.contains (String c EmptyString) s' then after_last c s'
      else if Ascii.eqb a c then s' else s
  end.

Definition listing_identifier_spec (url : string) : string :=
  before_first "?" (after_last "/" url).

(** ** Exceptions, results and the state-and-exception monad *)

(** The subclasses of [Exception] the code tells apart. [OtherException] is
    any other subclass of [Exception] ([WebDriverException], [OSError],
    [IndexError], ...). [KeyboardInterrupt] is not an [Exception] and is
    not modelled. *)
Inductive exn : Type :=
  | TimeoutException
  | NoSuchElementException
  | OtherException.

Inductive Res (A : Type) : Type :=
  | Ok (a : A)
  | Raise (e : exn).
Arguments Ok {A} a.
Arguments Raise {A} e.

(** A computation over a state [S]: it returns or raises, and the state it
    leaves behind is kept in both cases (Python does not roll back). *)
Definition M (S A : Type) : Type := S -> Res A * S.

Definition ret {S A} (a : A) : M S A := fun s => (Ok a, s).

Definition bind {S A B} (m : M S A) (k : A -> M S B) : M S B :=
  fun s => match m s with
           | (Ok a, s') => k a s'
           | (Raise e, s') => (Raise e, s')
           end.

Definition raise {S A} (e : exn) : M S A := fun s => (Raise e, s).

(** stdpp's notations [x ← m; k] and [m;; k] stand for [bind]. *)
#[global] Instance M_bind {S} : MBind (M S) := fun A B k m => bind m k.
#[global] Instance M_ret {S} : MRet (M S) := fun A a => ret a.

(** [try: body except ...: handler]. [handler e] is [None] when no
    [except] clause matches [e], and the exception goes on. An exception
    raised by the handler itself goes on too. *)
Definition try_except {S A} (body : M S A) (handler : exn -> option (M S A)) : M S A :=
  fun s => match body s with
           | (Ok a, s') => (Ok a, s')
           | (Raise e, s') =>
               match handler e with
               | Some h => h s'
               | None => (Raise e, s')
               end
           end.

(** [try: body finally: final] *)
Definition try_finally {S A} (body : M S A) (final : M S unit) : M S A :=
  fun s => match body s with
           | (r, s') =>
               match final s' with
               | (Ok _, s'') => (r, s'')
               | (Raise e, s'') => (Raise e, s'')
               end
           end.

(** [except Exception] and a bare [except:] *)
Definition except_Exception {S A} (h : M S A) : exn -> option (M S A) :=
  fun _ => Some h.

Definition except_TimeoutException {S A} (h : M S A) : exn -> option (M S A) :=
  fun e => match e with TimeoutException => Some h | _ => None end.

Definition except_NoSuchElementException {S A} (h : M S A) : exn -> option (M S A) :=
  fun e => match e with NoSuchElementException => Some h | _ => None end.

(** ** The Page Interaction Layer and the file system

    Selenium's driver, its elements and the ledger file are outside the
    program. [WebDriver B] is what the code asks of them: every call takes
    the outside world [b : B] to a new one and returns or raises.
    [time.sleep] and the logger have no effect that the workflow reads and
    are left out. *)

Definition WebElement : Type := nat.

Inductive expected_condition : Type :=
  | element_to_be_clickable
  | presence_of_element_located.

Class WebDriver (B : Type) : Type := {
  (** [driver.get(url)] *)
  driver_get : string -> B -> Res unit * B;
  (** [driver.current_url] *)
  driver_current_url : B -> Res string * B;
  (** [driver.find_element(By.CSS_SELECTOR, selector)] *)
  driver_find_element : string -> B -> Res WebElement * B;
  (** [driver.find_elements(By.CSS_SELECTOR, selector)] *)
  driver_find_elements : string -> B -> Res (list WebElement) * B;
  (** [driver.execute_script(script, element)] *)
  driver_execute_script : string -> WebElement -> B -> Res unit * B;
  (** [WebDriverWait(driver, t).until(EC.cond((By.CSS_SELECTOR, selector)))] *)
  wait_until : Z -> expected_condition -> string -> B -> Res WebElement * B;
  (** [element.click()], [.is_displayed()], [.clear()], [.send_keys(text)],
      [.get_attribute(name)] *)
  element_click : WebElement -> B -> Res unit * B;
  element_is_displayed : WebElement -> B -> Res bool * B;
  element_clear : WebElement -> B -> Res unit * B;
  element_send_keys : WebElement -> string -> B -> Res unit * B;
  element_get_attribute : WebElement -> string -> B -> Res (option string) * B;
  (** [driver.quit()] *)
  driver_quit : B -> Res unit * B;
  (** [with open(path, 'a', encoding='utf-8') as f: f.write(text)] *)
  file_append : string -> string -> B -> Res unit * B;
  (** [_setup_driver] up to and including [webdriver.Chrome(...)] (line
      137), and its remaining lines 140-143 *)
  chrome_start : B -> Res unit * B;
  chrome_configure : B -> Res unit * B;
  (** [_login]: drives the browser and the operator prompts; it reads the
      credentials and touches no counter and no ledger *)
  login_session : B -> Res bool * B;
  (** The location the browser shows: an observation, not a call. *)
  location : B -> string
}.

(** ** Configuration and the [HHAutoApply] object *)

(** [config['search_filters']]: every field is read with [.get], so each may
    be absent ([None]). *)
Record SearchFilters : Type := {
  keywords : option (list string);
  salary_min : option Z;
  area : option string;
  experience : option string;
  employment : option string;
  schedule : option string
}.

(** The value under ['delay_between_applications'] as lines 1218-1221 use
    it: a number of seconds (an [int], a [float] or a [bool], which
    multiplies as 0 or 1), or a value that the multiplication by a float
    or [time.sleep] refuses whatever its sign: [null], a string, a list,
    an object ([TypeError]), NaN or an infinity ([ValueError],
    [OverflowError]). A finite delay of more than 7 * 10^9 seconds, at
    which [time.sleep] overflows for some or all of the random factors,
    is not represented. *)
Inductive delay_value : Type :=
  | delay_seconds (q : Q)
  | delay_not_a_number.

(** [config['application_settings']]. The delay is the one key that is
    read only once a listing has been attempted; it may be missing
    ([None]). *)
Record ApplicationSettings : Type := {
  max_applications_per_day : Z;
  cover_letter : string;
  skip_already_applied : bool;
  delay_between_applications : option delay_value
}.

Record Config : Type := {
  search_filters : SearchFilters;
  application_settings : ApplicationSettings
}.

Record HHAutoApply : Type := {
  config : Config;
  driver : bool;  (* [self.driver] is set *)
  applied_count : Z;
  skipped_count : Z;
  error_count : Z;
  applied_vacancies : gset string
}.

(** The state a method runs in: the object, the outside world, and a ghost
    record of the calls [run] made to [_apply_to_vacancy] (the listing and
    the value returned), most recent last. The code never reads the ghost
    record. *)
Record State (B : Type) : Type := {
  self : HHAutoApply;
  world : B;
  calls : list (string * bool)
}.
Arguments self {B} s.
Arguments world {B} s.
Arguments calls {B} s.
Arguments Build_State {B} _ _ _.

Definition set_driver (o : HHAutoApply) : HHAutoApply :=
  {| config := config o; driver := true;
     applied_count := applied_count o; skipped_count := skipped_count o;
     error_count := error_count o; applied_vacancies := applied_vacancies o |}.

(** [self.applied_count += 1], [self.skipped_count += 1],
    [self.error_count += 1], [self.applied_vacancies.add(vacancy_id)] *)
Definition incr_applied (o : HHAutoApply) : HHAutoApply :=
  {| config := config o; driver := driver o;
     applied_count := applied_count o + 1; skipped_count := skipped_count o;
     error_count := error_count o; applied_vacancies := applied_vacancies o |}.

Definition incr_skipped (o : HHAutoApply) : HHAutoApply :=
  {| config := config o; driver := driver o;
     applied_count := applied_count o; skipped_count := skipped_count o + 1;
     error_count := error_count o; applied_vacancies := applied_vacancies o |}.

Definition incr_error (o : HHAutoApply) : HHAutoApply :=
  {| config := config o; driver := driver o;
     applied_count := applied_count o; skipped_count := skipped_count o;
     error_count := error_count o + 1; applied_vacancies := applied_vacancies o |}.

Definition add_applied (vacancy_id : string) (o : HHAutoApply) : HHAutoApply :=
  {| config := config o; driver := driver o;
     applied_count := applied_count o; skipped_count := skipped_count o;
     error_count := error_count o;
     applied_vacancies := {[ vacancy_id ]} ∪ applied_vacancies o |}.

(** ** [urllib.parse.urlencode] on a dict of [str] to [str] *)

Module Urllib.

(** An insertion-ordered [dict]: [d[k] = v] replaces in place or appends. *)
Definition dict : Type := list (string * string).

Fixpoint dict_set (k v : string) (d : dict) : dict :=
  match d with
  | [] => [(k, v)]
  | (k', v') :: d' =>
      if String.eqb k k' then (k, v) :: d' else (k', v') :: dict_set k v d'
  end.

(** [d.get(k, default)] *)
Fixpoint dict_get (k : string) (d : dict) (default : string) : string :=
  match d with
  | [] => default
  | (k', v') :: d' => if String.eqb k k' then v' else dict_get k d' default
  end.

(** The bytes [quote] never escapes: letters, digits and [_.-~]. *)
Definition always_safe (c : ascii) : bool :=
  let n := N_of_ascii c in
  ((65 <=? n) && (n <=? 90) || (97 <=? n) && (n <=? 122) ||
   (48 <=? n) && (n <=? 57) ||
   (n =? 95) || (n =? 46) || (n =? 45) || (n =? 126))%N.

Definition hex_digit (n : N) : ascii :=
  ascii_of_N (if (n <? 10)%N then 48 + n else 55 + n)%N.

(** [quote_plus] of one byte: kept, or '+' for a space, or [%XX]. *)
Definition quote_byte (c : ascii) : string :=
  if always_safe c then String c EmptyString
  else if Ascii.eqb c " " then "+"
  else let n := N_of_ascii c in
       String "%" (String (hex_digit (n / 16)) (String (hex_digit (n mod 16)) EmptyString)).

Fixpoint quote_plus (s : string) : string :=
  match s with
  | EmptyString => EmptyString
  | String c s' => quote_byte c +:+ quote_plus s'
  end.

Definition encode_pair (kv : string * string) : string :=
  quote_plus (fst kv) +:+ "=" +:+ quote_plus (snd kv).

(** ['&'.join(l)] *)
Fixpoint join_amp (l : list string) : string :=
  match l with
  | [] => EmptyString
  | [x] => x
  | x :: rest => x +:+ "&" +:+ join_amp rest
  end.

Definition urlencode (d : dict) : string := join_amp (map encode_pair d).

End Urllib.

(** [str(n)] for an [int] *)
Definition str_of_int (n : Z) : string :=
  DecimalString.NilZero.string_of_int (Z.to_int n).

Definition falsy_int (o : option Z) : bool :=
  match o with Some n => n =? 0 | None => true end.

(** The tables of [_build_search_url], lines 902-939. *)
Definition area_map : Urllib.dict :=
  [("Москва", "1"); ("Санкт-Петербург", "2")].

Definition exp_map : Urllib.dict :=
  [("noExperience", "noExperience"); ("between1And3", "between1And3");
   ("between3And6", "between3And6"); ("moreThan6", "moreThan6")].

Definition employment_map : Urllib.dict :=
  [("full", "full"); ("part", "part"); ("project", "project");
   ("volunteer", "volunteer"); ("probation", "probation")].

Definition schedule_map : Urllib.dict :=
  [("fullDay", "fullDay"); ("shift", "shift"); ("flexible", "flexible");
   ("remote", "remote"); ("flyInFlyOut", "flyInFlyOut")].

Definition base_url : string := "https://hh.ru/search/vacancy".

(** [params_dict] as lines 885-942 fill it, one block after the other. *)
Definition params_text (keyword : option string) (filters : SearchFilters)
    (params_dict : Urllib.dict) : Urllib.dict :=
  if PyStr.truthy_opt keyword then
    Urllib.dict_set "text" (default EmptyString keyword) params_dict
  else match keywords filters with
       | Some (first :: _) => Urllib.dict_set "text" first params_dict
       | _ => params_dict
       end.

Definition params_salary (filters : SearchFilters) (params_dict : Urllib.dict) : Urllib.dict :=
  match salary_min filters with
  | Some n => if n =? 0 then params_dict
              else Urllib.dict_set "salary" (str_of_int n) params_dict
  | None => params_dict
  end.

Definition params_area (filters : SearchFilters) (params_dict : Urllib.dict) : Urllib.dict :=
  if PyStr.truthy_opt (area filters) then
    Urllib.dict_set "area"
      (Urllib.dict_get (default EmptyString (area filters)) area_map "1") params_dict
  else params_dict.

(** The three blocks for experience, employment and schedule have one
    shape: look the value up with default [""], set the parameter when the
    result is truthy. *)
Definition params_enum (key : string) (table : Urllib.dict) (value : option string)
    (params_dict : Urllib.dict) : Urllib.dict :=
  if PyStr.truthy_opt value then
    let v := Urllib.dict_get (default EmptyString value) table EmptyString in
    if PyStr.truthy v then Urllib.dict_set key v params_dict else params_dict
  else params_dict.

Definition build_params (keyword : option string) (filters : SearchFilters) : Urllib.dict :=
  params_enum "schedule" schedule_map (schedule filters)
    (params_enum "employment" employment_map (employment filters)
       (params_enum "experience" exp_map (experience filters)
          (params_area filters
             (params_salary filters
                (params_text keyword filters []))))).

(** Line 946 evaluates [keyword or filters.get('keywords', [''])[0]] for the
    log: with a falsy keyword and a [keywords] entry that is present and
    empty, [[][0]] raises [IndexError]. *)
Definition log_keyword_raises (keyword : option string) (filters : SearchFilters) : bool :=
  negb (PyStr.truthy_opt keyword) &&
  match keywords filters with Some [] => true | _ => false end.

(** ** The methods of [HHAutoApply] *)

Definition newline : string := String (ascii_of_nat 10) EmptyString.

(** Lines 1041 and 1112: the location is a response-form page. *)
Definition is_response_form (current_url : string) : bool :=
  PyStr.contains "vacancy_response" current_url ||
  PyStr.contains "/applicant/vacancy_response" current_url.

Definition apply_selectors : list string :=
  ["button[data-qa='vacancy-response-link-top']";
   "a[data-qa='vacancy-response-link-top']";
   "button[data-qa='vacancy-response-button']";
   ".bloko-button[data-qa*='response']";
   "a.bloko-button[href*='response']"].

Definition submit_selector : string :=
  "button[data-qa='vacancy-response-submit-popup']".

Definition scroll_to_button : string := "arguments[0].scrollIntoView(true);".

Definition scroll_to_center : string :=
  "arguments[0].scrollIntoView({block: 'center'});".

Definition alternative_selectors : list string :=
  ["a[href^='https://hh.ru/vacancy/']";
   "a[href*='/vacancy/'][data-qa*='serp']"].

(** One turn of the loop of lines 991-1008 on an [href] that was read:
    a falsy link or one without '/vacancy/' is passed over, a link that
    starts with '/vacancy/' gets the site in front, the query string goes,
    and a link already seen is not appended again. *)
Definition absolute_link (link : string) : string :=
  if PyStr.startswith "/vacancy/" link then "https://hh.ru" +:+ link else link.

Definition clean_link_of (link : string) : string :=
  PyStr.first_item (PyStr.split "?" (absolute_link link)).

Definition is_vacancy_link (link : string) : bool :=
  PyStr.truthy link && PyStr.contains "/vacancy/" (absolute_link link).

Definition add_link (href : option string)
    (acc : gset string * list string) : gset string * list string :=
  match href with
  | Some link =>
      if is_vacancy_link link then
        let clean_link := clean_link_of link in
        if bool_decide (clean_link ∈ acc.1) then acc
        else ({[ clean_link ]} ∪ acc.1, acc.2 ++ [clean_link])
      else acc
  | None => acc
  end.

Section Methods.
Context {B : Type} `{WebDriver B}.

Abbreviation Py := (M (State B)).

(** A call on the driver, an element or the file system. *)
Definition call {A} (op : B -> Res A * B) : Py A :=
  fun s => let (r, b) := op (world s) in
           (r, {| self := self s; world := b; calls := calls s |}).

Definition get_self : Py HHAutoApply := fun s => (Ok (self s), s).

Definition modify_self (f : HHAutoApply -> HHAutoApply) : Py unit :=
  fun s => (Ok tt, {| self := f (self s); world := world s; calls := calls s |}).

(** Ghost: note down a call to [_apply_to_vacancy] and what it returned. *)
Definition note_call (vacancy_url : string) (r : bool) : Py unit :=
  fun s => (Ok tt, {| self := self s; world := world s;
                      calls := calls s ++ [(vacancy_url, r)] |}).

(** Lines 68-72. *)
Definition _save_applied_vacancy (vacancy_id : string) : Py unit :=
  modify_self (add_applied vacancy_id);;
  call (file_append "applied_vacancies.txt" (vacancy_id +:+ newline)).

(** Lines 878-947. *)
Definition _build_search_url (keyword : option string) : Py string :=
  o ← get_self;
  let filters := search_filters (config o) in
  let params_dict := build_params keyword filters in
  let url := base_url +:+ "?" +:+ Urllib.urlencode params_dict in
  if log_keyword_raises keyword filters then raise OtherException
  else ret url.

(** The loop of lines 979-987 over the alternative selectors. *)
Fixpoint find_alternative_cards (selectors : list string) : Py (list WebElement) :=
  match selectors with
  | [] => ret []
  | selector :: rest =>
      found_cards ← try_except (call (driver_find_elements selector))
                               (except_Exception (ret []));
      match found_cards with
      | [] => find_alternative_cards rest
      | _ => ret found_cards
      end
  end.

(** The loop of lines 991-1008: an exception of [get_attribute] is
    caught and the card passed over. *)
Fixpoint collect_links (cards : list WebElement)
    (acc : gset string * list string) : Py (list string) :=
  match cards with
  | [] => ret acc.2
  | card :: rest =>
      acc' ← try_except
               (link ← call (element_get_attribute card "href");
                ret (add_link link acc))
               (except_Exception (ret acc));
      collect_links rest acc'
  end.

Definition primary_selector : string := "a[data-qa='serp-item__title']".

(** Lines 966-987: the cards of the page. *)
Definition find_cards : Py (list WebElement) :=
  try_except
    (call (wait_until 5 presence_of_element_located primary_selector);;
     call (driver_find_elements primary_selector))
    (except_TimeoutException (find_alternative_cards alternative_selectors)).

(** Lines 949-1020. *)
Definition _get_vacancy_links : Py (list string) :=
  try_except
    (current_url ← call driver_current_url;
     cards ← find_cards;
     collect_links cards (∅, []))
    (except_Exception (ret [])).

(** The loop of lines 1064-1072: the first selector whose wait returns an
    element wins; a [TimeoutException] moves on to the next selector. *)
Fixpoint find_apply_button (selectors : list string) : Py (option WebElement) :=
  match selectors with
  | [] => ret None
  | selector :: rest =>
      try_except
        (apply_button ← call (wait_until 10 element_to_be_clickable selector);
         ret (Some apply_button))
        (except_TimeoutException (find_apply_button rest))
  end.

(** Lines 1123-1143: the cookies banner. *)
Definition dismiss_cookies_banner : Py unit :=
  try_except
    (cookies_banner ← call (driver_find_element
         "[data-qa='cookies-policy-informer'], .cookies-policy-informer");
     displayed ← call (element_is_displayed cookies_banner);
     if displayed : bool then
       try_except
         (accept_button ← call (driver_find_element
              "button[data-qa='cookies-policy-informer-accept'], .cookies-policy-informer-accept");
          call (driver_execute_script "arguments[0].click();" accept_button))
         (except_Exception
            (call (driver_execute_script "arguments[0].style.display='none';" cookies_banner)))
     else ret tt)
    (except_NoSuchElementException (ret tt)).

(** Lines 1145-1158: the cover letter. *)
Definition fill_cover_letter : Py unit :=
  try_except
    (cover_letter_textarea ← call (wait_until 10 presence_of_element_located
         "textarea[data-qa='vacancy-response-popup-form-letter-input']");
     o ← get_self;
     call (element_clear cover_letter_textarea);;
     call (element_send_keys cover_letter_textarea
             (cover_letter (application_settings (config o)))))
    (except_TimeoutException (ret tt)).

(** Lines 1160-1200: the confirmation. *)
Definition confirm_application (vacancy_id search_page_url : string) : Py bool :=
  try_except
    (submit_button ← call (wait_until 10 presence_of_element_located submit_selector);
     call (driver_execute_script scroll_to_center submit_button);;
     try_except (call (element_click submit_button))
       (except_Exception
          (call (driver_execute_script "arguments[0].click();" submit_button)));;
     _save_applied_vacancy vacancy_id;;
     modify_self incr_applied;;
     call (driver_get search_page_url);;
     ret true)
    (except_TimeoutException
       (_save_applied_vacancy vacancy_id;;
        modify_self incr_applied;;
        call (driver_get search_page_url);;
        ret true)).

(** Lines 1074-1100: no apply control was found. *)
Definition no_apply_button (vacancy_id search_page_url : string) : Py bool :=
  try_except
    (call (driver_find_element
       "[data-qa*='already-applied'], .vacancy-response-link-already-applied");;
     _save_applied_vacancy vacancy_id;;
     modify_self incr_skipped;;
     call (driver_get search_page_url);;
     ret false)
    (except_NoSuchElementException
       (modify_self incr_error;;
        call (driver_get search_page_url);;
        ret false)).

(** The [try] block of [_apply_to_vacancy], lines 1026-1200. *)
Definition apply_body (vacancy_url search_page_url : string) : Py bool :=
  let vacancy_id := vacancy_id_of vacancy_url in
  o ← get_self;
  if skip_already_applied (application_settings (config o))
     && bool_decide (vacancy_id ∈ applied_vacancies o)
  then modify_self incr_skipped;; ret false
  else
    call (driver_get vacancy_url);;
    current_url ← call driver_current_url;
    if is_response_form current_url then
      modify_self incr_skipped;;
      call (driver_get search_page_url);;
      ret false
    else
      apply_button ← find_apply_button apply_selectors;
      match apply_button with
      | None => no_apply_button vacancy_id search_page_url
      | Some apply_button =>
          call (driver_execute_script scroll_to_button apply_button);;
          call (element_click apply_button);;
          current_url ← call driver_current_url;
          if is_response_form current_url then
            modify_self incr_skipped;;
            call (driver_get search_page_url);;
            ret false
          else
            dismiss_cookies_banner;;
            fill_cover_letter;;
            confirm_application vacancy_id search_page_url
      end.

(** The [except Exception] block, lines 1202-1214. *)
Definition apply_handler (search_page_url : string) : Py bool :=
  modify_self incr_error;;
  try_except (call (driver_get search_page_url)) (except_Exception (ret tt));;
  ret false.

(** Lines 1022-1214. [search_page_url or self.driver.current_url] is
    evaluated before the [try]. *)
Definition _apply_to_vacancy (vacancy_url : string)
    (search_page_url : option string) : Py bool :=
  search_page_url ← match search_page_url with
                    | Some url =>
                        if PyStr.truthy url then ret url else call driver_current_url
                    | None => call driver_current_url
                    end;
  try_except (apply_body vacancy_url search_page_url)
             (except_Exception (apply_handler search_page_url)).

(** Lines 1216-1221: the delay is read from the configuration
    ([KeyError] when the key is missing), multiplied by a random factor
    between 0.7 and 1.3 ([TypeError] when it is not a number) and slept
    for ([ValueError] when it is negative). The sleep itself changes
    nothing that the workflow reads. *)
Definition _human_like_delay : Py unit :=
  o ← get_self;
  match delay_between_applications (application_settings (config o)) with
  | None => raise OtherException
  | Some delay_not_a_number => raise OtherException
  | Some (delay_seconds q) =>
      if (Qnum q <? 0)%Z then raise OtherException else ret tt
  end.

(** Lines 74-145. *)
Definition _setup_driver : Py unit :=
  call chrome_start;;
  modify_self set_driver;;
  call chrome_configure.

(** Lines 1281-1295: the listings of one page. Returns
    [applications_today]. *)
Fixpoint listings_loop (max_applications : Z) (current_search_url : string)
    (vacancy_links : list string) (applications_today : Z) : Py Z :=
  match vacancy_links with
  | [] => ret applications_today
  | vacancy_url :: rest =>
      if applications_today >=? max_applications then ret applications_today
      else
        applied ← _apply_to_vacancy vacancy_url (Some current_search_url);
        note_call vacancy_url applied;;
        _human_like_delay;;
        listings_loop max_applications current_search_url rest
          (if applied : bool then applications_today + 1 else applications_today)
  end.

(** Lines 1302-1333: go to the next page; [false] is a [break]. *)
Definition next_page (current_search_url : string) : Py bool :=
  try_except
    (current_url ← call driver_current_url;
     (if negb (PyStr.contains "/search/vacancy" current_url)
      then call (driver_get current_search_url) else ret tt);;
     next_button ← call (driver_find_element "a[data-qa='pager-next']");
     button_class ← call (element_get_attribute next_button "class");
     let button_class :=
       if PyStr.truthy_opt button_class then default EmptyString button_class
       else EmptyString in
     if PyStr.contains "disabled" button_class
        || PyStr.contains "HH-Pager-Disabled" button_class
     then ret false
     else
       call (element_click next_button);;
       call driver_current_url;;
       ret true)
    (except_Exception (ret false)).

(** Lines 1266-1333: the pages of one keyword. The [while] loop has no
    bound in the code; [fuel] bounds the number of pages followed, and
    the second component tells whether the loop ended by itself ([true])
    or was cut off there ([false]). *)
Fixpoint pages_loop (fuel : nat) (max_applications : Z)
    (applications_today : Z) : Py (Z * bool) :=
  if applications_today <? max_applications then
    match fuel with
    | O => ret (applications_today, false)
    | S fuel' =>
        vacancy_links ← _get_vacancy_links;
        match vacancy_links with
        | [] => ret (applications_today, true)
        | _ =>
            current_search_url ← call driver_current_url;
            applications_today ←
              listings_loop max_applications current_search_url vacancy_links
                applications_today;
            if applications_today >=? max_applications
            then ret (applications_today, true)
            else
              more ← next_page current_search_url;
              if more : bool then pages_loop fuel' max_applications applications_today
              else ret (applications_today, true)
        end
    end
  else ret (applications_today, true).

(** Lines 1250-1339: the keywords. *)
Fixpoint keywords_loop (fuel : nat) (max_applications : Z)
    (keywords : list string) (applications_today : Z) : Py (Z * bool) :=
  match keywords with
  | [] => ret (applications_today, true)
  | keyword :: rest =>
      if applications_today >=? max_applications then ret (applications_today, true)
      else
        search_url ← _build_search_url (Some keyword);
        call (driver_get search_url);;
        r ← pages_loop fuel max_applications applications_today;
        let applications_today := r.1 in
        if negb r.2 then ret (applications_today, false)
        else if applications_today >=? max_applications
        then ret (applications_today, true)
        else keywords_loop fuel max_applications rest applications_today
  end.

(** The [try] block of [run], lines 1226-1347. Returns whether the loops
    ended by themselves within [fuel] pages per keyword. *)
Definition run_body (fuel : nat) : Py bool :=
  _setup_driver;;
  logged_in ← call login_session;
  if negb logged_in then ret true
  else
    o ← get_self;
    let max_applications :=
      max_applications_per_day (application_settings (config o)) in
    match keywords (search_filters (config o)) with
    | None | Some [] => ret true
    | Some keywords =>
        r ← keywords_loop fuel max_applications keywords 0;
        ret r.2
    end.

(** Lines 1223-1356: the [try] block, [except Exception] and the
    [finally] that closes the browser. *)
Definition run (fuel : nat) : Py bool :=
  try_finally
    (try_except (run_body fuel) (except_Exception (ret true)))
    (o ← get_self;
     if driver o then call driver_quit else ret tt).

End Methods.

(** ** A scripted browser

    A world whose answers are written down beforehand: every call takes the
    next [reply] of the script. It serves to run the methods on concrete
    scenarios. A call that finds no reply, or one of the wrong kind, raises
    [OtherException]. *)

Module Scripted.

Inductive reply : Type :=
  | Raises (e : exn)
  | Done                         (* the call returns *)
  | Lands (url : string)         (* the call returns and the browser shows [url] *)
  | Element (e : WebElement)
  | Elements (l : list WebElement)
  | Answer (b : bool)
  | Attribute (a : option string).

Record browser : Type := {
  here : string;                 (* the location shown *)
  script : list reply;
  ledger_file : list string      (* what was appended to applied_vacancies.txt *)
}.

Definition next (b : browser) : option reply * browser :=
  match script b with
  | [] => (None, b)
  | r :: rest =>
      (Some r, {| here := here b; script := rest; ledger_file := ledger_file b |})
  end.

Definition move (url : string) (b : browser) : browser :=
  {| here := url; script := script b; ledger_file := ledger_file b |}.

(** [driver.get(url)]: the browser shows [url], or the call raises. *)
Definition navigate (url : string) (b : browser) : Res unit * browser :=
  match next b with
  | (Some Done, b') => (Ok tt, move url b')
  | (Some (Raises e), b') => (Raise e, b')
  | (_, b') => (Raise OtherException, b')
  end.

(** A click, a script, a key stroke: it may take the browser elsewhere. *)
Definition act (b : browser) : Res unit * browser :=
  match next b with
  | (Some Done, b') => (Ok tt, b')
  | (Some (Lands url), b') => (Ok tt, move url b')
  | (Some (Raises e), b') => (Raise e, b')
  | (_, b') => (Raise OtherException, b')
  end.

Definition element (b : browser) : Res WebElement * browser :=
  match next b with
  | (Some (Element e), b') => (Ok e, b')
  | (Some (Raises e), b') => (Raise e, b')
  | (_, b') => (Raise OtherException, b')
  end.

Definition elements (b : browser) : Res (list WebElement) * browser :=
  match next b with
  | (Some (Elements l), b') => (Ok l, b')
  | (Some (Raises e), b') => (Raise e, b')
  | (_, b') => (Raise OtherException, b')
  end.

Definition answer (b : browser) : Res bool * browser :=
  match next b with
  | (Some (Answer a), b') => (Ok a, b')
  | (Some (Raises e), b') => (Raise e, b')
  | (_, b') => (Raise OtherException, b')
  end.

Definition attribute (b : browser) : Res (option string) * browser :=
  match next b with
  | (Some (Attribute a), b') => (Ok a, b')
  | (Some (Raises e), b') => (Raise e, b')
  | (_, b') => (Raise OtherException, b')
  end.

(** [driver.current_url]: with [Lands url] the page has redirected to
    [url] by the time the code looks. *)
Definition current (b : browser) : Res string * browser :=
  match next b with
  | (Some Done, b') => (Ok (here b'), b')
  | (Some (Lands url), b') => (Ok url, move url b')
  | (Some (Raises e), b') => (Raise e, b')
  | (_, b') => (Raise OtherException, b')
  end.

Definition append (text : string) (b : browser) : Res unit * browser :=
  match next b with
  | (Some Done, b') =>
      (Ok tt, {| here := here b'; script := script b';
                 ledger_file := ledger_file b' ++ [text] |})
  | (Some (Raises e), b') => (Raise e, b')
  | (_, b') => (Raise OtherException, b')
  end.

#[global] Instance scripted_driver : WebDriver browser := {|
  driver_get := navigate;
  driver_current_url := current;
  driver_find_element _ := element;
  driver_find_elements _ := elements;
  driver_execute_script _ _ := act;
  wait_until _ _ _ := element;
  element_click _ := act;
  element_is_displayed _ := answer;
  element_clear _ := act;
  element_send_keys _ _ := act;
  element_get_attribute _ _ := attribute;
  driver_quit := act;
  file_append _ text := append text;
  chrome_start := act;
  chrome_configure := act;
  login_session := answer;
  location := here
|}.

(** An object with the given settings and ledger, counters at zero. *)
Definition object (filters : SearchFilters) (settings : ApplicationSettings)
    (ledger : gset string) : HHAutoApply :=
  {| config := {| search_filters := filters; application_settings := settings |};
     driver := true; applied_count := 0; skipped_count := 0; error_count := 0;
     applied_vacancies := ledger |}.

Definition state (o : HHAutoApply) (at_url : string) (replies : list reply)
    : State browser :=
  {| self := o;
     world := {| here := at_url; script := replies; ledger_file := [] |};
     calls := [] |}.

End Scripted.


(** ** Notions the properties are stated with *)

(** The parameters that appear in a query string: the pieces between '&',
    each cut at its first '='. *)
Fixpoint after_first (c : ascii) (s : string) : string :=
  match s with
  | EmptyString => EmptyString
  | String a s' => if Ascii.eqb a c then s' else after_first c s'
  end.

Definition parse_query (query : string) : list (string * string) :=
  match query with
  | EmptyString => []
  | _ => map (fun piece => (before_first "=" piece, after_first "=" piece))
             (PyStr.split "&" query)
  end.

Definition query_of (url : string) : string := after_first "?" url.

(** Where a parameter of [params_dict] comes from. *)
Inductive param_origin (keyword : option string) (filters : SearchFilters)
  : string -> string -> Prop :=
  | from_keyword kw :
      keyword = Some kw -> PyStr.truthy kw = true ->
      param_origin keyword filters "text" kw
  | from_keywords first rest :
      PyStr.truthy_opt keyword = false -> keywords filters = Some (first :: rest) ->
      param_origin keyword filters "text" first
  | from_salary n :
      salary_min filters = Some n -> n <> 0 ->
      param_origin keyword filters "salary" (str_of_int n)
  | from_area a :
      area filters = Some a -> PyStr.truthy a = true ->
      param_origin keyword filters "area" (Urllib.dict_get a area_map "1")
  | from_experience x :
      experience filters = Some x -> PyStr.truthy x = true ->
      PyStr.truthy (Urllib.dict_get x exp_map EmptyString) = true ->
      param_origin keyword filters "experience" (Urllib.dict_get x exp_map EmptyString)
  | from_employment x :
      employment filters = Some x -> PyStr.truthy x = true ->
      PyStr.truthy (Urllib.dict_get x employment_map EmptyString) = true ->
      param_origin keyword filters "employment"
        (Urllib.dict_get x employment_map EmptyString)
  | from_schedule x :
      schedule filters = Some x -> PyStr.truthy x = true ->
      PyStr.truthy (Urllib.dict_get x schedule_map EmptyString) = true ->
      param_origin keyword filters "schedule"
        (Urllib.dict_get x schedule_map EmptyString).

(** A filter field is unset: absent, or present with a falsy value. *)
Definition unset (value : option string) : Prop := PyStr.truthy_opt value = false.

(** An enum value is one the table does not know. *)
Definition unmapped (table : Urllib.dict) (value : string) : Prop :=
  Urllib.dict_get value table EmptyString = EmptyString.

(** De-duplication as the specification words it: the first occurrence of
    a link stays where it is, the later ones go. *)
Fixpoint dedup_first (l : list string) : list string :=
  match l with
  | [] => []
  | x :: rest => x :: filter (fun y => y <> x) (dedup_first rest)
  end.

(** The link a card contributes, if any. *)
Definition link_of_href (href : option string) : option string :=
  match href with
  | Some link => if is_vacancy_link link then Some (clean_link_of link) else None
  | None => None
  end.

Definition vacancy_links_of (hrefs : list (option string)) : list string :=
  omap link_of_href hrefs.

(** What reading the [href] of each card in turn gives; a card whose read
    raises counts as having none. *)
Fixpoint read_hrefs {B} `{WebDriver B} (cards : list WebElement) (b : B)
  : list (option string) * B :=
  match cards with
  | [] => ([], b)
  | card :: rest =>
      let (r, b1) := element_get_attribute card "href" b in
      let (hrefs, b2) := read_hrefs rest b1 in
      (match r with Ok href => href | Raise _ => None end :: hrefs, b2)
  end.

Definition fold_links (hrefs : list (option string))
    (acc : gset string * list string) : gset string * list string :=
  fold_left (fun acc href => add_link href acc) hrefs acc.

Definition set_world {B} (s : State B) (b : B) : State B :=
  {| self := self s; world := b; calls := calls s |}.

(** A computation that touches the outside world only. *)
Definition world_only {B A} (m : M (State B) A) : Prop :=
  forall s, exists r b, m s = (r, set_world s b).

(** The first test of [_apply_to_vacancy] succeeds: skipping is enabled and
    the identifier of the listing is in the ledger. *)
Definition ledger_skip (vacancy_url : string) (o : HHAutoApply) : Prop :=
  skip_already_applied (application_settings (config o)) = true /\
  vacancy_id_of vacancy_url ∈ applied_vacancies o.

(** [n] calls in a row on the same listing; the values returned. *)
Fixpoint apply_times {B} `{WebDriver B} (n : nat) (vacancy_url : string)
    (search_page_url : option string) : M (State B) (list bool) :=
  match n with
  | O => ret []
  | S n' =>
      r ← _apply_to_vacancy vacancy_url search_page_url;
      rs ← apply_times n' vacancy_url search_page_url;
      ret (r :: rs)
  end.

Definition add_skipped (n : Z) (o : HHAutoApply) : HHAutoApply :=
  {| config := config o; driver := driver o;
     applied_count := applied_count o; skipped_count := skipped_count o + n;
     error_count := error_count o; applied_vacancies := applied_vacancies o |}.

(** One counter went up by one and the other two stayed. *)
Definition counted_once (o o' : HHAutoApply) : Prop :=
  (applied_count o' = applied_count o + 1 /\ skipped_count o' = skipped_count o /\
   error_count o' = error_count o) \/
  (applied_count o' = applied_count o /\ skipped_count o' = skipped_count o + 1 /\
   error_count o' = error_count o) \/
  (applied_count o' = applied_count o /\ skipped_count o' = skipped_count o /\
   error_count o' = error_count o + 1).

(** The number of noted calls that returned [True]. *)
Fixpoint applied_calls (c : list (string * bool)) : Z :=
  match c with
  | [] => 0
  | (_, true) :: rest => 1 + applied_calls rest
  | (_, false) :: rest => applied_calls rest
  end.

(** [applications_today] is within the quota and counts the calls that
    returned [True] since the ghost record held [base] of them. *)
Definition within_quota {B} (max_applications base applications_today : Z)
    (s : State B) : Prop :=
  0 <= applications_today <= Z.max 0 max_applications /\
  applied_calls (calls s) = base + applications_today.

(** ** Concrete scenarios on the scripted browser *)

Module Scenario.
Import Scripted.

Definition search_page : string := "https://hh.ru/search/vacancy?text=python".
Definition listing : string := "https://hh.ru/vacancy/123".
Definition response_form : string :=
  "https://hh.ru/applicant/vacancy_response?vacancyId=123".

Definition filters : SearchFilters :=
  {| keywords := Some ["python"]; salary_min := None; area := None;
     experience := None; employment := None; schedule := None |}.

Definition settings (skip : bool) : ApplicationSettings :=
  {| max_applications_per_day := 1; cover_letter := "Hello";
     skip_already_applied := skip;
     delay_between_applications := Some (delay_seconds (2 # 1)) |}.

(** No apply control shows up for any of the five selectors. *)
Definition no_apply_control : list reply :=
  [Raises TimeoutException; Raises TimeoutException; Raises TimeoutException;
   Raises TimeoutException; Raises TimeoutException].

(** The listing opens, the apply control is clicked, there is no cookies
    banner and no cover letter field. *)
Definition up_to_confirmation : list reply :=
  [Done; Done; Element 1%nat; Done; Done; Done;
   Raises NoSuchElementException; Raises TimeoutException].

(** ... and the submission control is found and clicked, the ledger file
    written and the search page shown again. *)
Definition confirmed : list reply :=
  up_to_confirmation ++ [Element 2%nat; Done; Done; Done; Done].

(** ... or the submission control never shows up. *)
Definition unconfirmed : list reply :=
  up_to_confirmation ++ [Raises TimeoutException; Done; Done].

(** The listing is in the ledger and the browser is on another page. *)
Definition known_listing : State browser :=
  state (object filters (settings true) {[ "123" ]}) "https://hh.ru/vacancy/999" [].

(** The listing opens, reading the location fails, and so does the way
    back to the search page. *)
Definition stranded : State browser :=
  state (object filters (settings true) ∅) search_page
    [Done; Raises OtherException; Raises OtherException].

(** The listing opens on the response form, and the first try to go back
    to the search page fails. *)
Definition form_then_failure : State browser :=
  state (object filters (settings true) ∅) search_page
    [Done; Lands response_form; Raises OtherException; Done].

Definition fresh (skip : bool) (replies : list reply) : State browser :=
  state (object filters (settings skip) ∅) search_page replies.

(** The listing has no apply control but the already-applied marker. *)
Definition already_applied_page : list reply :=
  [Done; Done] ++ no_apply_control ++ [Element 7%nat; Done; Done].

(** The listing has neither. *)
Definition broken_page : list reply :=
  [Done; Done] ++ no_apply_control ++ [Raises NoSuchElementException; Done].

(** A run with a quota of one: one keyword, one page with two listings,
    both without apply control and without marker, no next page. *)
Definition two_broken_listings : State browser :=
  state
    {| config := {| search_filters := filters; application_settings := settings true |};
       driver := false; applied_count := 0; skipped_count := 0; error_count := 0;
       applied_vacancies := ∅ |}
    "about:blank"
    ([Done; Done; Answer true; Done;
      Done; Element 0%nat; Elements [1%nat; 2%nat];
      Attribute (Some "https://hh.ru/vacancy/1?query=python");
      Attribute (Some "/vacancy/2");
      Done]
     ++ broken_page ++ broken_page
     ++ [Done; Raises NoSuchElementException; Done]).

(** A result page that shows one listing three times among other links. *)
Definition result_page : State browser :=
  state (object filters (settings true) ∅) search_page
    [Done; Element 0%nat; Elements [1%nat; 2%nat; 3%nat; 4%nat; 5%nat; 6%nat];
     Attribute (Some "https://hh.ru/vacancy/1?query=python");
     Attribute (Some "/vacancy/2?from=serp");
     Attribute (Some "https://hh.ru/vacancy/1");
     Attribute None;
     Attribute (Some "https://hh.ru/employer/5");
     Attribute (Some "https://hh.ru/vacancy/1?hhtmFrom=main")].

(** Filters with every optional field left out, with every enum unknown,
    and with everything set. *)
Definition unknown_filters : SearchFilters :=
  {| keywords := Some ["python"]; salary_min := Some 0; area := Some "Казань";
     experience := Some "senior"; employment := Some EmptyString;
     schedule := Some "nights" |}.

Definition full_filters : SearchFilters :=
  {| keywords := Some ["python"]; salary_min := Some 100000;
     area := Some "Санкт-Петербург"; experience := Some "between1And3";
     employment := Some "full"; schedule := Some "remote" |}.

Definition searching (f : SearchFilters) : State browser :=
  state (object f (settings true) ∅) search_page [].

(** The state after a first call that applied. *)
Definition applied_once : State browser :=
  (_apply_to_vacancy listing (Some search_page) (fresh true confirmed)).2.

(** The submission control is clicked and the ledger file written, the
    page load on the way back times out, the second attempt gets there. *)
Definition slow_return : list reply :=
  up_to_confirmation ++
  [Element 2%nat; Done; Done; Done; Raises TimeoutException; Done; Done].

(** The browser [n] replies into the script [unconfirmed]. *)
Definition later (n : nat) (at_url : string) (file : list string) : browser :=
  {| here := at_url; script := drop n unconfirmed; ledger_file := file |}.

(** A run with a quota of one on a page with two listings that both take
    the application. *)
Definition two_open_listings : State browser :=
  state
    {| config := {| search_filters := filters; application_settings := settings true |};
       driver := false; applied_count := 0; skipped_count := 0; error_count := 0;
       applied_vacancies := ∅ |}
    "about:blank"
    ([Done; Done; Answer true; Done;
      Done; Element 0%nat; Elements [1%nat; 2%nat];
      Attribute (Some "https://hh.ru/vacancy/1");
      Attribute (Some "https://hh.ru/vacancy/2");
      Done]
     ++ confirmed ++ [Done]).

End Scenario.


(** ** The ledger file: [_load_applied_vacancies] and [__init__] *)

Module PyText.

Definition byte (n : N) : ascii := ascii_of_N n.

(** The characters [c] with [c.isspace()], by their UTF-8 bytes: U+0009 to
    U+000D, U+001C to U+0020; U+0085 and U+00A0; U+1680, U+2000 to U+200A,
    U+2028, U+2029, U+202F, U+205F and U+3000. *)
Definition space1 (c : ascii) : bool :=
  let n := N_of_ascii c in
  ((9 <=? n) && (n <=? 13) || (28 <=? n) && (n <=? 32))%N.

Definition space2 (c1 c2 : ascii) : bool :=
  let n1 := N_of_ascii c1 in
  let n2 := N_of_ascii c2 in
  ((n1 =? 194) && ((n2 =? 133) || (n2 =? 160)))%N.

Definition space3 (c1 c2 c3 : ascii) : bool :=
  let n1 := N_of_ascii c1 in
  let n2 := N_of_ascii c2 in
  let n3 := N_of_ascii c3 in
  ((n1 =? 225) && (n2 =? 154) && (n3 =? 128)
   || (n1 =? 226) && (n2 =? 128) &&
      ((128 <=? n3) && (n3 <=? 138) || (n3 =? 168) || (n3 =? 169) || (n3 =? 175))
   || (n1 =? 226) && (n2 =? 129) && (n3 =? 159)
   || (n1 =? 227) && (n2 =? 128) && (n3 =? 128))%N.

(** Dropping the characters at the front that [sp1], [sp2] and [sp3]
    recognise as one, two and three bytes. *)
Fixpoint strip_front (sp1 : ascii -> bool) (sp2 : ascii -> ascii -> bool)
    (sp3 : ascii -> ascii -> ascii -> bool) (s : string) : string :=
  match s with
  | String c1 r1 =>
      if sp1 c1 then strip_front sp1 sp2 sp3 r1
      else match r1 with
           | String c2 r2 =>
               if sp2 c1 c2 then strip_front sp1 sp2 sp3 r2
               else match r2 with
                    | String c3 r3 =>
                        if sp3 c1 c2 c3 then strip_front sp1 sp2 sp3 r3 else s
                    | EmptyString => s
                    end
           | EmptyString => s
           end
  | EmptyString => s
  end.

Fixpoint rev_onto (s acc : string) : string :=
  match s with
  | EmptyString => acc
  | String c r => rev_onto r (String c acc)
  end.

Definition rev (s : string) : string := rev_onto s EmptyString.

(** [s.lstrip()], [s.rstrip()] and [s.strip()]. At the end of a string the
    bytes of a character come last byte first when the string is read
    backwards; in well-formed UTF-8 the lead bytes 194 and 225 to 227 are
    not continuation bytes, so the bytes matched are whole characters. *)
Definition lstrip (s : string) : string := strip_front space1 space2 space3 s.

Definition rstrip (s : string) : string :=
  rev (strip_front space1 (fun c2 c1 => space2 c1 c2)
         (fun c3 c2 c1 => space3 c1 c2 c3) (rev s)).

Definition strip (s : string) : string := lstrip (rstrip s).

(** The byte strings that are the UTF-8 encoding of a [str] that can be
    encoded, that is, of one without a lone surrogate: well-formed UTF-8,
    with no overlong form, no surrogate (237, 160 to 191) and nothing
    above U+10FFFF. *)
Definition continuation (c : ascii) : bool :=
  let n := N_of_ascii c in ((128 <=? n) && (n <=? 191))%N.

Definition between (lo hi : N) (c : ascii) : bool :=
  let n := N_of_ascii c in ((lo <=? n) && (n <=? hi))%N.

Fixpoint encodable (s : string) : bool :=
  match s with
  | EmptyString => true
  | String c1 r1 =>
      if between 0 127 c1 then encodable r1
      else match r1 with
           | EmptyString => false
           | String c2 r2 =>
               if between 194 223 c1 then continuation c2 && encodable r2
               else match r2 with
                    | EmptyString => false
                    | String c3 r3 =>
                        if between 224 224 c1 then
                          between 160 191 c2 && continuation c3 && encodable r3
                        else if between 225 236 c1 || between 238 239 c1 then
                          continuation c2 && continuation c3 && encodable r3
                        else if between 237 237 c1 then
                          between 128 159 c2 && continuation c3 && encodable r3
                        else match r3 with
                             | EmptyString => false
                             | String c4 r4 =>
                                 if between 240 240 c1 then
                                   between 144 191 c2 && continuation c3 &&
                                   continuation c4 && encodable r4
                                 else if between 241 243 c1 then
                                   continuation c2 && continuation c3 &&
                                   continuation c4 && encodable r4
                                 else if between 244 244 c1 then
                                   between 128 143 c2 && continuation c3 &&
                                   continuation c4 && encodable r4
                                 else false
                             end
                    end
           end
  end.

(** The lines a text file yields when iterated: each with its newline,
    the last one without when the text does not end in one. *)
Fixpoint readlines (text : string) : list string :=
  match text with
  | EmptyString => []
  | String c r =>
      if Ascii.eqb c "010" then String c EmptyString :: readlines r
      else match readlines r with
           | [] => [String c EmptyString]
           | line :: lines => String c line :: lines
           end
  end.

End PyText.

Definition set_applied_vacancies (ledger : gset string) (o : HHAutoApply) : HHAutoApply :=
  {| config := config o; driver := driver o;
     applied_count := applied_count o; skipped_count := skipped_count o;
     error_count := error_count o; applied_vacancies := ledger |}.

(** The set comprehension of line 65 over the text of the file. *)
Definition ledger_of_text (text : string) : gset string :=
  list_to_set (List.filter PyStr.truthy (map PyText.strip (PyText.readlines text))).

(** Lines 60-66. [file] is what the file system has under
    "applied_vacancies.txt": nothing ([None]), or a file, the opening and
    reading of which gives its text (decoded, newlines translated) or
    raises. *)
Definition _load_applied_vacancies (file : option (Res string)) (o : HHAutoApply)
    : Res unit * HHAutoApply :=
  match file with
  | None => (Ok tt, o)
  | Some (Raise e) => (Raise e, o)
  | Some (Ok text) => (Ok tt, set_applied_vacancies (ledger_of_text text) o)
  end.

(** Lines 38-46. [loaded_config] is what [_load_config] gives: the parsed
    document, or the exception it logs and raises again. *)
Definition __init__ (loaded_config : Res Config) (file : option (Res string))
    : Res HHAutoApply :=
  match loaded_config with
  | Raise e => Raise e
  | Ok cfg =>
      let o := {| config := cfg; driver := false;
                  applied_count := 0; skipped_count := 0; error_count := 0;
                  applied_vacancies := ∅ |} in
      match _load_applied_vacancies file o with
      | (Ok _, o') => Ok o'
      | (Raise e, _) => Raise e
      end
  end.

(** An identifier that is written as one line: it holds no line feed and
    no carriage return (which reading a text file turns into line
    ends). *)
Definition one_line (id : string) : Prop :=
  ~ PyStr.has_char "010" id /\ ~ PyStr.has_char "013" id.

(** The text a sequence of [_save_applied_vacancy] leaves in a file that
    was empty, as it is read back: one identifier per line. *)
Fixpoint written (ids : list string) : string :=
  match ids with
  | [] => EmptyString
  | id :: rest => id +:+ newline +:+ written rest
  end.

(** ** Further notions the properties are stated with *)

(** Decoding what [quote_plus] encodes, as [urllib.parse.unquote_plus]
    does: '+' is a space, '%' with two hexadecimal digits is the byte. *)
Definition hex_value (c : ascii) : option N :=
  let n := N_of_ascii c in
  if ((48 <=? n) && (n <=? 57))%N then Some (n - 48)%N
  else if ((65 <=? n) && (n <=? 70))%N then Some (n - 55)%N
  else if ((97 <=? n) && (n <=? 102))%N then Some (n - 87)%N
  else None.

Fixpoint unquote_plus (s : string) : string :=
  match s with
  | EmptyString => EmptyString
  | String c r =>
      if Ascii.eqb c "+" then String " " (unquote_plus r)
      else if Ascii.eqb c "%" then
        match r with
        | String h (String l r') =>
            match hex_value h, hex_value l with
            | Some hi, Some lo => String (ascii_of_N (16 * hi + lo)) (unquote_plus r')
            | _, _ => String c (unquote_plus r)
            end
        | _ => String c (unquote_plus r)
        end
      else String c (unquote_plus r)
  end.

(** The characters a search URL is made of besides letters, digits and
    [_.-~]. *)
Definition url_char (c : ascii) : bool :=
  Urllib.always_safe c || Ascii.eqb c "+" || Ascii.eqb c "%" ||
  Ascii.eqb c "=" || Ascii.eqb c "&".

Fixpoint all_chars (p : ascii -> bool) (s : string) : bool :=
  match s with
  | EmptyString => true
  | String c r => p c && all_chars p r
  end.

(** The keys of the search parameters, in the order the method sets them. *)
Definition param_keys : list string :=
  ["text"; "salary"; "area"; "experience"; "employment"; "schedule"].

(** The object only moved forward: same configuration, no counter lower,
    no identifier lost from the ledger. *)
Definition grows (o o' : HHAutoApply) : Prop :=
  config o' = config o /\
  applied_count o <= applied_count o' /\
  skipped_count o <= skipped_count o' /\
  error_count o <= error_count o' /\
  applied_vacancies o ⊆ applied_vacancies o'.

(** The configured delay is one that [_human_like_delay] sleeps for,
    whatever the random factor: the key is there and holds a number of
    seconds that is not negative and not above 7 * 10^9. *)
Definition delay_usable (o : HHAutoApply) : Prop :=
  exists q, delay_between_applications (application_settings (config o))
              = Some (delay_seconds q) /\
            (0 <= q)%Q /\ (q <= 7000000000 # 1)%Q.

(** The configured delay is one that [_human_like_delay] raises on: the
    key is missing, or holds what is not a number, or a negative number. *)
Definition delay_refused (o : HHAutoApply) : Prop :=
  match delay_between_applications (application_settings (config o)) with
  | Some (delay_seconds q) => (q < 0)%Q
  | Some delay_not_a_number | None => True
  end.

(** A byte of printable ASCII other than the space. *)
Definition graphic (c : ascii) : bool :=
  let n := N_of_ascii c in ((33 <=? n) && (n <=? 126))%N.

(** An identifier as the site's listings have them: not empty, and made
    of such bytes only. *)
Definition plain_identifier (id : string) : Prop :=
  id <> EmptyString /\ all_chars graphic id = true.

(** ** A record of what is asked of the outside world

    To say what a method never does, the outside world is paired with a
    record of the calls made on it, in order, each with whether it
    returned ([true]) or raised. The pair is a world like any other: the
    methods run on it unchanged, and the record is never read. *)

Module Recording.

Inductive request : Type :=
  | Get (url : string)
  | CurrentUrl
  | FindElement (selector : string)
  | FindElements (selector : string)
  | ExecuteScript (script : string) (element : WebElement)
  | Wait (timeout : Z) (condition : expected_condition) (selector : string)
  | Click (element : WebElement)
  | IsDisplayed (element : WebElement)
  | Clear (element : WebElement)
  | SendKeys (element : WebElement) (text : string)
  | GetAttribute (element : WebElement) (name : string)
  | Quit
  | FileAppend (path text : string)
  | ChromeStart
  | ChromeConfigure
  | Login.

Definition event : Type := request * bool.

Definition returned {A} (r : Res A) : bool :=
  match r with Ok _ => true | Raise _ => false end.

Definition recorded {B A} (q : request) (op : B -> Res A * B)
    (w : B * list event) : Res A * (B * list event) :=
  let (r, b) := op w.1 in (r, (b, w.2 ++ [(q, returned r)])).

#[export] Instance recording_driver {B} `{WebDriver B} : WebDriver (B * list event) := {|
  driver_get url := recorded (Get url) (driver_get url);
  driver_current_url := recorded CurrentUrl driver_current_url;
  driver_find_element selector :=
    recorded (FindElement selector) (driver_find_element selector);
  driver_find_elements selector :=
    recorded (FindElements selector) (driver_find_elements selector);
  driver_execute_script script element :=
    recorded (ExecuteScript script element) (driver_execute_script script element);
  wait_until timeout condition selector :=
    recorded (Wait timeout condition selector) (wait_until timeout condition selector);
  element_click element := recorded (Click element) (element_click element);
  element_is_displayed element :=
    recorded (IsDisplayed element) (element_is_displayed element);
  element_clear element := recorded (Clear element) (element_clear element);
  element_send_keys element text :=
    recorded (SendKeys element text) (element_send_keys element text);
  element_get_attribute element name :=
    recorded (GetAttribute element name) (element_get_attribute element name);
  driver_quit := recorded Quit driver_quit;
  file_append path text := recorded (FileAppend path text) (file_append path text);
  chrome_start := recorded ChromeStart chrome_start;
  chrome_configure := recorded ChromeConfigure chrome_configure;
  login_session := recorded Login login_session;
  location w := location w.1
|}.

(** The record of a state, and the state of the methods run without the
    record. *)
Definition record {B} (s : State (B * list event)) : list event := (world s).2.

Definition forget {B} (s : State (B * list event)) : State B :=
  {| self := self s; world := (world s).1; calls := calls s |}.

(** The requests [_apply_to_vacancy] makes for a listing, given the text
    of the cover letter and where it goes back to: it loads the listing
    and the return location and nothing else, writes nothing but the
    line of the listing to the ledger file, types nothing but the cover
    letter, reads no list of elements and no attribute, and does not
    start, log in or close the browser. *)
Definition apply_request (vacancy_url search_page_url cover : string)
    (ev : event) : Prop :=
  match ev.1 with
  | Get url => url = vacancy_url \/ url = search_page_url
  | FileAppend path text =>
      path = "applied_vacancies.txt" /\ text = vacancy_id_of vacancy_url +:+ newline
  | SendKeys _ text => text = cover
  | FindElements _ | GetAttribute _ _ | Quit | ChromeStart | ChromeConfigure | Login =>
      False
  | _ => True
  end.

(** The requests of the steps of a listing page that change nothing in
    the object: waits, look-ups, scripts, and the cover letter typed. *)
Definition page_request (cover : string) (ev : event) : Prop :=
  match ev.1 with
  | Wait _ _ _ | FindElement _ | IsDisplayed _ | ExecuteScript _ _ | Clear _ => True
  | SendKeys _ text => text = cover
  | _ => False
  end.

Definition listing_page_request (o : HHAutoApply) : event -> Prop :=
  page_request (cover_letter (application_settings (config o))).

(** Requests that only read the page. *)
Definition reading (ev : event) : Prop :=
  match ev.1 with
  | CurrentUrl | Wait _ _ _ | FindElements _ => True
  | GetAttribute _ name => name = "href"
  | _ => False
  end.

(** The requests of [next_page]: it reads, loads nothing but the search
    page, and clicks. *)
Definition pager_request (current_search_url : string) (ev : event) : Prop :=
  match ev.1 with
  | CurrentUrl | FindElement _ | GetAttribute _ _ | Click _ => True
  | Get url => url = current_search_url
  | _ => False
  end.

(** The successful writes of a line to the ledger file. *)
Definition wrote_line (line : string) (ev : event) : bool :=
  match ev with
  | (FileAppend path text, true) =>
      String.eqb path "applied_vacancies.txt" && String.eqb text line
  | _ => false
  end.

Definition lines_written (line : string) (evs : list event) : Z :=
  Z.of_nat (length (List.filter (wrote_line line) evs)).

(** The successful writes to the ledger file, whatever the line. *)
Definition wrote_ledger (ev : event) : bool :=
  match ev with
  | (FileAppend path _, true) => String.eqb path "applied_vacancies.txt"
  | _ => false
  end.

Definition ledger_writes (evs : list event) : Z :=
  Z.of_nat (length (List.filter wrote_ledger evs)).

(** The navigations to [url] that raised. *)
Definition failed_get (url : string) (ev : event) : bool :=
  match ev with
  | (Get url', false) => String.eqb url' url
  | _ => false
  end.

Definition failed_gets (url : string) (evs : list event) : Z :=
  Z.of_nat (length (List.filter (failed_get url) evs)).

Definition is_quit (ev : event) : Prop := ev.1 = Quit.

(** The requests of a session: starting the browser, its configuration,
    the login, and closing it. *)
Definition session_request (ev : event) : Prop :=
  match ev.1 with
  | ChromeStart | ChromeConfigure | Login | Quit => True
  | _ => False
  end.

End Recording.

(** A step that touches the outside world only and whose requests all
    satisfy [P], which may depend on the object. *)
Definition quiet {B A} (P : HHAutoApply -> Recording.event -> Prop)
    (m : M (State (B * list Recording.event)) A) : Prop :=
  forall s, exists r b evs,
    m s = (r, set_world s (b, Recording.record s ++ evs)) /\
    Forall (P (self s)) evs.

(** An invariant of the state that a computation keeps, however it ends. *)
Definition preserves {S A} (J : S -> Prop) (m : M S A) : Prop :=
  forall s, J s -> J (m s).2.

(** The record grew by requests that all satisfy [P]. *)
Definition recorded_since {B} (t : list Recording.event) (P : Recording.event -> Prop)
    (s : State (B * list Recording.event)) : Prop :=
  exists evs, Recording.record s = t ++ evs /\ Forall P evs.

(** A step that touches the outside world only, and takes it to a world
    that [R] relates to the one before. *)
Definition steps {W A} (R : W -> W -> Prop) (m : M (State W) A) : Prop :=
  forall s, exists r b, m s = (r, set_world s b) /\ R (world s) b.

(** The record of the second world is that of the first with requests
    added that all satisfy [P]. *)
Definition extends {B} (P : Recording.event -> Prop)
    (w w' : B * list Recording.event) : Prop :=
  exists evs, w'.2 = w.2 ++ evs /\ Forall P evs.

(** The applications counted since the record stood at [t] and the
    counter at [base] are covered by writes to the ledger file. *)
Definition covered {B} (t : list Recording.event) (base : Z)
    (s : State (B * list Recording.event)) : Prop :=
  exists evs, Recording.record s = t ++ evs /\
              applied_count (self s) - base <= Recording.ledger_writes evs.

(** ** Further scenarios *)

Module Cases.
Import Scripted Scenario Recording.

(** The browser [n] replies into a script. *)
Definition after (replies : list reply) (n : nat) (at_url : string)
    (file : list string) : browser :=
  {| here := at_url; script := drop n replies; ledger_file := file |}.

(** A state on the scripted browser, with an empty record beside it. *)
Definition recording (s : State browser) : State (browser * list event) :=
  {| self := self s; world := (world s, []); calls := calls s |}.

(** The listing opens on the response form; the way back works. *)
Definition on_response_form : State browser :=
  fresh true [Done; Lands response_form; Done].

(** The pager of the last page: found, and marked as disabled. *)
Definition last_page : State browser :=
  fresh true [Done; Element 9%nat; Attribute (Some "bloko-button disabled")].

(** The same pager, seen from a listing the browser was left on. *)
Definition left_on_listing : State browser :=
  fresh true [Lands listing; Done; Element 9%nat;
              Attribute (Some "bloko-button disabled")].

(** The pager of a page that has a next one. *)
Definition middle_page : State browser :=
  fresh true [Done; Element 9%nat; Attribute (Some "bloko-button");
              Lands "https://hh.ru/search/vacancy?text=python&page=1"; Done].

(** A page with two listings, of which the first has no apply control
    and no marker and the second takes the application. *)
Definition broken_then_open : State browser :=
  fresh true (broken_page ++ confirmed).

(** The same state with no delay in the configuration. *)
Definition without_delay (s : State browser) : State browser :=
  {| self :=
       {| config :=
            {| search_filters := search_filters (config (self s));
               application_settings :=
                 {| max_applications_per_day :=
                      max_applications_per_day (application_settings (config (self s)));
                    cover_letter := cover_letter (application_settings (config (self s)));
                    skip_already_applied :=
                      skip_already_applied (application_settings (config (self s)));
                    delay_between_applications := None |} |};
          driver := driver (self s);
          applied_count := applied_count (self s);
          skipped_count := skipped_count (self s);
          error_count := error_count (self s);
          applied_vacancies := applied_vacancies (self s) |};
     world := world s; calls := calls s |}.

(** A fresh object that has not started a browser, with the given quota,
    and the session that is to come. *)
Definition before_run (quota : Z) (replies : list reply) : State browser :=
  state
    {| config := {| search_filters := filters;
                    application_settings :=
                      {| max_applications_per_day := quota; cover_letter := "Hello";
                         skip_already_applied := true;
                         delay_between_applications := Some (delay_seconds (2 # 1)) |} |};
       driver := false; applied_count := 0; skipped_count := 0; error_count := 0;
       applied_vacancies := ∅ |}
    "about:blank" replies.

(** The browser starts, is configured, the login succeeds, and the
    browser closes. *)
Definition session_only : list reply := [Done; Done; Answer true; Done].

(** A run over one page with one listing that takes the application. *)
Definition one_listing_run : list reply :=
  [Done; Done; Answer true; Done;
   Done; Element 0%nat; Elements [1%nat];
   Attribute (Some "https://hh.ru/vacancy/1");
   Done]
  ++ confirmed ++ [Done; Raises NoSuchElementException; Done].

(** The click on the submission control is refused and the click by
    script goes through. *)
Definition refused_click : list reply :=
  up_to_confirmation ++
  [Element 2%nat; Done; Raises OtherException; Done; Done; Done].

(** The click on the apply control leads to the response form. *)
Definition click_opens_form : list reply :=
  [Done; Done; Element 1%nat; Done; Lands response_form; Done; Done].

(** The cover letter field is there. *)
Definition with_cover_letter_field : State browser :=
  fresh true [Element 3%nat; Done; Done].

(** The configuration of the scenarios, as a [Config]. *)
Definition configuration : Config :=
  {| search_filters := filters; application_settings := settings true |}.

(** A keyword that needs escaping, and a list with an empty keyword. *)
Definition escaped_filters : SearchFilters :=
  {| keywords := Some ["c++ разработчик"; EmptyString]; salary_min := Some 100000;
     area := Some "Москва"; experience := Some "between1And3";
     employment := Some "full"; schedule := Some "remote" |}.

End Cases.

(** * Properties *)

#[local] Arguments String.append : simpl nomatch.

(** ** Strings *)

Lemma split_nonempty sep s : PyStr.split sep s <> [].
Proof.
  destruct s as [|c s]; simpl; [discriminate|].
  destruct (Ascii.eqb c sep); [discriminate|].
  destruct (PyStr.split sep s); discriminate.
Qed.

Lemma first_item_split sep s :
  PyStr.first_item (PyStr.split sep s) = before_first sep s.
Proof.
  induction s as [|c s IH]; simpl; [reflexivity|].
  destruct (Ascii.eqb c sep); [reflexivity|].
  destruct (PyStr.split sep s) as [|h t] eqn:E.
  - by destruct (split_nonempty sep s).
  - simpl in *. by rewrite IH.
Qed.

Lemma contains_char c s :
  PyStr.contains (String c EmptyString) s = true <-> PyStr.has_char c s.
Proof.
  induction s as [|a s IH]; simpl.
  - split; [discriminate|tauto].
  - rewrite orb_true_iff, IH, andb_true_r. rewrite Ascii.eqb_eq.
    split; intros [->|?]; auto.
Qed.

Lemma split_no_sep sep s : ~ PyStr.has_char sep s -> PyStr.split sep s = [s].
Proof.
  induction s as [|a s IH]; simpl; [reflexivity|]. intros Hn.
  destruct (Ascii.eqb_spec a sep) as [->|Hne]; [tauto|].
  rewrite IH; tauto.
Qed.

Lemma split_one_piece sep s h :
  PyStr.split sep s = [h] -> ~ PyStr.has_char sep s.
Proof.
  revert h. induction s as [|b s IH]; simpl; intros h E; [tauto|].
  destruct (Ascii.eqb_spec b sep) as [->|Hne].
  - injection E as _ E. by destruct (split_nonempty sep s).
  - destruct (PyStr.split sep s) as [|h1 [|h2 t]] eqn:E2; try discriminate.
    + by destruct (split_nonempty sep s).
    + intros [?|?]; [congruence|]. by eapply IH.
Qed.

Lemma last_item_split sep s :
  PyStr.last_item (PyStr.split sep s) = after_last sep s.
Proof.
  induction s as [|a s IH]; simpl; [reflexivity|].
  destruct (PyStr.contains (String sep EmptyString) s) eqn:Hc.
  - rewrite <- IH. unfold PyStr.last_item.
    destruct (Ascii.eqb a sep).
    + simpl. destruct (PyStr.split sep s) eqn:E;
        [by destruct (split_nonempty sep s)|reflexivity].
    + destruct (PyStr.split sep s) as [|h [|h' t]] eqn:E.
      * by destruct (split_nonempty sep s).
      * exfalso. apply contains_char in Hc. by apply (split_one_piece _ _ _ E).
      * reflexivity.
  - assert (Hn : ~ PyStr.has_char sep s).
    { rewrite <- contains_char, Hc. discriminate. }
    rewrite (split_no_sep _ _ Hn).
    destruct (Ascii.eqb a sep); reflexivity.
Qed.

Lemma vacancy_id_of_spec url : vacancy_id_of url = listing_identifier_spec url.
Proof.
  unfold vacancy_id_of, listing_identifier_spec.
  by rewrite last_item_split, first_item_split.
Qed.

Lemma has_char_app c s1 s2 :
  PyStr.has_char c (s1 +:+ s2) <-> PyStr.has_char c s1 \/ PyStr.has_char c s2.
Proof. induction s1 as [|a s1 IH]; simpl; [tauto|]. rewrite IH. tauto. Qed.

Lemma after_last_app_sep sep s :
  after_last sep (s +:+ String sep EmptyString) = EmptyString.
Proof.
  induction s as [|a s IH]; simpl.
  - by rewrite Ascii.eqb_refl.
  - assert (PyStr.contains (String sep EmptyString) (s +:+ String sep EmptyString) = true)
      as ->; [|done].
    apply contains_char, has_char_app. right. by left.
Qed.

Lemma before_first_no_char c s : ~ PyStr.has_char c (before_first c s).
Proof.
  induction s as [|a s IH]; simpl; [tauto|].
  destruct (Ascii.eqb_spec a c); simpl; [tauto|]. intros [?|?]; auto.
Qed.

Lemma after_last_no_char c s : ~ PyStr.has_char c (after_last c s).
Proof.
  induction s as [|a s IH]; simpl; [tauto|].
  destruct (PyStr.contains (String c EmptyString) s) eqn:Hc; [exact IH|].
  assert (Hn : ~ PyStr.has_char c s) by (rewrite <- contains_char, Hc; discriminate).
  destruct (Ascii.eqb_spec a c); simpl; [exact Hn|]. intros [?|?]; auto.
Qed.

(** The text after the last separator is the whole string, or what
    follows a separator in it. *)
Lemma after_last_suffix c s :
  after_last c s = s \/ exists p, s = p +:+ String c (after_last c s).
Proof.
  induction s as [|a s IH]; simpl; [by left|].
  destruct (PyStr.contains (String c EmptyString) s) eqn:Hc.
  - right. destruct IH as [IH|[p Hp]].
    + apply contains_char in Hc. exfalso. apply (after_last_no_char c s). by rewrite IH.
    + exists (String a p). simpl. f_equal. exact Hp.
  - destruct (Ascii.eqb_spec a c) as [->|?]; [right; by exists EmptyString|by left].
Qed.

(** The text before the first separator is the whole string, or what
    precedes a separator in it. *)
Lemma before_first_prefix c s :
  before_first c s = s \/ exists q, s = before_first c s +:+ String c q.
Proof.
  induction s as [|a s IH]; simpl; [by left|].
  destruct (Ascii.eqb_spec a c) as [->|?]; [right; by exists s|].
  destruct IH as [IH|[q Hq]]; [left; by rewrite IH|].
  right. exists q. simpl. f_equal. exact Hq.
Qed.

Lemma startswith_before_first p c s :
  PyStr.startswith p (before_first c s) = true -> PyStr.startswith p s = true.
Proof.
  revert s. induction p as [|a p IH]; intros s; [done|].
  destruct s as [|b s]; simpl; [done|].
  destruct (Ascii.eqb b c); simpl; [discriminate|].
  rewrite !andb_true_iff. intros [? ?]; auto.
Qed.

Lemma split_app_sep sep x rest :
  ~ PyStr.has_char sep x ->
  PyStr.split sep (x +:+ String sep rest) = x :: PyStr.split sep rest.
Proof.
  induction x as [|a x IH]; simpl; intros Hn.
  - by rewrite Ascii.eqb_refl.
  - destruct (Ascii.eqb_spec a sep) as [->|?]; [tauto|].
    rewrite IH; tauto.
Qed.

Lemma before_first_app c k v :
  ~ PyStr.has_char c k -> before_first c (k +:+ String c v) = k.
Proof.
  induction k as [|a k IH]; simpl; intros Hn.
  - by rewrite Ascii.eqb_refl.
  - destruct (Ascii.eqb_spec a c) as [->|?]; [tauto|]. rewrite IH; tauto.
Qed.

Lemma after_first_app c k v :
  ~ PyStr.has_char c k -> after_first c (k +:+ String c v) = v.
Proof.
  induction k as [|a k IH]; simpl; intros Hn.
  - by rewrite Ascii.eqb_refl.
  - destruct (Ascii.eqb_spec a c) as [->|?]; [tauto|]. rewrite IH; tauto.
Qed.

(** ** The query string *)

Lemma quote_byte_plain c :
  ~ PyStr.has_char "&" (Urllib.quote_byte c) /\ ~ PyStr.has_char "=" (Urllib.quote_byte c).
Proof.
  destruct c as [[] [] [] [] [] [] [] []]; vm_compute; split; intros Hc;
    repeat (destruct Hc as [Hc|Hc]; [discriminate Hc|]); exact Hc.
Qed.

Lemma quote_plus_plain s :
  ~ PyStr.has_char "&" (Urllib.quote_plus s) /\ ~ PyStr.has_char "=" (Urllib.quote_plus s).
Proof.
  induction s as [|c s [IH1 IH2]]; simpl; [tauto|].
  rewrite !has_char_app. destruct (quote_byte_plain c). tauto.
Qed.

Lemma quote_byte_nonempty c : Urllib.quote_byte c <> EmptyString.
Proof.
  unfold Urllib.quote_byte. destruct (Urllib.always_safe c); [discriminate|].
  destruct (Ascii.eqb c " "); discriminate.
Qed.

Lemma quote_plus_empty s : Urllib.quote_plus s = EmptyString -> s = EmptyString.
Proof.
  destruct s as [|c s]; [done|]. simpl. intros Hq.
  destruct (Urllib.quote_byte c) eqn:E; [by destruct (quote_byte_nonempty c)|discriminate].
Qed.

Lemma split_join_amp l :
  l <> [] -> List.Forall (fun x => ~ PyStr.has_char "&" x) l ->
  PyStr.split "&" (Urllib.join_amp l) = l.
Proof.
  induction l as [|x [|y l] IH]; [done| |]; intros _ Hall.
  - simpl. apply split_no_sep. by inversion Hall.
  - change (Urllib.join_amp (x :: y :: l))
      with (x +:+ String "&" (Urllib.join_amp (y :: l))).
    inversion Hall; subst. rewrite split_app_sep; [|done]. by rewrite IH.
Qed.

Lemma join_amp_empty l :
  Urllib.join_amp l = EmptyString -> l = [] \/ l = [EmptyString].
Proof.
  destruct l as [|x [|y l]]; simpl; auto.
  - intros ->. auto.
  - destruct x; discriminate.
Qed.

(** Reading the parameters back from the encoded query gives the encoded
    pairs of the dict, in order. *)
Lemma parse_query_urlencode d :
  parse_query (Urllib.urlencode d) =
  map (fun kv => (Urllib.quote_plus kv.1, Urllib.quote_plus kv.2)) d.
Proof.
  unfold parse_query, Urllib.urlencode.
  destruct (Urllib.join_amp (map Urllib.encode_pair d)) eqn:E.
  - apply join_amp_empty in E as [E|E].
    + by destruct d.
    + destruct d as [|[k v] [|? ?]]; try discriminate.
      unfold Urllib.encode_pair in E. simpl in E.
      injection E as E. destruct (Urllib.quote_plus k); discriminate.
  - rewrite <- E. rewrite split_join_amp.
    + rewrite map_map. apply map_ext. intros [k v]. unfold Urllib.encode_pair. simpl.
      destruct (quote_plus_plain k) as [_ Hk].
      change (Urllib.quote_plus k +:+ "=" +:+ Urllib.quote_plus v)
        with (Urllib.quote_plus k +:+ String "=" (Urllib.quote_plus v)).
      by rewrite before_first_app, after_first_app.
    + destruct d; [discriminate E|discriminate].
    + apply List.Forall_forall. intros x [[k v] [<- _]]%in_map_iff.
      unfold Urllib.encode_pair. simpl. rewrite !has_char_app.
      destruct (quote_plus_plain k), (quote_plus_plain v). simpl. intuition discriminate.
Qed.

Lemma query_of_search_url q : query_of (base_url +:+ "?" +:+ q) = q.
Proof. reflexivity. Qed.

(** ** The parameters of the search *)

Lemma in_dict_set k v d k' v' :
  In (k', v') (Urllib.dict_set k v d) -> (k' = k /\ v' = v) \/ In (k', v') d.
Proof.
  induction d as [|[k0 v0] d IH]; simpl.
  - intros [[= <- <-]|[]]. by left.
  - destruct (String.eqb_spec k k0) as [->|Hne]; simpl.
    + intros [[= <- <-]|?]; auto.
    + intros [?|?]; auto. destruct IH as [?|?]; auto.
Qed.

Lemma dict_set_keeps k v d k' v' :
  k' <> k -> In (k', v') d -> In (k', v') (Urllib.dict_set k v d).
Proof.
  intros Hne. induction d as [|[k0 v0] d IH]; simpl; [tauto|].
  destruct (String.eqb_spec k k0) as [->|Hk]; simpl.
  - intros [[= <- <-]|?]; [congruence|auto].
  - intros [?|?]; auto.
Qed.

Lemma dict_set_in k v d : In (k, v) (Urllib.dict_set k v d).
Proof.
  induction d as [|[k0 v0] d IH]; simpl; [by left|].
  destruct (String.eqb_spec k k0); simpl; auto.
Qed.

Lemma str_of_int_truthy n : PyStr.truthy (str_of_int n) = true.
Proof.
  unfold str_of_int. destruct (Z.to_int n) as [d|d]; simpl; [|reflexivity].
  destruct d; reflexivity.
Qed.

Lemma truthy_opt_Some o :
  PyStr.truthy_opt o = true -> exists s, o = Some s /\ PyStr.truthy s = true.
Proof. destruct o as [s|]; simpl; [eauto|discriminate]. Qed.

Lemma in_params_enum key table value d k v :
  In (k, v) (params_enum key table value d) ->
  In (k, v) d \/
  (k = key /\ exists x, value = Some x /\ PyStr.truthy x = true /\
     PyStr.truthy (Urllib.dict_get x table EmptyString) = true /\
     v = Urllib.dict_get x table EmptyString).
Proof.
  unfold params_enum. destruct (PyStr.truthy_opt value) eqn:E; [|auto].
  apply truthy_opt_Some in E as (x & -> & Hx). simpl.
  destruct (PyStr.truthy (Urllib.dict_get x table EmptyString)) eqn:Ht; [|auto].
  intros [[-> ->]|?]%in_dict_set; [right|by left].
  split; [done|]. by exists x.
Qed.

Lemma params_enum_keeps key table value d k v :
  k <> key -> In (k, v) d -> In (k, v) (params_enum key table value d).
Proof.
  intros Hne Hin. unfold params_enum.
  destruct (PyStr.truthy_opt value); [|done].
  destruct (PyStr.truthy _); [|done]. by apply dict_set_keeps.
Qed.

Lemma params_enum_adds key table x d :
  PyStr.truthy x = true ->
  PyStr.truthy (Urllib.dict_get x table EmptyString) = true ->
  In (key, Urllib.dict_get x table EmptyString) (params_enum key table (Some x) d).
Proof.
  intros Hx Ht. unfold params_enum. simpl. rewrite Hx, Ht. apply dict_set_in.
Qed.

Lemma in_params_area filters d k v :
  In (k, v) (params_area filters d) ->
  In (k, v) d \/
  (k = "area" /\ exists a, area filters = Some a /\ PyStr.truthy a = true /\
     v = Urllib.dict_get a area_map "1").
Proof.
  unfold params_area. destruct (PyStr.truthy_opt (area filters)) eqn:E; [|auto].
  apply truthy_opt_Some in E as (a & Ha & Ht). rewrite Ha. simpl.
  intros [[-> ->]|?]%in_dict_set; [right|by left].
  split; [done|]. by exists a.
Qed.

Lemma params_area_keeps filters d k v :
  k <> "area" -> In (k, v) d -> In (k, v) (params_area filters d).
Proof.
  intros Hne Hin. unfold params_area.
  destruct (PyStr.truthy_opt _); [|done]. by apply dict_set_keeps.
Qed.

Lemma in_params_salary filters d k v :
  In (k, v) (params_salary filters d) ->
  In (k, v) d \/
  (k = "salary" /\ exists n, salary_min filters = Some n /\ n <> 0 /\ v = str_of_int n).
Proof.
  unfold params_salary. destruct (salary_min filters) as [n|]; [|auto].
  destruct (Z.eqb_spec n 0); [auto|].
  intros [[-> ->]|?]%in_dict_set; [right|by left].
  split; [done|]. by exists n.
Qed.

Lemma params_salary_keeps filters d k v :
  k <> "salary" -> In (k, v) d -> In (k, v) (params_salary filters d).
Proof.
  intros Hne Hin. unfold params_salary.
  destruct (salary_min filters) as [n|]; [|done].
  destruct (n =? 0); [done|]. by apply dict_set_keeps.
Qed.

Lemma in_params_text keyword filters k v :
  In (k, v) (params_text keyword filters []) ->
  k = "text" /\
  ((exists kw, keyword = Some kw /\ PyStr.truthy kw = true /\ v = kw) \/
   (PyStr.truthy_opt keyword = false /\
    exists rest, keywords filters = Some (v :: rest))).
Proof.
  unfold params_text. destruct (PyStr.truthy_opt keyword) eqn:E.
  - apply truthy_opt_Some in E as (kw & -> & Hkw). simpl.
    intros [[= <- <-]|[]]. split; [done|]. left. by exists kw.
  - destruct (keywords filters) as [[|first rest]|]; simpl; try tauto.
    intros [[= <- <-]|[]]. split; [done|]. right. split; [done|]. by exists rest.
Qed.

(** [params_dict] holds exactly the parameters that have an origin. *)
Lemma build_params_origin keyword filters k v :
  In (k, v) (build_params keyword filters) <-> param_origin keyword filters k v.
Proof.
  unfold build_params. split.
  - intros [Hin|(-> & x & ? & ? & ? & ->)]%in_params_enum; [|by eapply from_schedule].
    apply in_params_enum in Hin as [Hin|(-> & x & ? & ? & ? & ->)];
      [|by eapply from_employment].
    apply in_params_enum in Hin as [Hin|(-> & x & ? & ? & ? & ->)];
      [|by eapply from_experience].
    apply in_params_area in Hin as [Hin|(-> & a & ? & ? & ->)]; [|by eapply from_area].
    apply in_params_salary in Hin as [Hin|(-> & n & ? & ? & ->)]; [|by eapply from_salary].
    apply in_params_text in Hin as [-> [(kw & ? & ? & ->)|(? & rest & ?)]].
    + by eapply from_keyword.
    + by eapply from_keywords.
  - intros Ho.
    assert (Htext : In (k, v) (params_text keyword filters []) ->
                    k = "text" -> In (k, v) (build_params keyword filters)).
    { intros Hin ->. unfold build_params.
      do 3 (apply params_enum_keeps; [discriminate|]).
      apply params_area_keeps; [discriminate|].
      by apply params_salary_keeps; [discriminate|]. }
    destruct Ho as [kw -> Hkw|first rest Hk Hks|n Hn Hne|a Ha Ht
                   |x Hx Ht Hm|x Hx Ht Hm|x Hx Ht Hm].
    + apply Htext; [|done]. unfold params_text. simpl. rewrite Hkw. by left.
    + apply Htext; [|done]. unfold params_text. rewrite Hk, Hks. by left.
    + do 3 (apply params_enum_keeps; [discriminate|]).
      apply params_area_keeps; [discriminate|].
      unfold params_salary. rewrite Hn. apply Z.eqb_neq in Hne as ->. apply dict_set_in.
    + do 3 (apply params_enum_keeps; [discriminate|]).
      unfold params_area. rewrite Ha. simpl. rewrite Ht. apply dict_set_in.
    + do 2 (apply params_enum_keeps; [discriminate|]).
      rewrite Hx. by apply params_enum_adds.
    + apply params_enum_keeps; [discriminate|].
      rewrite Hx. by apply params_enum_adds.
    + rewrite Hx. by apply params_enum_adds.
Qed.

Lemma param_origin_key keyword filters k v :
  param_origin keyword filters k v -> Urllib.quote_plus k = k.
Proof. intros []; reflexivity. Qed.

(** The parameters that appear in the query string of the search URL are
    the parameters with an origin, their values percent-encoded. *)
Lemma query_params keyword filters k v :
  In (k, v) (parse_query (Urllib.urlencode (build_params keyword filters))) <->
  exists v0, param_origin keyword filters k v0 /\ v = Urllib.quote_plus v0.
Proof.
  rewrite parse_query_urlencode, in_map_iff. split.
  - intros ([k0 v0] & [= <- <-] & Hin). apply build_params_origin in Hin.
    exists v0. simpl. by rewrite (param_origin_key _ _ _ _ Hin).
  - intros (v0 & Ho & ->). exists (k, v0). simpl.
    rewrite (param_origin_key _ _ _ _ Ho). split; [done|]. by apply build_params_origin.
Qed.

Lemma area_code_truthy a : PyStr.truthy (Urllib.dict_get a area_map "1") = true.
Proof.
  unfold area_map. simpl.
  repeat match goal with |- context [String.eqb ?x ?y] => destruct (String.eqb x y) end;
    reflexivity.
Qed.

Lemma area_code_default a :
  unmapped area_map a -> Urllib.dict_get a area_map "1" = "1".
Proof.
  unfold unmapped, area_map. simpl.
  repeat match goal with |- context [String.eqb ?x ?y] => destruct (String.eqb x y) end;
    (discriminate || reflexivity).
Qed.

(** A parameter with an origin has a value that is not empty, unless it is
    the text of a configured keyword that is itself empty. *)
Lemma param_origin_value keyword filters k :
  param_origin keyword filters k EmptyString ->
  k = "text" /\ PyStr.truthy_opt keyword = false /\
  exists rest, keywords filters = Some (EmptyString :: rest).
Proof.
  intros Ho. remember EmptyString as v eqn:Hv.
  destruct Ho as [kw Hk Hkw|first rest Hk Hks|n Hn Hne|a Ha Ht
                 |x Hx Ht Hm|x Hx Ht Hm|x Hx Ht Hm].
  - rewrite Hv in Hkw. discriminate.
  - subst first. eauto.
  - pose proof (str_of_int_truthy n) as Hs. rewrite Hv in Hs. discriminate.
  - pose proof (area_code_truthy a) as Hs. rewrite Hv in Hs. discriminate.
  - rewrite Hv in Hm. discriminate.
  - rewrite Hv in Hm. discriminate.
  - rewrite Hv in Hm. discriminate.
Qed.

(** ** [_build_search_url] *)

Section SearchUrl.
Context {B : Type} `{WebDriver B}.

(** What [_build_search_url] returns, and that it leaves the state alone. *)
Lemma build_search_url_eq keyword (s : State B) :
  _build_search_url keyword s =
  (if log_keyword_raises keyword (search_filters (config (self s)))
   then Raise OtherException
   else Ok (base_url +:+ "?" +:+
            Urllib.urlencode (build_params keyword (search_filters (config (self s))))),
   s).
Proof.
  unfold _build_search_url, mbind, M_bind, bind, get_self, raise, ret.
  by destruct (log_keyword_raises _ _).
Qed.

Lemma build_search_url_params keyword (s : State B) url :
  (_build_search_url keyword s).1 = Ok url ->
  forall k v,
    In (k, v) (parse_query (query_of url)) <->
    exists v0, param_origin keyword (search_filters (config (self s))) k v0 /\
               v = Urllib.quote_plus v0.
Proof.
  rewrite build_search_url_eq. cbn [fst].
  destruct (log_keyword_raises _ _); [discriminate|]. intros [= <-] k v.
  exact (query_params keyword (search_filters (config (self s))) k v).
Qed.

(** C6. [_build_search_url] is deterministic and pure: it leaves the
    object, the outside world and the ghost record as they were; what it
    returns is the same for any two states with the same search filters (it
    reads nothing else; the line it logs is not modelled); and when it
    returns a URL, a filter field that is unset (absent, empty, zero) does
    not appear among the parameters of the query string, and no parameter
    of the query string is empty except the text of a configured keyword
    that is itself the empty string. *)
Theorem search_url_deterministic_and_pure keyword (s : State B) :
  (_build_search_url keyword s).2 = s /\
  (forall s2 : State B,
     search_filters (config (self s2)) = search_filters (config (self s)) ->
     (_build_search_url keyword s2).1 = (_build_search_url keyword s).1) /\
  (forall url,
     (_build_search_url keyword s).1 = Ok url ->
     let filters := search_filters (config (self s)) in
     let params := parse_query (query_of url) in
     (forall k, In (k, EmptyString) params ->
        k = "text" /\ PyStr.truthy_opt keyword = false /\
        exists rest, keywords filters = Some (EmptyString :: rest)) /\
     (falsy_int (salary_min filters) = true -> forall v, ~ In ("salary", v) params) /\
     (unset (area filters) -> forall v, ~ In ("area", v) params) /\
     (unset (experience filters) -> forall v, ~ In ("experience", v) params) /\
     (unset (employment filters) -> forall v, ~ In ("employment", v) params) /\
     (unset (schedule filters) -> forall v, ~ In ("schedule", v) params) /\
     (PyStr.truthy_opt keyword = false -> keywords filters = None ->
      forall v, ~ In ("text", v) params)).
Proof.
  split; [by rewrite build_search_url_eq|].
  split; [intros s2 Heq; by rewrite !build_search_url_eq, Heq|].
  intros url Hurl filters params.
  pose proof (build_search_url_params keyword s url Hurl) as Hp.
  fold filters params in Hp. unfold unset.
  split.
  { intros k (v0 & Ho & Hv)%Hp.
    symmetry in Hv. apply quote_plus_empty in Hv as ->.
    by apply param_origin_value. }
  split.
  { intros Hf v (v0 & Ho & _)%Hp. inversion Ho as [| |n Hn Hne| | | |]; subst.
    rewrite Hn in Hf. simpl in Hf. by apply Z.eqb_eq in Hf. }
  split.
  { intros Hf v (v0 & Ho & _)%Hp. inversion Ho as [| | |a Ha Ht| | |]; subst.
    rewrite Ha in Hf. simpl in Hf. congruence. }
  split.
  { intros Hf v (v0 & Ho & _)%Hp. inversion Ho as [| | | |x Hx Ht Hm| |]; subst.
    rewrite Hx in Hf. simpl in Hf. congruence. }
  split.
  { intros Hf v (v0 & Ho & _)%Hp. inversion Ho as [| | | | |x Hx Ht Hm|]; subst.
    rewrite Hx in Hf. simpl in Hf. congruence. }
  split.
  { intros Hf v (v0 & Ho & _)%Hp. inversion Ho as [| | | | | |x Hx Ht Hm]; subst.
    rewrite Hx in Hf. simpl in Hf. congruence. }
  intros Hk Hks v (v0 & Ho & _)%Hp.
  inversion Ho as [kw Hkw Ht|first rest Hf Hfs| | | | |]; subst.
  - simpl in Hk. congruence.
  - congruence.
Qed.

(** C7, as the code has it. Unless the keyword is falsy while the
    configured keyword list is present and empty (the one case in which the
    method raises), [_build_search_url] returns a URL in which every unset
    filter field, the region included, is left out with nothing put in its
    place; a region that is set to a name the table does not know gets the
    fixed code 1; and an experience, employment or schedule value the
    tables do not know is left out. *)
Theorem search_url_defaults keyword (s : State B) :
  let filters := search_filters (config (self s)) in
  log_keyword_raises keyword filters = false ->
  exists url,
    (_build_search_url keyword s).1 = Ok url /\
    let params := parse_query (query_of url) in
    (falsy_int (salary_min filters) = true -> forall v, ~ In ("salary", v) params) /\
    (unset (area filters) -> forall v, ~ In ("area", v) params) /\
    (forall a, area filters = Some a -> PyStr.truthy a = true ->
               unmapped area_map a -> In ("area", "1") params) /\
    (unset (experience filters) \/
       (exists x, experience filters = Some x /\ unmapped exp_map x) ->
     forall v, ~ In ("experience", v) params) /\
    (unset (employment filters) \/
       (exists x, employment filters = Some x /\ unmapped employment_map x) ->
     forall v, ~ In ("employment", v) params) /\
    (unset (schedule filters) \/
       (exists x, schedule filters = Some x /\ unmapped schedule_map x) ->
     forall v, ~ In ("schedule", v) params).
Proof.
  intros filters Hlog.
  assert (Hurl : exists url, (_build_search_url keyword s).1 = Ok url).
  { rewrite build_search_url_eq. fold filters. rewrite Hlog. eauto. }
  destruct Hurl as [url Hurl]. exists url. split; [exact Hurl|].
  intros params.
  pose proof (build_search_url_params keyword s url Hurl) as Hp.
  fold filters params in Hp. unfold unset, unmapped.
  split.
  { intros Hf v (v0 & Ho & _)%Hp. inversion Ho as [| |n Hn Hne| | | |]; subst.
    rewrite Hn in Hf. simpl in Hf. by apply Z.eqb_eq in Hf. }
  split.
  { intros Hf v (v0 & Ho & _)%Hp. inversion Ho as [| | |a Ha Ht| | |]; subst.
    rewrite Ha in Hf. simpl in Hf. congruence. }
  split.
  { intros a Ha Ht Hun. apply Hp. exists "1". split; [|reflexivity].
    rewrite <- (area_code_default a Hun). by apply from_area. }
  split.
  { intros Hf v (v0 & Ho & _)%Hp. inversion Ho as [| | | |x Hx Ht Hm| |]; subst.
    destruct Hf as [Hf|(y & Hy & Hun)].
    - rewrite Hx in Hf. simpl in Hf. congruence.
    - rewrite Hx in Hy. injection Hy as <-. rewrite Hun in Hm. discriminate. }
  split.
  { intros Hf v (v0 & Ho & _)%Hp. inversion Ho as [| | | | |x Hx Ht Hm|]; subst.
    destruct Hf as [Hf|(y & Hy & Hun)].
    - rewrite Hx in Hf. simpl in Hf. congruence.
    - rewrite Hx in Hy. injection Hy as <-. rewrite Hun in Hm. discriminate. }
  intros Hf v (v0 & Ho & _)%Hp. inversion Ho as [| | | | | |x Hx Ht Hm]; subst.
  destruct Hf as [Hf|(y & Hy & Hun)].
  - rewrite Hx in Hf. simpl in Hf. congruence.
  - rewrite Hx in Hy. injection Hy as <-. rewrite Hun in Hm. discriminate.
Qed.

End SearchUrl.

(** C6 on the scripted browser, with every optional filter unset: the state
    is unchanged and the query string holds the text alone. *)
Lemma search_url_deterministic_and_pure_witness :
  (_build_search_url (Some "python") (Scenario.searching Scenario.filters)).2
    = Scenario.searching Scenario.filters /\
  (_build_search_url (Some "python") (Scenario.searching Scenario.filters)).1
    = Ok "https://hh.ru/search/vacancy?text=python" /\
  forall v, ~ In ("area", v)
    (parse_query (query_of "https://hh.ru/search/vacancy?text=python")).
Proof.
  pose proof (search_url_deterministic_and_pure (Some "python")
                (Scenario.searching Scenario.filters)) as (Hpure & _ & Hparams).
  split; [exact Hpure|]. split; [reflexivity|].
  specialize (Hparams "https://hh.ru/search/vacancy?text=python" eq_refl).
  cbv zeta in Hparams. destruct Hparams as (_ & _ & Harea & _).
  apply Harea. reflexivity.
Defined.

(** C7 as stated fails: with the region unset the query string carries no
    region at all, where the claim has the fixed code put in. *)
Lemma unset_region_is_omitted :
  area Scenario.filters = None /\
  (_build_search_url (Some "python") (Scenario.searching Scenario.filters)).1
    = Ok "https://hh.ru/search/vacancy?text=python" /\
  parse_query (query_of "https://hh.ru/search/vacancy?text=python")
    = [("text", "python")] /\
  forall code, ~ In ("area", code)
    (parse_query (query_of "https://hh.ru/search/vacancy?text=python")).
Proof.
  split; [reflexivity|]. split; [reflexivity|]. split; [reflexivity|].
  intros code [Hc|[]]. discriminate Hc.
Qed.

(** C7 as amended, on filters whose region and enum values the tables do
    not know: the region becomes code 1, the enums are left out. *)
Lemma search_url_defaults_witness :
  exists url,
    (_build_search_url (Some "python") (Scenario.searching Scenario.unknown_filters)).1
      = Ok url /\
    In ("area", "1") (parse_query (query_of url)) /\
    forall v, ~ In ("experience", v) (parse_query (query_of url)).
Proof.
  destruct (search_url_defaults (Some "python")
              (Scenario.searching Scenario.unknown_filters) eq_refl)
    as (url & Hurl & _ & _ & Harea & Hexp & _).
  exists url. split; [exact Hurl|]. split.
  - apply (Harea "Казань"); reflexivity.
  - apply Hexp. right. exists "senior". split; reflexivity.
Defined.

(** ** Computations that touch the outside world only *)

Section WorldOnly.
Context {B : Type} `{WebDriver B}.

Lemma world_only_call {A} (op : B -> Res A * B) : world_only (call op).
Proof. intros s. unfold call. destruct (op (world s)) as [r b]. by exists r, b. Qed.

Lemma world_only_ret {A} (a : A) : world_only (ret a : M (State B) A).
Proof. intros [o b c]. by exists (Ok a), b. Qed.

Lemma world_only_get_self : world_only (get_self : M (State B) _).
Proof. intros [o b c]. by exists (Ok o), b. Qed.

Lemma world_only_bind {A C} (m : M (State B) A) (k : A -> M (State B) C) :
  world_only m -> (forall a, world_only (k a)) -> world_only (bind m k).
Proof.
  intros Hm Hk s. unfold bind. destruct (Hm s) as (r & b & ->).
  destruct r as [a|e].
  - destruct (Hk a (set_world s b)) as (r' & b' & ->). by exists r', b'.
  - by exists (Raise e), b.
Qed.

Lemma world_only_try {A} (m : M (State B) A) (h : exn -> option (M (State B) A)) :
  world_only m -> (forall e k, h e = Some k -> world_only k) ->
  world_only (try_except m h).
Proof.
  intros Hm Hh s. unfold try_except. destruct (Hm s) as (r & b & ->).
  destruct r as [a|e]; [by exists (Ok a), b|].
  destruct (h e) as [k|] eqn:Hk; [|by exists (Raise e), b].
  destruct (Hh e k Hk (set_world s b)) as (r' & b' & ->). by exists r', b'.
Qed.

Lemma world_only_find_apply_button sels : world_only (find_apply_button sels).
Proof.
  induction sels as [|sel rest IH]; simpl; [apply world_only_ret|].
  apply world_only_try.
  - apply world_only_bind; [apply world_only_call|intros; apply world_only_ret].
  - intros [] k [= <-]. exact IH.
Qed.

Lemma world_only_dismiss_cookies_banner : world_only dismiss_cookies_banner.
Proof.
  unfold dismiss_cookies_banner.
  apply world_only_try.
  - apply world_only_bind; [apply world_only_call|intros banner].
    apply world_only_bind; [apply world_only_call|intros [|]].
    + apply world_only_try.
      * apply world_only_bind; [apply world_only_call|intros; apply world_only_call].
      * intros e k [= <-]. apply world_only_call.
    + apply world_only_ret.
  - intros [] k [= <-]. apply world_only_ret.
Qed.

Lemma world_only_fill_cover_letter : world_only fill_cover_letter.
Proof.
  unfold fill_cover_letter.
  apply world_only_try.
  - apply world_only_bind; [apply world_only_call|intros ta].
    apply world_only_bind; [apply world_only_get_self|intros o].
    apply world_only_bind; [apply world_only_call|intros; apply world_only_call].
  - intros [] k [= <-]. apply world_only_ret.
Qed.

Lemma world_only_find_alternative_cards sels :
  world_only (find_alternative_cards sels).
Proof.
  induction sels as [|sel rest IH]; simpl; [apply world_only_ret|].
  apply world_only_bind.
  - apply world_only_try; [apply world_only_call|].
    intros e k [= <-]. apply world_only_ret.
  - intros [|? ?]; [exact IH|apply world_only_ret].
Qed.

Lemma world_only_find_cards : world_only find_cards.
Proof.
  unfold find_cards. apply world_only_try.
  - apply world_only_bind; [apply world_only_call|intros; apply world_only_call].
  - intros [] k [= <-]. exact (world_only_find_alternative_cards alternative_selectors).
Qed.

Lemma world_only_next_page current_search_url :
  world_only (next_page current_search_url).
Proof.
  unfold next_page. apply world_only_try.
  - apply world_only_bind; [apply world_only_call|intros current_url].
    apply world_only_bind.
    { destruct (negb _); [apply world_only_call|apply world_only_ret]. }
    intros _. apply world_only_bind; [apply world_only_call|intros next_button].
    apply world_only_bind; [apply world_only_call|intros button_class].
    cbv zeta. destruct (_ || _); [apply world_only_ret|].
    apply world_only_bind; [apply world_only_call|intros _].
    apply world_only_bind; [apply world_only_call|intros _]. apply world_only_ret.
  - intros e k [= <-]. apply world_only_ret.
Qed.

End WorldOnly.

(** ** [_get_vacancy_links] *)

Lemma elem_of_dedup_first x l : x ∈ dedup_first l <-> x ∈ l.
Proof.
  induction l as [|a l IH]; simpl; [done|].
  rewrite !elem_of_cons, list_elem_of_filter, IH.
  destruct (decide (x = a)); intuition congruence.
Qed.

Lemma NoDup_dedup_first l : NoDup (dedup_first l).
Proof.
  induction l as [|a l IH]; simpl; [constructor|].
  constructor; [|by apply NoDup_filter].
  rewrite list_elem_of_filter. tauto.
Qed.

(** The links that stay keep the order they had. *)
Lemma sublist_dedup_first l : sublist (dedup_first l) l.
Proof.
  induction l as [|a l IH]; simpl; [done|].
  apply sublist_skip. etrans; [apply sublist_filter|done].
Qed.

Lemma add_link_spec href seen out :
  (forall x, x ∈ seen <-> x ∈ out) ->
  let acc := add_link href (seen, out) in
  (forall x, x ∈ acc.1 <-> x ∈ acc.2) /\
  acc.2 = out ++ filter (fun y => y ∉ out)
                   (from_option (fun x => [x]) [] (link_of_href href)).
Proof.
  intros Hinv. unfold add_link, link_of_href.
  destruct href as [link|]; simpl; [|by rewrite app_nil_r].
  destruct (is_vacancy_link link); simpl; [|by rewrite app_nil_r].
  case_bool_decide as Hin; simpl.
  - split; [done|]. rewrite filter_cons_False, filter_nil, app_nil_r; [done|].
    rewrite <- Hinv. tauto.
  - split.
    + intros x. rewrite elem_of_union, elem_of_singleton, elem_of_app,
        list_elem_of_singleton, Hinv. tauto.
    + rewrite filter_cons_True, filter_nil; [done|]. by rewrite <- Hinv.
Qed.

(** The loop with its set of seen links appends, to the links it has, the
    first occurrences of the links that are new. *)
Lemma fold_links_spec hrefs seen out :
  (forall x, x ∈ seen <-> x ∈ out) ->
  (fold_links hrefs (seen, out)).2 =
  out ++ filter (fun y => y ∉ out) (dedup_first (vacancy_links_of hrefs)).
Proof.
  revert seen out. induction hrefs as [|h hrefs IH]; intros seen out Hinv; simpl.
  - by rewrite filter_nil, app_nil_r.
  - destruct (add_link_spec h seen out Hinv) as [Hinv' Hout].
    destruct (add_link h (seen, out)) as [seen' out'] eqn:E. simpl in *.
    rewrite (IH seen' out' Hinv'), Hout. clear IH.
    unfold vacancy_links_of. simpl.
    destruct (link_of_href h) as [x|]; simpl.
    + destruct (decide (x ∈ out)) as [Hx|Hx].
      * rewrite filter_cons_False, filter_nil, app_nil_r by tauto.
        f_equal. rewrite filter_cons_False by tauto.
        rewrite list_filter_filter. apply list_filter_iff. intros y.
        split; [|tauto]. intros Hy. split; [done|]. congruence.
      * rewrite filter_cons_True, filter_nil by done.
        rewrite <- app_assoc. simpl. f_equal.
        rewrite (filter_cons_True _ x) by done. f_equal.
        rewrite list_filter_filter. apply list_filter_iff. intros y.
        rewrite elem_of_app, list_elem_of_singleton. tauto.
    + by rewrite filter_nil, app_nil_r.
Qed.

Lemma filter_not_in_nil (l : list string) : filter (fun y : string => y ∉ @nil string) l = l.
Proof.
  induction l as [|a l IH]; [done|]. rewrite filter_cons_True, IH; [done|].
  apply not_elem_of_nil.
Qed.

Lemma clean_link_of_spec link :
  clean_link_of link = before_first "?" (absolute_link link).
Proof. unfold clean_link_of. apply first_item_split. Qed.

(** A cleaned link has no query string and is not a relative listing
    path. *)
Lemma clean_link_normal link :
  ~ PyStr.has_char "?" (clean_link_of link) /\
  PyStr.startswith "/vacancy/" (clean_link_of link) = false.
Proof.
  rewrite clean_link_of_spec. split; [apply before_first_no_char|].
  unfold absolute_link. destruct (PyStr.startswith "/vacancy/" link) eqn:E.
  - reflexivity.
  - destruct (PyStr.startswith "/vacancy/" (before_first "?" link)) eqn:E2; [|done].
    apply startswith_before_first in E2. congruence.
Qed.

Lemma elem_of_vacancy_links_of x hrefs :
  x ∈ vacancy_links_of hrefs ->
  exists link, Some link ∈ hrefs /\ is_vacancy_link link = true /\ x = clean_link_of link.
Proof.
  unfold vacancy_links_of. rewrite list_elem_of_omap.
  intros ([link|] & Hin & Hl); simpl in Hl; [|discriminate].
  destruct (is_vacancy_link link) eqn:E; [|discriminate].
  injection Hl as <-. by exists link.
Qed.

Section Links.
Context {B : Type} `{WebDriver B}.

Lemma collect_links_spec cards acc (s : State B) :
  collect_links cards acc s =
  (Ok (fold_links (read_hrefs cards (world s)).1 acc).2,
   set_world s (read_hrefs cards (world s)).2).
Proof.
  revert acc s. induction cards as [|card rest IH]; intros acc [o b c]; simpl.
  - reflexivity.
  - unfold mbind, M_bind, bind, try_except, call, except_Exception, ret. simpl.
    destruct (element_get_attribute card "href" b) as [[href|e] b1] eqn:E; simpl.
    + rewrite IH. simpl. destruct (read_hrefs rest b1) as [hs b2]. reflexivity.
    + rewrite IH. simpl. destruct (read_hrefs rest b1) as [hs b2]. reflexivity.
Qed.

(** What [_get_vacancy_links] returns: the cleaned links of the cards
    found, first occurrences only; the empty list when reading the location
    or looking for the cards raised. *)
Lemma get_vacancy_links_spec (s : State B) :
  exists links b',
    _get_vacancy_links s = (Ok links, set_world s b') /\
    match driver_current_url (world s) with
    | (Ok _, b1) =>
        match find_cards (set_world s b1) with
        | (Ok cards, s2) =>
            links = dedup_first (vacancy_links_of (read_hrefs cards (world s2)).1)
        | (Raise _, _) => links = []
        end
    | (Raise _, _) => links = []
    end.
Proof.
  destruct s as [o b0 c].
  unfold _get_vacancy_links, try_except, mbind, M_bind, bind, call, ret,
    except_Exception, set_world. cbn [self world calls].
  destruct (driver_current_url b0) as [[u|e] b1]; cbn [self world calls];
    [|by eexists _, _].
  match goal with |- context [find_cards ?st] =>
    destruct (world_only_find_cards st) as (r & b2 & ->) end.
  unfold set_world. cbn [self world calls].
  destruct r as [cards|e]; [|by eexists _, _].
  rewrite collect_links_spec. unfold set_world. cbn [self world calls].
  eexists _, _. split; [reflexivity|].
  rewrite fold_links_spec
    by (intros x; split; intros Hx;
        [by apply not_elem_of_empty in Hx|by apply elem_of_nil in Hx]).
  simpl. apply filter_not_in_nil.
Qed.

Lemma world_only_get_vacancy_links : world_only _get_vacancy_links.
Proof.
  intros s. destruct (get_vacancy_links_spec s) as (links & b & E & _).
  by exists (Ok links), b.
Qed.

(** C8. [_get_vacancy_links] never raises. The list it returns holds no
    link twice, every link in it is without query string and is not a
    relative '/vacancy/' path, and it is the list of the cleaned links of
    the cards found on the page (the site put before a relative path, the
    query string cut off) with only the first occurrence of each kept, in
    the order of the page; it is empty when no card is found or when
    looking at the page raised. *)
Theorem vacancy_links_normalized_and_unique (s : State B) :
  exists links b',
    _get_vacancy_links s = (Ok links, set_world s b') /\
    NoDup links /\
    (forall link, link ∈ links ->
       ~ PyStr.has_char "?" link /\ PyStr.startswith "/vacancy/" link = false) /\
    match driver_current_url (world s) with
    | (Ok _, b1) =>
        match find_cards (set_world s b1) with
        | (Ok cards, s2) =>
            links = dedup_first (vacancy_links_of (read_hrefs cards (world s2)).1)
        | (Raise _, _) => links = []
        end
    | (Raise _, _) => links = []
    end.
Proof.
  destruct (get_vacancy_links_spec s) as (links & b' & Heq & Hl).
  exists links, b'. split; [exact Heq|].
  assert (Hshape : links = [] \/ exists hrefs, links = dedup_first (vacancy_links_of hrefs)).
  { destruct (driver_current_url (world s)) as [[u|e] b1]; [|by left].
    destruct (find_cards (set_world s b1)) as [[cards|e] s2]; [|by left].
    right. by eexists. }
  split; [|split; [|exact Hl]].
  - destruct Hshape as [->|[hrefs ->]]; [constructor|apply NoDup_dedup_first].
  - intros link Hin. destruct Hshape as [->|[hrefs ->]].
    + by apply elem_of_nil in Hin.
    + apply elem_of_dedup_first, elem_of_vacancy_links_of in Hin
        as (l & _ & _ & ->). apply clean_link_normal.
Qed.

End Links.

(** C8 on a result page that shows the same listing three times, with and
    without query string, next to a relative link, a card without [href]
    and a link to another kind of page. *)
Lemma vacancy_links_normalized_and_unique_witness :
  exists links b',
    _get_vacancy_links Scenario.result_page =
      (Ok links, set_world Scenario.result_page b') /\
    links = ["https://hh.ru/vacancy/1"; "https://hh.ru/vacancy/2"] /\
    NoDup links.
Proof.
  destruct (vacancy_links_normalized_and_unique Scenario.result_page)
    as (links & b' & Heq & Hnodup & _ & _).
  exists links, b'. split; [exact Heq|]. split; [|exact Hnodup].
  vm_compute in Heq. by injection Heq as <- _.
Defined.

(** ** [_apply_to_vacancy] *)

(** Running the method symbolically: unfold the monad, then take the calls
    on the outside world one by one, each with its possible results. The
    three blocks that only touch the outside world are taken whole. *)
Ltac innermost x k :=
  lazymatch x with
  | context [match ?y with _ => _ end] => innermost y k
  | _ => k x
  end.

Ltac step :=
  match goal with
  | |- context [match ?x with _ => _ end] =>
      innermost x ltac:(fun y => destruct y eqn:?)
  end.

Ltac blocks :=
  match goal with
  | |- context [find_apply_button ?l ?s] =>
      let r := fresh "r" in let b := fresh "b" in
      destruct (world_only_find_apply_button l s) as (r & b & ->);
      destruct r as [[?|]|?]
  | |- context [dismiss_cookies_banner ?s] =>
      let r := fresh "r" in let b := fresh "b" in
      destruct (world_only_dismiss_cookies_banner s) as (r & b & ->);
      destruct r as [[]|?]
  | |- context [fill_cover_letter ?s] =>
      let r := fresh "r" in let b := fresh "b" in
      destruct (world_only_fill_cover_letter s) as (r & b & ->);
      destruct r as [[]|?]
  end.

Ltac unfold_apply :=
  unfold _apply_to_vacancy, apply_body, apply_handler, no_apply_button,
    confirm_application, _save_applied_vacancy, try_except, call, modify_self,
    get_self, mbind, M_bind, bind, ret, except_Exception,
    except_TimeoutException, except_NoSuchElementException, set_world in *.

Ltac run_apply :=
  unfold_apply;
  repeat (cbn [self world calls fst snd] in *; first [blocks | step]).

Lemma ledger_add_twice (id : string) (X : gset string) :
  {[ id ]} ∪ ({[ id ]} ∪ X) = {[ id ]} ∪ X.
Proof. by rewrite (assoc_L (∪)), (idemp_L (∪)). Qed.

Lemma ledger_grows (id : string) (X : gset string) : X ⊆ {[ id ]} ∪ X.
Proof. apply union_subseteq_r. Qed.

Lemma ledger_grows_twice (id : string) (X : gset string) :
  X ⊆ {[ id ]} ∪ ({[ id ]} ∪ X).
Proof. rewrite ledger_add_twice. apply union_subseteq_r. Qed.

Lemma ledger_has (id : string) (X : gset string) : id ∈ {[ id ]} ∪ X.
Proof. apply elem_of_union_l, elem_of_singleton. reflexivity. Qed.

Lemma ledger_has_twice (id : string) (X : gset string) :
  id ∈ {[ id ]} ∪ ({[ id ]} ∪ X).
Proof. apply ledger_has. Qed.

Lemma add_skipped_0 (o : HHAutoApply) : add_skipped 0 o = o.
Proof. destruct o. unfold add_skipped. cbn. by rewrite Z.add_0_r. Qed.

Lemma not_ledger_skip vacancy_url o :
  ~ ledger_skip vacancy_url o ->
  skip_already_applied (application_settings (config o))
  && bool_decide (vacancy_id_of vacancy_url ∈ applied_vacancies o) = false.
Proof.
  intros Hskip. apply not_true_is_false.
  intros [? ?%bool_decide_eq_true]%andb_prop. by apply Hskip.
Qed.

Section Apply.
Context {B : Type} `{WebDriver B}.

(** The first test: a listing in the ledger is counted as skipped and
    nothing else happens. *)
Lemma apply_skip_eq vacancy_url search_page_url (s : State B) :
  PyStr.truthy search_page_url = true ->
  ledger_skip vacancy_url (self s) ->
  _apply_to_vacancy vacancy_url (Some search_page_url) s =
    (Ok false, {| self := incr_skipped (self s); world := world s; calls := calls s |}).
Proof.
  intros Hspu [Hskip Hin]. unfold _apply_to_vacancy. rewrite Hspu.
  unfold_apply. cbn [self world calls].
  rewrite Hskip, bool_decide_eq_true_2 by done. reflexivity.
Qed.

(** Given its return location, [_apply_to_vacancy] returns and does not
    raise; it leaves the ghost record and the configuration alone, the
    ledger only grows, and after [True] the identifier is in it. *)
Lemma apply_frame vacancy_url search_page_url (s : State B) :
  PyStr.truthy search_page_url = true ->
  exists r s', _apply_to_vacancy vacancy_url (Some search_page_url) s = (Ok r, s') /\
    calls s' = calls s /\ config (self s') = config (self s) /\
    applied_vacancies (self s) ⊆ applied_vacancies (self s') /\
    (r = true -> vacancy_id_of vacancy_url ∈ applied_vacancies (self s')).
Proof.
  intros Hspu. destruct s as [o b0 c].
  unfold _apply_to_vacancy. rewrite Hspu.
  run_apply.
  all: eexists _, _; (split; [reflexivity|]); cbn.
  all: repeat split; try done; auto using ledger_grows, ledger_grows_twice,
    ledger_has, ledger_has_twice.
Qed.

Lemma apply_calls_kept vacancy_url search_page_url (s : State B) :
  calls (_apply_to_vacancy vacancy_url search_page_url s).2 = calls s.
Proof.
  destruct s as [o b0 c].
  run_apply.
  all: reflexivity.
Qed.

(** The ledger is left as it was or gains the identifier of the listing. *)
Lemma apply_ledger vacancy_url search_page_url (s : State B) :
  let o' := self (_apply_to_vacancy vacancy_url search_page_url s).2 in
  applied_vacancies o' = applied_vacancies (self s) \/
  applied_vacancies o' = {[ vacancy_id_of vacancy_url ]} ∪ applied_vacancies (self s).
Proof.
  destruct s as [o b0 c].
  run_apply.
  all: cbn; try (by left); try (by right); right; apply ledger_add_twice.
Qed.

(** When the listing cannot be opened, the call counts an error. *)
Lemma apply_open_fails vacancy_url search_page_url (s : State B) e b1 :
  PyStr.truthy search_page_url = true ->
  ~ ledger_skip vacancy_url (self s) ->
  driver_get vacancy_url (world s) = (Raise e, b1) ->
  (_apply_to_vacancy vacancy_url (Some search_page_url) s).1 = Ok false /\
  self (_apply_to_vacancy vacancy_url (Some search_page_url) s).2 = incr_error (self s).
Proof.
  intros Hspu Hskip%not_ledger_skip H1. destruct s as [o b0 c].
  cbn [self world calls] in *.
  unfold _apply_to_vacancy. rewrite Hspu.
  unfold_apply. cbn [self world calls].
  rewrite Hskip. cbn [self world calls]. rewrite H1. cbn [self world calls].
  destruct (driver_get search_page_url b1) as [[[]|e'] b2]; cbn; done.
Qed.

Lemma apply_times_skipped n vacancy_url search_page_url (s : State B) :
  PyStr.truthy search_page_url = true ->
  ledger_skip vacancy_url (self s) ->
  apply_times n vacancy_url (Some search_page_url) s =
    (Ok (replicate n false),
     {| self := add_skipped (Z.of_nat n) (self s); world := world s; calls := calls s |}).
Proof.
  intros Hspu. revert s. induction n as [|n IH]; intros s Hskip.
  - cbn [apply_times replicate]. change (Z.of_nat 0) with 0.
    rewrite add_skipped_0. by destruct s.
  - cbn [apply_times replicate]. unfold mbind, M_bind, bind.
    rewrite apply_skip_eq by done.
    rewrite IH by exact Hskip. unfold ret. cbn [self world calls].
    do 2 f_equal. destruct s as [[] b c]. unfold add_skipped, incr_skipped. cbn.
    f_equal. lia.
Qed.

(** C3, as the code has it. With skipping of handled listings enabled and
    the return location given: once a call on a listing has returned
    [True], the identifier is in the ledger, and any number of further
    calls on that listing each return [False], count one skip each, and
    leave the ledger, the ledger file and the browser as they were. *)
Theorem applied_then_skipped n vacancy_url search_page_url (s s1 : State B) :
  PyStr.truthy search_page_url = true ->
  skip_already_applied (application_settings (config (self s))) = true ->
  _apply_to_vacancy vacancy_url (Some search_page_url) s = (Ok true, s1) ->
  vacancy_id_of vacancy_url ∈ applied_vacancies (self s1) /\
  apply_times n vacancy_url (Some search_page_url) s1 =
    (Ok (replicate n false),
     {| self := add_skipped (Z.of_nat n) (self s1);
        world := world s1; calls := calls s1 |}).
Proof.
  intros Hspu Hskip Happ.
  destruct (apply_frame vacancy_url search_page_url s Hspu)
    as (r & s' & Heq & _ & Hcfg & _ & Hin).
  rewrite Happ in Heq. injection Heq as <- <-.
  split; [by apply Hin|].
  apply apply_times_skipped; [done|]. split; [by rewrite Hcfg|by apply Hin].
Qed.

(** C4. For a call that is given its return location: when skipping is
    enabled and the identifier of the listing is in the ledger, the call
    returns [False], counts one skip, and asks nothing of the outside
    world: the browser, its location and the ledger file are untouched, and
    the ledger and the other counters are unchanged. *)
Theorem known_listing_is_skipped_without_navigation
    vacancy_url search_page_url (s : State B) :
  PyStr.truthy search_page_url = true ->
  skip_already_applied (application_settings (config (self s))) = true ->
  vacancy_id_of vacancy_url ∈ applied_vacancies (self s) ->
  _apply_to_vacancy vacancy_url (Some search_page_url) s =
    (Ok false, {| self := incr_skipped (self s); world := world s; calls := calls s |}).
Proof. intros Hspu Hskip Hin. by apply apply_skip_eq. Qed.

(** C5. When the listing opens without landing on the response form, an
    apply control is found and clicked without a redirect to the response
    form, the cookies banner and the cover letter steps pass, and then the
    wait for the submission control times out, the call records the
    identifier in the ledger, counts one application and returns [True],
    provided the ledger file is written and the browser gets back to the
    return location; the object is left exactly as when the submission
    control is found and clicked. Spelled out: the ledger is the ledger
    of before with the identifier added, the application counter is one
    higher, and the other two counters and the configuration are as
    before. *)
Theorem applied_without_confirmation vacancy_url search_page_url (s : State B)
    b1 u1 b2 apply_button b3 b4 b5 u2 b6 b7 b8 b9 b10 b11 :
  PyStr.truthy search_page_url = true ->
  ~ ledger_skip vacancy_url (self s) ->
  driver_get vacancy_url (world s) = (Ok tt, b1) ->
  driver_current_url b1 = (Ok u1, b2) -> is_response_form u1 = false ->
  find_apply_button apply_selectors (set_world s b2)
    = (Ok (Some apply_button), set_world s b3) ->
  driver_execute_script scroll_to_button apply_button b3 = (Ok tt, b4) ->
  element_click apply_button b4 = (Ok tt, b5) ->
  driver_current_url b5 = (Ok u2, b6) -> is_response_form u2 = false ->
  dismiss_cookies_banner (set_world s b6) = (Ok tt, set_world s b7) ->
  fill_cover_letter (set_world s b7) = (Ok tt, set_world s b8) ->
  (wait_until 10 presence_of_element_located submit_selector b8
     = (Raise TimeoutException, b9)
   \/ exists submit_button c1 c2,
        wait_until 10 presence_of_element_located submit_selector b8
          = (Ok submit_button, c1) /\
        driver_execute_script scroll_to_center submit_button c1 = (Ok tt, c2) /\
        element_click submit_button c2 = (Ok tt, b9)) ->
  file_append "applied_vacancies.txt" (vacancy_id_of vacancy_url +:+ newline) b9
    = (Ok tt, b10) ->
  driver_get search_page_url b10 = (Ok tt, b11) ->
  let out := _apply_to_vacancy vacancy_url (Some search_page_url) s in
  out =
    (Ok true,
     {| self := incr_applied (add_applied (vacancy_id_of vacancy_url) (self s));
        world := b11; calls := calls s |}) /\
  vacancy_id_of vacancy_url ∈ applied_vacancies (self out.2) /\
  applied_vacancies (self out.2)
    = {[ vacancy_id_of vacancy_url ]} ∪ applied_vacancies (self s) /\
  applied_count (self out.2) = applied_count (self s) + 1 /\
  skipped_count (self out.2) = skipped_count (self s) /\
  error_count (self out.2) = error_count (self s) /\
  config (self out.2) = config (self s).
Proof.
  intros Hspu Hcond%not_ledger_skip H1 H2 Hu1 H3 H4 H5 H6 Hu2 H7 H8 H9 H10 H11 out.
  assert (Hout : out =
    (Ok true,
     {| self := incr_applied (add_applied (vacancy_id_of vacancy_url) (self s));
        world := b11; calls := calls s |})); [subst out|].
  2: { rewrite Hout. cbn. split; [reflexivity|].
       split; [apply ledger_has|]. repeat split. }
  destruct s as [o b0 c]. unfold set_world in *. cbn [self world calls] in *.
  unfold _apply_to_vacancy. rewrite Hspu.
  unfold_apply.
  repeat first
    [ progress cbn [self world calls]
    | rewrite Hcond | rewrite H1 | rewrite H2 | rewrite Hu1 | rewrite H3
    | rewrite H4 | rewrite H5 | rewrite H6 | rewrite Hu2 | rewrite H7 | rewrite H8 ].
  destruct H9 as [H9|(sb & c1 & c2 & H9 & H9a & H9b)];
    repeat first
      [ progress cbn [self world calls]
      | rewrite H9 | rewrite H9a | rewrite H9b | rewrite H10 | rewrite H11 ];
    reflexivity.
Qed.

(** C9. The identifier the method derives from a listing URL is the text
    after the last '/' of the URL, cut before its first '?'; for a URL that
    ends in '/' it is the empty string. That identifier is the one added to
    the ledger (the ledger is left as it was or gains exactly it), and the
    one looked up: with skipping enabled and the identifier in the ledger
    the call is a skip that asks nothing of the browser, and otherwise the
    call opens the listing, so that a failure to open it is counted as an
    error. *)
Theorem listing_identifier_is_last_segment vacancy_url search_page_url (s : State B) :
  vacancy_id_of vacancy_url = listing_identifier_spec vacancy_url /\
  vacancy_id_of (vacancy_url +:+ "/") = EmptyString /\
  (let o' := self (_apply_to_vacancy vacancy_url search_page_url s).2 in
   applied_vacancies o' = applied_vacancies (self s) \/
   applied_vacancies o' =
     {[ listing_identifier_spec vacancy_url ]} ∪ applied_vacancies (self s)) /\
  (forall return_url,
     search_page_url = Some return_url -> PyStr.truthy return_url = true ->
     let looked_up :=
       skip_already_applied (application_settings (config (self s))) = true /\
       listing_identifier_spec vacancy_url ∈ applied_vacancies (self s) in
     (looked_up ->
      _apply_to_vacancy vacancy_url search_page_url s =
        (Ok false,
         {| self := incr_skipped (self s); world := world s; calls := calls s |})) /\
     (~ looked_up ->
      forall e b1, driver_get vacancy_url (world s) = (Raise e, b1) ->
        (_apply_to_vacancy vacancy_url search_page_url s).1 = Ok false /\
        self (_apply_to_vacancy vacancy_url search_page_url s).2 = incr_error (self s))).
Proof.
  split; [apply vacancy_id_of_spec|].
  split; [rewrite vacancy_id_of_spec; unfold listing_identifier_spec;
          by rewrite after_last_app_sep|].
  split; [rewrite <- vacancy_id_of_spec; apply apply_ledger|].
  intros return_url -> Hspu looked_up. unfold looked_up.
  rewrite <- vacancy_id_of_spec. split.
  - intros Hl. by apply apply_skip_eq.
  - intros Hn e b1 H1. by eapply apply_open_fails.
Qed.

(** Without a return location the method reads the browser's location
    before anything else; a listing in the ledger is then skipped in the
    same way, unless that read raises, which the method lets through. *)
Lemma apply_skip_without_return_location vacancy_url (s : State B) :
  ledger_skip vacancy_url (self s) ->
  _apply_to_vacancy vacancy_url None s =
    match driver_current_url (world s) with
    | (Ok _, b) =>
        (Ok false, {| self := incr_skipped (self s); world := b; calls := calls s |})
    | (Raise e, b) => (Raise e, {| self := self s; world := b; calls := calls s |})
    end.
Proof.
  intros [Hskip Hin]. unfold_apply. cbn [self world calls].
  destruct (driver_current_url (world s)) as [[u|e] b]; cbn [self world calls];
    [|reflexivity].
  rewrite Hskip, bool_decide_eq_true_2 by done. reflexivity.
Qed.

End Apply.

(** ** [run] *)

Lemma applied_calls_app c1 c2 :
  applied_calls (c1 ++ c2) = applied_calls c1 + applied_calls c2.
Proof. induction c1 as [|[u []] c1 IH]; simpl; lia. Qed.

Section Run.
Context {B : Type} `{WebDriver B}.

Lemma build_search_url_pure keyword (s : State B) :
  (_build_search_url keyword s).2 = s.
Proof. by rewrite build_search_url_eq. Qed.

(** The delay returns or raises, and leaves the state as it was. *)
Lemma human_like_delay_state (s : State B) :
  exists r, _human_like_delay s = (r, s).
Proof.
  unfold _human_like_delay, mbind, M_bind, bind, get_self, raise, ret.
  destruct (delay_between_applications _) as [[q|]|]; [|by eexists..].
  destruct (Qnum q <? 0); by eexists.
Qed.

Section Quota.
Variables max_applications base : Z.

Let ok (applications_today : Z) (s : State B) : Prop :=
  within_quota max_applications base applications_today s.

Lemma within_quota_world applications_today (s : State B) b :
  ok applications_today s -> ok applications_today (set_world s b).
Proof. by intros [? ?]. Qed.

(** The loop over the listings of a page keeps [applications_today]
    within the quota and equal to the number of calls that returned
    [True], also when it is left by an exception. *)
Lemma listings_loop_quota current_search_url vacancy_links applications_today
    (s : State B) :
  ok applications_today s ->
  match listings_loop max_applications current_search_url vacancy_links
          applications_today s with
  | (Ok applications_today', s') => ok applications_today' s'
  | (Raise _, s') => exists applications_today', ok applications_today' s'
  end.
Proof.
  revert applications_today s.
  induction vacancy_links as [|vacancy_url rest IH]; intros at_ s Hok;
    cbn [listings_loop].
  - exact Hok.
  - destruct (Z.geb_spec at_ max_applications) as [Hge|Hlt]; [exact Hok|].
    unfold mbind, M_bind, bind at 1.
    pose proof (apply_calls_kept vacancy_url (Some current_search_url) s) as Hc.
    destruct (_apply_to_vacancy vacancy_url (Some current_search_url) s)
      as [[applied|e] s1]; cbn [snd] in Hc.
    + unfold bind at 1, note_call. unfold bind at 1.
      match goal with |- context [_human_like_delay ?st] =>
        destruct (human_like_delay_state st) as [r ->] end.
      assert (Hnext : ok (if applied then at_ + 1 else at_)
                {| self := self s1; world := world s1;
                   calls := calls s1 ++ [(vacancy_url, applied)] |}).
      { destruct Hok as [Hb Heq]. split.
        * destruct applied; lia.
        * cbn [calls]. rewrite applied_calls_app, Hc, Heq. cbn [applied_calls].
          destruct applied; lia. }
      destruct r as [[]|e]; [by apply IH|by eexists].
    + exists at_. destruct Hok as [Hb Heq]. split; [done|]. by rewrite Hc.
Qed.

Lemma pages_loop_quota fuel applications_today (s : State B) :
  ok applications_today s ->
  match pages_loop fuel max_applications applications_today s with
  | (Ok r, s') => ok r.1 s'
  | (Raise _, s') => exists applications_today', ok applications_today' s'
  end.
Proof.
  revert applications_today s.
  induction fuel as [|fuel IH]; intros at_ s Hok; cbn [pages_loop].
  - destruct (at_ <? max_applications); exact Hok.
  - destruct (at_ <? max_applications); [|exact Hok].
    unfold mbind, M_bind, bind at 1.
    destruct (world_only_get_vacancy_links s) as (r & b1 & ->).
    apply (within_quota_world _ _ b1) in Hok.
    destruct r as [[|link links]|e]; [exact Hok| |by exists at_].
    unfold bind at 1.
    destruct (world_only_call driver_current_url (set_world s b1)) as (r & b2 & ->).
    apply (within_quota_world _ _ b2) in Hok.
    destruct r as [current_search_url|e]; [|by exists at_].
    unfold bind at 1.
    pose proof (listings_loop_quota current_search_url (link :: links) at_ _ Hok) as Hl.
    destruct (listings_loop max_applications current_search_url (link :: links) at_ _)
      as [[at1|e] s1]; [|exact Hl].
    destruct (at1 >=? max_applications); [exact Hl|].
    unfold bind at 1.
    destruct (world_only_next_page current_search_url s1) as (r & b3 & ->).
    apply (within_quota_world _ _ b3) in Hl.
    destruct r as [[|]|e]; [by apply IH|exact Hl|by exists at1].
Qed.

Lemma keywords_loop_quota fuel keywords applications_today (s : State B) :
  ok applications_today s ->
  match keywords_loop fuel max_applications keywords applications_today s with
  | (Ok r, s') => ok r.1 s'
  | (Raise _, s') => exists applications_today', ok applications_today' s'
  end.
Proof.
  revert applications_today s.
  induction keywords as [|keyword rest IH]; intros at_ s Hok; cbn [keywords_loop].
  - exact Hok.
  - destruct (at_ >=? max_applications); [exact Hok|].
    unfold mbind, M_bind, bind at 1.
    pose proof (build_search_url_pure (Some keyword) s) as Hp.
    destruct (_build_search_url (Some keyword) s) as [[search_url|e] s0];
      cbn [snd] in Hp; subst s0; [|by exists at_].
    unfold bind at 1.
    destruct (world_only_call (driver_get search_url) s) as (r & b1 & ->).
    apply (within_quota_world _ _ b1) in Hok.
    destruct r as [[]|e]; [|by exists at_].
    unfold bind at 1.
    pose proof (pages_loop_quota fuel at_ _ Hok) as Hl.
    destruct (pages_loop fuel max_applications at_ _) as [[[at1 fin]|e] s1];
      [|exact Hl].
    cbn [fst snd] in *.
    destruct fin; cbn [negb]; [|exact Hl].
    destruct (at1 >=? max_applications); [exact Hl|]. by apply IH.
Qed.

End Quota.

Lemma run_body_quota fuel (s : State B) :
  exists applications_today,
    within_quota (max_applications_per_day (application_settings (config (self s))))
      (applied_calls (calls s)) applications_today (run_body fuel s).2.
Proof.
  destruct s as [o b0 c].
  assert (Hstart : forall (b : B) o', within_quota
            (max_applications_per_day (application_settings (config o)))
            (applied_calls c) 0 {| self := o'; world := b; calls := c |}).
  { intros b o'. split; [lia|]. cbn [calls]. lia. }
  unfold run_body, _setup_driver, mbind, M_bind.
  unfold bind at 1 2. unfold call at 1, modify_self. cbn [self world calls].
  destruct (chrome_start b0) as [[[]|e] b1]; [|exists 0; apply Hstart].
  cbn [self world calls]. unfold bind at 1. unfold call at 1. cbn [self world calls].
  destruct (chrome_configure b1) as [[[]|e] b2]; [|exists 0; apply Hstart].
  unfold bind at 1. unfold call at 1. cbn [self world calls].
  destruct (login_session b2) as [[logged_in|e] b3]; [|exists 0; apply Hstart].
  destruct logged_in; cbn [negb]; [|exists 0; apply Hstart].
  unfold bind at 1, get_self. cbn [self world calls config set_driver].
  destruct (keywords (search_filters (config o))) as [[|keyword rest]|];
    [exists 0; apply Hstart| |exists 0; apply Hstart].
  unfold bind at 1.
  pose proof (keywords_loop_quota _ _ fuel (keyword :: rest) 0 _
                (Hstart b3 (set_driver o))) as Hl.
  destruct (keywords_loop fuel _ (keyword :: rest) 0 _) as [[r|e] s1]; [|exact Hl].
  by exists r.1.
Qed.

(** C2, as the code has it. In every run, however far the page loops are
    followed ([fuel] pages per keyword, for every [fuel]) and however the
    run ends, the number of calls to [_apply_to_vacancy] that returned
    [True] is at most the configured [max_applications_per_day], or zero
    when that is negative. The calls that end in an error or a skip return
    [False] and do not count against the quota. *)
Theorem run_applied_within_quota fuel (s : State B) :
  applied_calls (calls (run fuel s).2) <=
  applied_calls (calls s) +
  Z.max 0 (max_applications_per_day (application_settings (config (self s)))).
Proof.
  destruct (run_body_quota fuel s) as (n & Hb & Heq).
  unfold run, try_finally, try_except, except_Exception.
  destruct (run_body fuel s) as [r s1]. cbn [snd] in *.
  assert (Hq : forall r' : Res bool,
    applied_calls (calls
      (match (o ← get_self; if driver o then call driver_quit else ret tt) s1 with
       | (Ok _, s2) => (r', s2)
       | (Raise e, s2) => (Raise e, s2)
       end).2) = applied_calls (calls s1)).
  { intros r'. unfold mbind, M_bind, bind, get_self, call, ret.
    destruct (driver (self s1)); [|done].
    by destruct (driver_quit (world s1)) as [[[]|e] b]. }
  destruct r as [a|e]; cbn [ret]; rewrite Hq, Heq; lia.
Qed.

End Run.

(** ** The scenarios *)

Import Scenario.

(** On the scripted browser a navigation that returns shows the URL asked
    for. *)
Lemma scripted_navigation_lands url (b b' : Scripted.browser) :
  driver_get url b = (Ok tt, b') -> location b' = url.
Proof.
  cbn. unfold Scripted.navigate, Scripted.next.
  destruct (Scripted.script b) as [|[] rest]; intros [= <-]; reflexivity.
Qed.

(** C1 as stated fails. A listing that is in the ledger is skipped with the
    browser left where it was, here on another listing; and when the call
    fails after opening the listing and the navigation back fails too, the
    browser, which was on the search page, is left on the listing. *)
Lemma apply_can_end_elsewhere :
  (let out := _apply_to_vacancy listing (Some search_page) known_listing in
   out.1 = Ok false /\
   location (world out.2) = "https://hh.ru/vacancy/999" /\
   location (world out.2) <> search_page) /\
  (let out := _apply_to_vacancy listing (Some search_page) stranded in
   location (world stranded) = search_page /\
   out.1 = Ok false /\ error_count (self out.2) = 1 /\
   location (world out.2) = listing /\
   location (world out.2) <> search_page).
Proof. vm_compute. repeat split; discriminate. Qed.

(** C2 as stated fails: with a quota of one, the run goes through both
    listings of the page, and both attempts end in an error. *)
Lemma run_errors_exceed_quota :
  let out := run 5 two_broken_listings in
  max_applications_per_day (application_settings (config (self two_broken_listings))) = 1 /\
  out.1 = Ok true /\
  calls out.2 = [("https://hh.ru/vacancy/1", false); ("https://hh.ru/vacancy/2", false)] /\
  error_count (self out.2) = 2 /\
  applied_count (self out.2) = 0 /\ skipped_count (self out.2) = 0.
Proof. vm_compute. repeat split. Qed.

(** The quota at work: of two listings that would both take the
    application, the run applies to the first and stops. *)
Example run_stops_at_quota :
  let out := run 5 two_open_listings in
  out.1 = Ok true /\
  calls out.2 = [("https://hh.ru/vacancy/1", true)] /\
  applied_count (self out.2) = 1 /\ Scripted.script (world out.2) = [].
Proof. vm_compute. repeat split. Qed.

(** C3 as stated fails: with skipping disabled the second call on the
    listing applies again, and the identifier is in the ledger file
    twice. *)
Lemma applied_twice_when_skip_disabled :
  let out := apply_times 2 listing (Some search_page)
               (fresh false (confirmed ++ confirmed)) in
  out.1 = Ok [true; true] /\
  applied_count (self out.2) = 2 /\ skipped_count (self out.2) = 0 /\
  Scripted.ledger_file (world out.2) = ["123" +:+ newline; "123" +:+ newline].
Proof. vm_compute. repeat split. Qed.

(** C3 as amended, on a first call that applies and three more calls. *)
Lemma applied_then_skipped_witness :
  vacancy_id_of listing ∈ applied_vacancies (self applied_once) /\
  apply_times 3 listing (Some search_page) applied_once =
    (Ok [false; false; false],
     {| self := add_skipped 3 (self applied_once);
        world := world applied_once; calls := calls applied_once |}).
Proof.
  apply (applied_then_skipped 3 listing search_page (fresh true confirmed) applied_once).
  - reflexivity.
  - reflexivity.
  - vm_compute. reflexivity.
Defined.

(** C4 on a listing that is in the ledger. *)
Lemma known_listing_is_skipped_without_navigation_witness :
  _apply_to_vacancy listing (Some search_page) known_listing =
    (Ok false,
     {| self := incr_skipped (self known_listing);
        world := world known_listing; calls := calls known_listing |}).
Proof.
  apply (known_listing_is_skipped_without_navigation listing search_page known_listing).
  - reflexivity.
  - reflexivity.
  - vm_compute. reflexivity.
Defined.

(** C5 on a listing whose submission control never shows up. *)
Lemma applied_without_confirmation_witness :
  let out := _apply_to_vacancy listing (Some search_page) (fresh true unconfirmed) in
  out =
    (Ok true,
     {| self := incr_applied (add_applied (vacancy_id_of listing)
                                (self (fresh true unconfirmed)));
        world := later 11 search_page ["123" +:+ newline];
        calls := [] |}) /\
  vacancy_id_of listing ∈ applied_vacancies (self out.2) /\
  applied_vacancies (self out.2)
    = {[ vacancy_id_of listing ]} ∪ applied_vacancies (self (fresh true unconfirmed)) /\
  applied_count (self out.2) = applied_count (self (fresh true unconfirmed)) + 1 /\
  skipped_count (self out.2) = skipped_count (self (fresh true unconfirmed)) /\
  error_count (self out.2) = error_count (self (fresh true unconfirmed)) /\
  config (self out.2) = config (self (fresh true unconfirmed)).
Proof.
  apply (applied_without_confirmation listing search_page (fresh true unconfirmed)
           (later 1 listing []) listing (later 2 listing []) 1%nat
           (later 3 listing []) (later 4 listing []) (later 5 listing [])
           listing (later 6 listing []) (later 7 listing []) (later 8 listing [])
           (later 9 listing []) (later 10 listing ["123" +:+ newline])
           (later 11 search_page ["123" +:+ newline])).
  - reflexivity.
  - intros [_ Hin]. exact (not_elem_of_empty (C:=gset string) _ Hin).
  - reflexivity.
  - reflexivity.
  - reflexivity.
  - reflexivity.
  - reflexivity.
  - reflexivity.
  - reflexivity.
  - reflexivity.
  - reflexivity.
  - reflexivity.
  - left. reflexivity.
  - reflexivity.
  - reflexivity.
Defined.

(** C9 on a listing that is in the ledger under the last segment of its
    URL. *)
Lemma listing_identifier_is_last_segment_witness :
  vacancy_id_of (listing +:+ "/") = EmptyString /\
  _apply_to_vacancy listing (Some search_page) known_listing =
    (Ok false,
     {| self := incr_skipped (self known_listing);
        world := world known_listing; calls := calls known_listing |}).
Proof.
  destruct (listing_identifier_is_last_segment listing (Some search_page) known_listing)
    as (_ & Hslash & _ & Hlookup).
  split; [exact Hslash|].
  apply (Hlookup search_page eq_refl eq_refl).
  split; [reflexivity|]. vm_compute. reflexivity.
Defined.

(** The empty identifier of a URL that ends in '/' is added to the ledger
    like any other. *)
Example trailing_slash_identifier_is_recorded :
  let out := _apply_to_vacancy "https://hh.ru/vacancy/" (Some search_page)
               (fresh true already_applied_page) in
  out.1 = Ok false /\ skipped_count (self out.2) = 1 /\
  applied_vacancies (self out.2) = {[ EmptyString ]} /\
  Scripted.ledger_file (world out.2) = [newline].
Proof. vm_compute. repeat split. Qed.

(** C10 as stated fails: the listing opens on the response form and is
    counted as skipped, the navigation back raises, and the exception
    handler counts an error as well. *)
Lemma apply_counts_twice :
  let out := _apply_to_vacancy listing (Some search_page) form_then_failure in
  out.1 = Ok false /\
  applied_count (self out.2) = 0 /\
  skipped_count (self out.2) = 1 /\
  error_count (self out.2) = 1.
Proof. vm_compute. repeat split. Qed.

(** A page load that times out on the way back from a confirmed application
    is taken for a submission control that did not show up: the identifier
    is written to the ledger file a second time and the application is
    counted twice. *)
Example slow_return_is_counted_twice :
  let out := _apply_to_vacancy listing (Some search_page) (fresh true slow_return) in
  out.1 = Ok true /\
  applied_count (self out.2) = 2 /\ error_count (self out.2) = 0 /\
  Scripted.ledger_file (world out.2) = ["123" +:+ newline; "123" +:+ newline].
Proof. vm_compute. repeat split. Qed.

(** * Further properties *)

(** ** The search URL: what the site can read back *)

Lemma always_safe_literal c :
  Urllib.always_safe c = true -> Ascii.eqb c "+" = false /\ Ascii.eqb c "%" = false.
Proof.
  destruct c as [[] [] [] [] [] [] [] []]; vm_compute; intros; (discriminate || tauto).
Qed.

Lemma hex_value_hex_digit c :
  let n := N_of_ascii c in
  hex_value (Urllib.hex_digit (n / 16)) = Some (n / 16)%N /\
  hex_value (Urllib.hex_digit (n mod 16)) = Some (n mod 16)%N /\
  ascii_of_N (16 * (n / 16) + n mod 16) = c.
Proof.
  destruct c as [[] [] [] [] [] [] [] []]; vm_compute; tauto.
Qed.

Lemma unquote_plus_quote_byte c r :
  unquote_plus (Urllib.quote_byte c +:+ r) = String c (unquote_plus r).
Proof.
  unfold Urllib.quote_byte.
  destruct (Urllib.always_safe c) eqn:Hs.
  - apply always_safe_literal in Hs as [Hp Hq].
    cbn [String.append unquote_plus]. by rewrite Hp, Hq.
  - destruct (Ascii.eqb_spec c " ") as [->|Hsp]; [reflexivity|].
    destruct (hex_value_hex_digit c) as (Hh & Hl & Hc).
    cbn [String.append unquote_plus].
    change (Ascii.eqb "%" "+") with false. change (Ascii.eqb "%" "%") with true.
    cbv iota. rewrite Hh, Hl, Hc. reflexivity.
Qed.

Lemma unquote_plus_quote_plus s : unquote_plus (Urllib.quote_plus s) = s.
Proof.
  induction s as [|c s IH]; [reflexivity|].
  cbn [Urllib.quote_plus]. rewrite unquote_plus_quote_byte. by rewrite IH.
Qed.

Lemma all_chars_app p s t :
  all_chars p (s +:+ t) = all_chars p s && all_chars p t.
Proof.
  induction s as [|c s IH]; simpl; [reflexivity|].
  by rewrite IH, andb_assoc.
Qed.

Lemma url_chars_quote_byte c : all_chars url_char (Urllib.quote_byte c) = true.
Proof.
  destruct c as [[] [] [] [] [] [] [] []]; vm_compute; reflexivity.
Qed.

Lemma url_chars_quote_plus s : all_chars url_char (Urllib.quote_plus s) = true.
Proof.
  induction s as [|c s IH]; [reflexivity|].
  cbn [Urllib.quote_plus]. by rewrite all_chars_app, url_chars_quote_byte, IH.
Qed.

Lemma url_chars_encode_pair kv : all_chars url_char (Urllib.encode_pair kv) = true.
Proof.
  unfold Urllib.encode_pair.
  rewrite !all_chars_app, !url_chars_quote_plus. reflexivity.
Qed.

Lemma url_chars_urlencode d : all_chars url_char (Urllib.urlencode d) = true.
Proof.
  unfold Urllib.urlencode.
  induction d as [|kv [|kv' d] IH]; [reflexivity| |].
  - apply url_chars_encode_pair.
  - change (all_chars url_char
              (Urllib.encode_pair kv +:+ "&" +:+
               Urllib.join_amp (map Urllib.encode_pair (kv' :: d))) = true).
    rewrite !all_chars_app, IH, url_chars_encode_pair. reflexivity.
Qed.

(** The keys of a dict, in insertion order. *)
Lemma keys_dict_set k v d :
  k ∉ map fst d -> Urllib.dict_set k v d = d ++ [(k, v)].
Proof.
  induction d as [|[k0 v0] d IH]; [reflexivity|]. cbn. intros Hk.
  destruct (String.eqb_spec k k0) as [->|Hne].
  - exfalso. apply Hk. constructor.
  - rewrite IH; [reflexivity|]. intros Hin. apply Hk. by constructor.
Qed.

Lemma keys_params_text keyword filters :
  sublist (map fst (params_text keyword filters [])) ["text"].
Proof.
  unfold params_text. repeat case_match; cbn; repeat constructor.
Qed.

Lemma keys_params_salary filters d pre :
  sublist (map fst d) pre -> "salary" ∉ pre ->
  sublist (map fst (params_salary filters d)) (pre ++ ["salary"]).
Proof.
  intros Hd Hk. unfold params_salary.
  assert ("salary" ∉ map fst d) by (intros Hin; apply Hk; by eapply elem_of_sublist).
  repeat case_match; rewrite ?keys_dict_set, ?map_app by done; cbn.
  all: try (by apply sublist_inserts_r).
  by apply sublist_app.
Qed.

Lemma keys_params_area filters d pre :
  sublist (map fst d) pre -> "area" ∉ pre ->
  sublist (map fst (params_area filters d)) (pre ++ ["area"]).
Proof.
  intros Hd Hk. unfold params_area.
  assert ("area" ∉ map fst d) by (intros Hin; apply Hk; by eapply elem_of_sublist).
  repeat case_match; rewrite ?keys_dict_set, ?map_app by done; cbn.
  all: try (by apply sublist_inserts_r).
  by apply sublist_app.
Qed.

Lemma keys_params_enum key table value d pre :
  sublist (map fst d) pre -> key ∉ pre ->
  sublist (map fst (params_enum key table value d)) (pre ++ [key]).
Proof.
  intros Hd Hk. unfold params_enum.
  assert (key ∉ map fst d) by (intros Hin; apply Hk; by eapply elem_of_sublist).
  repeat case_match; rewrite ?keys_dict_set, ?map_app by done; cbn.
  all: try (by apply sublist_inserts_r).
  by apply sublist_app.
Qed.

Ltac not_among :=
  let Hin := fresh "Hin" in
  cbn; intros Hin;
  repeat (apply elem_of_cons in Hin as [Hin|Hin]; [discriminate Hin|]);
  by apply elem_of_nil in Hin.

Lemma keys_build_params keyword filters :
  sublist (map fst (build_params keyword filters)) param_keys.
Proof.
  unfold build_params.
  change param_keys with
    (((((["text"] ++ ["salary"]) ++ ["area"]) ++ ["experience"]) ++ ["employment"])
       ++ ["schedule"]).
  apply keys_params_enum; [|not_among].
  apply keys_params_enum; [|not_among].
  apply keys_params_enum; [|not_among].
  apply keys_params_area; [|not_among].
  apply keys_params_salary; [|not_among].
  apply keys_params_text.
Qed.

Lemma param_keys_plain k : In k param_keys -> Urllib.quote_plus k = k.
Proof.
  cbn. intros [<-|[<-|[<-|[<-|[<-|[<-|[]]]]]]]; reflexivity.
Qed.

Lemma sublist_In {A} (l1 l2 : list A) x : sublist l1 l2 -> In x l1 -> In x l2.
Proof.
  intros Hs Hin. apply list_elem_of_In. eapply elem_of_sublist; [|done].
  by apply list_elem_of_In.
Qed.

Lemma quoted_keys keyword filters :
  map (fun kv : string * string => Urllib.quote_plus kv.1) (build_params keyword filters)
  = map fst (build_params keyword filters).
Proof.
  apply map_ext_in. intros [k v] Hin. cbn.
  apply param_keys_plain.
  eapply sublist_In; [apply keys_build_params|].
  apply in_map_iff. by exists (k, v).
Qed.

(** A value the table knows is mapped to itself, and only such a value is
    mapped to something truthy. *)
Lemma enum_table_known table x :
  table = exp_map \/ table = employment_map \/ table = schedule_map ->
  PyStr.truthy (Urllib.dict_get x table EmptyString) = true ->
  In x (map fst table) /\ Urllib.dict_get x table EmptyString = x /\
  Urllib.quote_plus x = x.
Proof.
  intros [->|[->| ->]]; cbn.
  all: repeat match goal with
       | |- context [String.eqb ?y ?k] =>
           is_var y;
           destruct (String.eqb_spec y k) as [->|?]; [intros _; vm_compute; tauto|]
       end.
  all: discriminate.
Qed.

Lemma enum_table_maps table x :
  table = exp_map \/ table = employment_map \/ table = schedule_map ->
  In x (map fst table) ->
  PyStr.truthy x = true /\ Urllib.dict_get x table EmptyString = x.
Proof.
  intros [->|[->| ->]]; cbn.
  all: intuition (subst; done).
Qed.

Section SearchUrlMore.
Context {B : Type} `{WebDriver B}.

Lemma build_search_url_query keyword (s : State B) url :
  (_build_search_url keyword s).1 = Ok url ->
  let query := Urllib.urlencode (build_params keyword (search_filters (config (self s)))) in
  url = "https://hh.ru/search/vacancy?" +:+ query /\ query_of url = query.
Proof.
  rewrite build_search_url_eq. cbn [fst].
  destruct (log_keyword_raises _ _); [discriminate|]. intros [= <-].
  split; reflexivity.
Qed.

(** The query string of the URL decodes to the parameters the method set:
    nothing is lost or merged by the encoding. *)
Theorem search_url_decodes_to_its_parameters keyword (s : State B) url :
  (_build_search_url keyword s).1 = Ok url ->
  map (fun kv : string * string => (unquote_plus kv.1, unquote_plus kv.2))
      (parse_query (query_of url))
  = build_params keyword (search_filters (config (self s))).
Proof.
  intros [_ ->]%build_search_url_query.
  rewrite parse_query_urlencode, map_map.
  rewrite <- (map_id (build_params _ _)) at 2.
  apply map_ext. intros [k v]. cbn. by rewrite !unquote_plus_quote_plus.
Qed.

(** The URL is the fixed address, a question mark and a query string made
    of letters, digits and [_ . - ~ + % = &] only, whatever the keyword
    and the filters hold. *)
Theorem search_url_has_only_url_characters keyword (s : State B) url :
  (_build_search_url keyword s).1 = Ok url ->
  exists query,
    url = "https://hh.ru/search/vacancy?" +:+ query /\
    all_chars url_char query = true.
Proof.
  intros [-> _]%build_search_url_query.
  eexists. split; [reflexivity|]. apply url_chars_urlencode.
Qed.

(** The parameters come in the order text, salary, area, experience,
    employment, schedule, each at most once. *)
Theorem search_url_parameters_in_fixed_order keyword (s : State B) url :
  (_build_search_url keyword s).1 = Ok url ->
  sublist (map fst (parse_query (query_of url))) param_keys.
Proof.
  intros [_ ->]%build_search_url_query.
  rewrite parse_query_urlencode, map_map. cbn [fst].
  rewrite quoted_keys. apply keys_build_params.
Qed.

(** Experience, employment and schedule are sent exactly when the
    configured value is one of those the tables list, and then as
    configured. *)
Theorem search_url_sends_known_values_as_configured keyword (s : State B) url :
  (_build_search_url keyword s).1 = Ok url ->
  let filters := search_filters (config (self s)) in
  let params := parse_query (query_of url) in
  forall v,
    (In ("experience", v) params <->
       experience filters = Some v /\ In v (map fst exp_map)) /\
    (In ("employment", v) params <->
       employment filters = Some v /\ In v (map fst employment_map)) /\
    (In ("schedule", v) params <->
       schedule filters = Some v /\ In v (map fst schedule_map)).
Proof.
  intros Hurl filters params v.
  pose proof (build_search_url_params keyword s url Hurl) as Hp.
  fold filters params in Hp.
  split; [|split].
  - rewrite Hp. split.
    + intros (v0 & Ho & ->). inversion Ho as [| | | |x Hx Ht Hm| |]; subst.
      apply enum_table_known in Hm as (Hin & -> & ->); [done|tauto].
    + intros [Hx Hin]. apply enum_table_maps in Hin as Hk; [|tauto].
      destruct Hk as [Ht Hm]. exists v. split.
      * pose proof (from_experience keyword filters v Hx Ht) as Ho.
        rewrite Hm in Ho. by apply Ho.
      * symmetry. apply (enum_table_known exp_map v); [tauto|by rewrite Hm].
  - rewrite Hp. split.
    + intros (v0 & Ho & ->). inversion Ho as [| | | | |x Hx Ht Hm|]; subst.
      apply enum_table_known in Hm as (Hin & -> & ->); [done|tauto].
    + intros [Hx Hin]. apply enum_table_maps in Hin as Hk; [|tauto].
      destruct Hk as [Ht Hm]. exists v. split.
      * pose proof (from_employment keyword filters v Hx Ht) as Ho.
        rewrite Hm in Ho. by apply Ho.
      * symmetry. apply (enum_table_known employment_map v); [tauto|by rewrite Hm].
  - rewrite Hp. split.
    + intros (v0 & Ho & ->). inversion Ho as [| | | | | |x Hx Ht Hm]; subst.
      apply enum_table_known in Hm as (Hin & -> & ->); [done|tauto].
    + intros [Hx Hin]. apply enum_table_maps in Hin as Hk; [|tauto].
      destruct Hk as [Ht Hm]. exists v. split.
      * pose proof (from_schedule keyword filters v Hx Ht) as Ho.
        rewrite Hm in Ho. by apply Ho.
      * symmetry. apply (enum_table_known schedule_map v); [tauto|by rewrite Hm].
Qed.

(** For every keyword of the configured list, the keywords being text
    that has an encoding (no lone surrogate, which [urlencode] refuses
    with [UnicodeEncodeError], line 945), the method returns a URL and
    does not raise; the text searched for is the keyword, or, for a
    keyword that is the empty string, the first keyword of the list. *)
Theorem search_url_of_configured_keyword keyword (s : State B) configured :
  keywords (search_filters (config (self s))) = Some configured ->
  Forall (fun k => PyText.encodable k = true) configured ->
  In keyword configured ->
  exists url,
    _build_search_url (Some keyword) s = (Ok url, s) /\
    In ("text",
        Urllib.quote_plus
          (if PyStr.truthy keyword then keyword else hd EmptyString configured))
       (parse_query (query_of url)).
Proof.
  intros Hks _ Hin.
  assert (Hlog : log_keyword_raises (Some keyword)
                   (search_filters (config (self s))) = false).
  { unfold log_keyword_raises. rewrite Hks.
    destruct configured; [destruct Hin|]. apply andb_false_r. }
  eexists. split.
  { rewrite build_search_url_eq, Hlog. reflexivity. }
  change (query_of _) with
    (Urllib.urlencode (build_params (Some keyword) (search_filters (config (self s))))).
  apply query_params. eexists. split; [|reflexivity].
  destruct (PyStr.truthy keyword) eqn:Ht.
  - by apply from_keyword.
  - destruct configured as [|first rest]; [destruct Hin|]. cbn [hd].
    by eapply from_keywords.
Qed.

End SearchUrlMore.

(** ** The ledger file between runs *)

Lemma rev_onto_app s t acc :
  PyText.rev_onto (s +:+ t) acc = PyText.rev_onto t (PyText.rev_onto s acc).
Proof. revert acc. induction s as [|c s IH]; intros acc; simpl; [done|apply IH]. Qed.

Lemma rev_onto_rev_onto s acc t :
  PyText.rev_onto (PyText.rev_onto s acc) t = PyText.rev_onto acc (s +:+ t).
Proof.
  revert acc t. induction s as [|c s IH]; intros acc t; simpl; [done|].
  by rewrite IH.
Qed.

Lemma append_empty_r s : s +:+ EmptyString = s.
Proof. induction s as [|c s IH]; simpl; [done|by rewrite IH]. Qed.

Lemma rev_rev s : PyText.rev (PyText.rev s) = s.
Proof.
  unfold PyText.rev. rewrite rev_onto_rev_onto. simpl. apply append_empty_r.
Qed.

Lemma rev_line s : PyText.rev (s +:+ newline) = String "010" (PyText.rev s).
Proof. unfold PyText.rev. by rewrite rev_onto_app. Qed.

(** The newline that ends a line is stripped with it. *)
Lemma strip_line s : PyText.strip (s +:+ newline) = PyText.strip s.
Proof. unfold PyText.strip, PyText.rstrip. by rewrite rev_line. Qed.

Lemma readlines_line id rest :
  ~ PyStr.has_char "010" id ->
  PyText.readlines (id +:+ newline +:+ rest) = (id +:+ newline) :: PyText.readlines rest.
Proof.
  induction id as [|c id IH]; intros Hn; [reflexivity|].
  simpl in Hn. cbn [String.append PyText.readlines].
  destruct (Ascii.eqb_spec c "010") as [->|Hc]; [tauto|].
  rewrite IH by tauto. reflexivity.
Qed.

Lemma readlines_written ids :
  List.Forall (fun id => ~ PyStr.has_char "010" id) ids ->
  PyText.readlines (written ids) = map (fun id => id +:+ newline) ids.
Proof.
  induction 1 as [|id ids Hid Hids IH]; [reflexivity|].
  cbn [written map]. rewrite readlines_line by done. by rewrite IH.
Qed.

Lemma graphic_not_space c :
  graphic c = true ->
  PyText.space1 c = false /\
  (forall c2, PyText.space2 c c2 = false) /\
  (forall c1, PyText.space2 c1 c = false) /\
  (forall c2 c3, PyText.space3 c c2 c3 = false) /\
  (forall c1 c2, PyText.space3 c1 c2 c = false).
Proof.
  unfold graphic, PyText.space1, PyText.space2, PyText.space3.
  generalize (N_of_ascii c). intros n [Hlo Hhi]%andb_prop.
  apply N.leb_le in Hlo, Hhi.
  repeat split; intros; apply not_true_iff_false;
    repeat (rewrite orb_true_iff || rewrite andb_true_iff);
    rewrite ?N.eqb_eq, ?N.leb_le; lia.
Qed.

Lemma strip_front_graphic sp1 sp2 sp3 c s :
  sp1 c = false -> (forall c2, sp2 c c2 = false) -> (forall c2 c3, sp3 c c2 c3 = false) ->
  PyText.strip_front sp1 sp2 sp3 (String c s) = String c s.
Proof.
  intros H1 H2 H3. cbn [PyText.strip_front]. rewrite H1.
  destruct s as [|c2 [|c3 s]]; [done| |]; rewrite H2; [done|]. by rewrite H3.
Qed.

Lemma all_chars_rev_onto p s acc :
  all_chars p (PyText.rev_onto s acc) = all_chars p s && all_chars p acc.
Proof.
  revert acc. induction s as [|c s IH]; intros acc; simpl; [done|].
  rewrite IH. simpl. destruct (p c), (all_chars p s); done.
Qed.

Lemma lstrip_graphic s : all_chars graphic s = true -> PyText.lstrip s = s.
Proof.
  destruct s as [|c s]; [done|]. simpl. intros [Hc _]%andb_prop.
  apply graphic_not_space in Hc as (H1 & H2 & _ & H3 & _).
  by apply strip_front_graphic.
Qed.

Lemma rstrip_graphic s : all_chars graphic s = true -> PyText.rstrip s = s.
Proof.
  intros Hs. unfold PyText.rstrip.
  assert (Hr : all_chars graphic (PyText.rev s) = true).
  { unfold PyText.rev. by rewrite all_chars_rev_onto, Hs. }
  rewrite <- (rev_rev s) at 2. f_equal.
  destruct (PyText.rev s) as [|c r]; [done|].
  simpl in Hr. apply andb_prop in Hr as [Hc _].
  apply graphic_not_space in Hc as (H1 & _ & H2 & _ & H3).
  by apply strip_front_graphic.
Qed.

Lemma strip_graphic s : all_chars graphic s = true -> PyText.strip s = s.
Proof.
  intros Hs. unfold PyText.strip. rewrite rstrip_graphic by done.
  by apply lstrip_graphic.
Qed.

Lemma graphic_one_line s : all_chars graphic s = true -> one_line s.
Proof.
  unfold one_line. induction s as [|c s IH]; simpl; [tauto|].
  intros [Hc Hs]%andb_prop. destruct (IH Hs) as [IH1 IH2].
  split; (intros [Heq|Hin]; [subst; discriminate Hc|tauto]).
Qed.

Lemma ledger_of_written ids :
  List.Forall one_line ids ->
  ledger_of_text (written ids)
  = list_to_set (List.filter PyStr.truthy (map PyText.strip ids)).
Proof.
  intros Hids. unfold ledger_of_text. rewrite readlines_written
    by (eapply List.Forall_impl; [|exact Hids]; by intros id [? _]).
  rewrite map_map. do 2 f_equal. apply map_ext. intros id. apply strip_line.
Qed.

Lemma elem_of_ledger_of_text id text :
  id ∈ ledger_of_text text -> PyStr.truthy id = true.
Proof.
  unfold ledger_of_text. rewrite elem_of_list_to_set, list_elem_of_In.
  by intros [_ ?]%filter_In.
Qed.


Lemma plain_identifier_kept id :
  plain_identifier id ->
  one_line id /\ PyText.strip id = id /\ PyStr.truthy id = true.
Proof.
  intros [Hne Hg]. split; [by apply graphic_one_line|].
  split; [by apply strip_graphic|]. by destruct id.
Qed.

(** What [_save_applied_vacancy] wrote over one run is what
    [_load_applied_vacancies] reads at the start of the next: the
    identifiers, stripped of surrounding white space, the empty ones left
    out. In particular every plain identifier that was saved is in the
    ledger again. Holds for identifiers without a line break. *)
Theorem ledger_file_is_read_back cfg ids :
  List.Forall one_line ids ->
  exists o,
    __init__ (Ok cfg) (Some (Ok (written ids))) = Ok o /\
    applied_vacancies o
      = list_to_set (List.filter PyStr.truthy (map PyText.strip ids)) /\
    (forall id, In id ids -> plain_identifier id -> id ∈ applied_vacancies o).
Proof.
  intros Hids. eexists. split; [reflexivity|].
  cbn [applied_vacancies set_applied_vacancies].
  split; [by apply ledger_of_written|].
  intros id Hin (_ & Hs & Ht)%plain_identifier_kept.
  rewrite ledger_of_written by done.
  rewrite elem_of_list_to_set, list_elem_of_In, filter_In, in_map_iff.
  split; [|done]. by exists id.
Qed.

(** An object starts with its counters at zero, no browser, and a ledger
    that holds no empty identifier, whatever the file holds: a listing
    whose URL gives the empty identifier (one that ends in a slash) is
    not recognised from the file, so the first call on it in a run does
    not take the ledger exit. *)
Theorem empty_identifier_is_not_read_back loaded_config file o vacancy_url :
  __init__ loaded_config file = Ok o ->
  vacancy_id_of vacancy_url = EmptyString ->
  applied_count o = 0 /\ skipped_count o = 0 /\ error_count o = 0 /\
  driver o = false /\ ~ ledger_skip vacancy_url o.
Proof.
  unfold __init__, _load_applied_vacancies.
  destruct loaded_config as [cfg|e]; [|discriminate].
  destruct file as [[text|e]|]; intros [= <-] Hid; cbn.
  all: repeat split; try reflexivity.
  all: intros [_ Hin]; rewrite Hid in Hin; cbn in Hin.
  - by apply elem_of_ledger_of_text in Hin.
  - by apply not_elem_of_empty in Hin.
Qed.

Section AcrossRuns.
Context {B : Type} `{WebDriver B}.

(** A listing applied to in an earlier run is skipped in the next one
    without the browser being touched: its identifier was written to the
    ledger file, the new object reads it back, and the first test of
    [_apply_to_vacancy] finds it. *)
Theorem listing_saved_in_earlier_run_is_skipped cfg ids vacancy_url search_page_url
    (b : B) (c : list (string * bool)) :
  List.Forall one_line ids ->
  skip_already_applied (application_settings cfg) = true ->
  In (vacancy_id_of vacancy_url) ids ->
  plain_identifier (vacancy_id_of vacancy_url) ->
  PyStr.truthy search_page_url = true ->
  exists o,
    __init__ (Ok cfg) (Some (Ok (written ids))) = Ok o /\
    _apply_to_vacancy vacancy_url (Some search_page_url)
      {| self := o; world := b; calls := c |}
    = (Ok false, {| self := incr_skipped o; world := b; calls := c |}).
Proof.
  intros Hids Hskip Hin (_ & Hs & Ht)%plain_identifier_kept Hspu.
  eexists. split; [reflexivity|].
  rewrite apply_skip_eq; [reflexivity|done|].
  split; [exact Hskip|].
  cbn [self applied_vacancies set_applied_vacancies].
  rewrite ledger_of_written by done.
  rewrite elem_of_list_to_set, list_elem_of_In, filter_In, in_map_iff.
  split; [|done]. by exists (vacancy_id_of vacancy_url).
Qed.

End AcrossRuns.

(** ** [_apply_to_vacancy]: what a call can do to the object *)

Lemma grows_refl o : grows o o.
Proof. unfold grows. repeat split; try lia; done. Qed.

Lemma grows_trans o1 o2 o3 : grows o1 o2 -> grows o2 o3 -> grows o1 o3.
Proof.
  unfold grows. intros (-> & ? & ? & ? & ?) (-> & ? & ? & ? & ?).
  repeat split; try lia. by etrans.
Qed.

Ltac grows_step :=
  unfold grows; cbn;
  repeat split; try lia; try done;
  auto using ledger_grows, ledger_grows_twice.

Section ApplyMore.
Context {B : Type} `{WebDriver B}.

(** Whatever it is given and however it ends, a call only moves the
    object forward, and leaves the browser flag and the ghost record
    alone. *)
Lemma apply_grows vacancy_url search_page_url (s : State B) :
  let s' := (_apply_to_vacancy vacancy_url search_page_url s).2 in
  grows (self s) (self s') /\ driver (self s') = driver (self s) /\
  calls s' = calls s.
Proof.
  destruct s as [o b0 c].
  run_apply.
  all: cbn; split; [grows_step|done].
Qed.

(** Given its return location, a call returns and does not raise,
    whatever the browser and the file system do. It only moves the object
    forward. [True] means an application was counted, with no skip and no
    error, and the identifier is in the ledger; [False] means a skip or an
    error was counted. *)
Theorem apply_result_matches_counters vacancy_url search_page_url (s : State B) :
  PyStr.truthy search_page_url = true ->
  exists r s',
    _apply_to_vacancy vacancy_url (Some search_page_url) s = (Ok r, s') /\
    grows (self s) (self s') /\
    (r = true ->
       applied_count (self s) < applied_count (self s') /\
       skipped_count (self s') = skipped_count (self s) /\
       error_count (self s') = error_count (self s) /\
       vacancy_id_of vacancy_url ∈ applied_vacancies (self s')) /\
    (r = false ->
       skipped_count (self s) < skipped_count (self s') \/
       error_count (self s) < error_count (self s')).
Proof.
  intros Hspu. destruct s as [o b0 c].
  unfold _apply_to_vacancy. rewrite Hspu.
  run_apply.
  all: eexists _, _; (split; [reflexivity|]); cbn.
  all: split; [grows_step|].
  all: split; intros Hr; try discriminate Hr; cbn.
  all: try (repeat split; try lia; auto using ledger_has, ledger_has_twice; fail).
  all: lia.
Qed.

(** A call raises in one case only: it was given no return location (none,
    or the empty string), and reading the browser's location, the first
    thing it then does, raised. Nothing is counted in that case. *)
Theorem apply_raises_only_when_location_unknown
    vacancy_url search_page_url (s s' : State B) e :
  _apply_to_vacancy vacancy_url search_page_url s = (Raise e, s') <->
  PyStr.truthy_opt search_page_url = false /\
  exists b, driver_current_url (world s) = (Raise e, b) /\ s' = set_world s b.
Proof.
  destruct s as [o b0 c]. split.
  - run_apply.
    all: intros [= <- <-] || intros [=].
    all: cbn; split; [first [reflexivity|assumption]|];
      eexists; split; reflexivity.
  - intros (Hspu & b & Hcur & ->). cbn [world] in Hcur.
    unfold _apply_to_vacancy, mbind, M_bind, bind, call.
    destruct search_page_url as [url|]; cbn in Hspu; rewrite ?Hspu;
      cbn [world]; rewrite Hcur; reflexivity.
Qed.

(** A listing that opens on the response form is counted as skipped:
    nothing is looked for or clicked on it, the ledger is left as it was,
    and the browser is sent back to the return location (twice when the
    first navigation back raises, which also counts an error). *)
Theorem listing_on_response_form_is_skipped
    vacancy_url search_page_url (s : State B) b1 current_url b2 :
  PyStr.truthy search_page_url = true ->
  ~ ledger_skip vacancy_url (self s) ->
  driver_get vacancy_url (world s) = (Ok tt, b1) ->
  driver_current_url b1 = (Ok current_url, b2) ->
  is_response_form current_url = true ->
  exists s',
    _apply_to_vacancy vacancy_url (Some search_page_url) s = (Ok false, s') /\
    calls s' = calls s /\
    match driver_get search_page_url b2 with
    | (Ok _, b3) =>
        self s' = incr_skipped (self s) /\ world s' = b3 /\
        error_count (self s') = error_count (self s)
    | (Raise _, b3) =>
        self s' = incr_error (incr_skipped (self s)) /\
        world s' = (driver_get search_page_url b3).2 /\
        error_count (self s') = error_count (self s) + 1
    end /\
    skipped_count (self s') = skipped_count (self s) + 1 /\
    applied_count (self s') = applied_count (self s) /\
    applied_vacancies (self s') = applied_vacancies (self s) /\
    config (self s') = config (self s).
Proof.
  intros Hspu Hcond%not_ledger_skip H1 H2 Hform.
  destruct s as [o b0 c]. cbn [self world calls] in *.
  unfold _apply_to_vacancy. rewrite Hspu.
  unfold_apply.
  repeat first
    [ progress cbn [self world calls]
    | rewrite Hcond | rewrite H1 | rewrite H2 | rewrite Hform ].
  destruct (driver_get search_page_url b2) as [[[]|e] b3]; cbn [self world calls].
  - eexists. split; [reflexivity|]. done.
  - destruct (driver_get search_page_url b3) as [[[]|e'] b4]; cbn [self world calls snd];
      (eexists; split; [reflexivity|]; done).
Qed.

(** A listing with no apply control but with the already-applied marker
    is remembered and counted as skipped: the identifier goes into the
    ledger and the ledger file, so that no later call opens the listing
    again when skipping is enabled. *)
Theorem listing_marked_as_applied_is_remembered
    vacancy_url search_page_url (s : State B) b1 current_url b2 b3 marker b4 b5 b6 :
  PyStr.truthy search_page_url = true ->
  ~ ledger_skip vacancy_url (self s) ->
  driver_get vacancy_url (world s) = (Ok tt, b1) ->
  driver_current_url b1 = (Ok current_url, b2) ->
  is_response_form current_url = false ->
  find_apply_button apply_selectors (set_world s b2) = (Ok None, set_world s b3) ->
  driver_find_element
    "[data-qa*='already-applied'], .vacancy-response-link-already-applied" b3
    = (Ok marker, b4) ->
  file_append "applied_vacancies.txt" (vacancy_id_of vacancy_url +:+ newline) b4
    = (Ok tt, b5) ->
  driver_get search_page_url b5 = (Ok tt, b6) ->
  let out := _apply_to_vacancy vacancy_url (Some search_page_url) s in
  out =
    (Ok false,
     {| self := incr_skipped (add_applied (vacancy_id_of vacancy_url) (self s));
        world := b6; calls := calls s |}) /\
  vacancy_id_of vacancy_url ∈ applied_vacancies (self out.2) /\
  applied_vacancies (self out.2)
    = {[ vacancy_id_of vacancy_url ]} ∪ applied_vacancies (self s) /\
  skipped_count (self out.2) = skipped_count (self s) + 1 /\
  applied_count (self out.2) = applied_count (self s) /\
  error_count (self out.2) = error_count (self s) /\
  config (self out.2) = config (self s).
Proof.
  intros Hspu Hcond%not_ledger_skip H1 H2 Hform H3 H4 H5 H6 out.
  assert (Hout : out =
    (Ok false,
     {| self := incr_skipped (add_applied (vacancy_id_of vacancy_url) (self s));
        world := b6; calls := calls s |})); [subst out|].
  2: { rewrite Hout. cbn. split; [reflexivity|]. split; [apply ledger_has|].
       repeat split. }
  destruct s as [o b0 c]. unfold set_world in *. cbn [self world calls] in *.
  unfold _apply_to_vacancy. rewrite Hspu.
  unfold_apply.
  repeat first
    [ progress cbn [self world calls]
    | rewrite Hcond | rewrite H1 | rewrite H2 | rewrite Hform | rewrite H3
    | rewrite H4 | rewrite H5 | rewrite H6 ].
  reflexivity.
Qed.

(** A listing with neither an apply control nor the marker is counted as
    an error and not remembered: the ledger and the ledger file are left
    as they were, and a later call opens the listing again. *)
Theorem listing_without_control_is_an_error
    vacancy_url search_page_url (s : State B) b1 current_url b2 b3 b4 b5 :
  PyStr.truthy search_page_url = true ->
  ~ ledger_skip vacancy_url (self s) ->
  driver_get vacancy_url (world s) = (Ok tt, b1) ->
  driver_current_url b1 = (Ok current_url, b2) ->
  is_response_form current_url = false ->
  find_apply_button apply_selectors (set_world s b2) = (Ok None, set_world s b3) ->
  driver_find_element
    "[data-qa*='already-applied'], .vacancy-response-link-already-applied" b3
    = (Raise NoSuchElementException, b4) ->
  driver_get search_page_url b4 = (Ok tt, b5) ->
  let out := _apply_to_vacancy vacancy_url (Some search_page_url) s in
  out = (Ok false, {| self := incr_error (self s); world := b5; calls := calls s |}) /\
  ~ ledger_skip vacancy_url (self out.2) /\
  error_count (self out.2) = error_count (self s) + 1 /\
  applied_count (self out.2) = applied_count (self s) /\
  skipped_count (self out.2) = skipped_count (self s) /\
  applied_vacancies (self out.2) = applied_vacancies (self s) /\
  config (self out.2) = config (self s).
Proof.
  intros Hspu Hskip H1 H2 Hform H3 H4 H5.
  pose proof (not_ledger_skip _ _ Hskip) as Hcond.
  destruct s as [o b0 c]. unfold set_world in *. cbn [self world calls] in *.
  unfold _apply_to_vacancy. rewrite Hspu.
  unfold_apply.
  repeat first
    [ progress cbn [self world calls]
    | rewrite Hcond | rewrite H1 | rewrite H2 | rewrite Hform | rewrite H3
    | rewrite H4 | rewrite H5 ].
  split; [reflexivity|]. split; [exact Hskip|]. cbn. repeat split.
Qed.

(** A listing whose apply control leads to the response form is counted
    as skipped as well: after the click nothing is typed, submitted or
    written, the ledger is left as it was, and the browser is sent back
    to the return location. *)
Theorem click_that_opens_response_form_is_skipped
    vacancy_url search_page_url (s : State B)
    b1 u1 b2 apply_button b3 b4 b5 u2 b6 :
  PyStr.truthy search_page_url = true ->
  ~ ledger_skip vacancy_url (self s) ->
  driver_get vacancy_url (world s) = (Ok tt, b1) ->
  driver_current_url b1 = (Ok u1, b2) -> is_response_form u1 = false ->
  find_apply_button apply_selectors (set_world s b2)
    = (Ok (Some apply_button), set_world s b3) ->
  driver_execute_script scroll_to_button apply_button b3 = (Ok tt, b4) ->
  element_click apply_button b4 = (Ok tt, b5) ->
  driver_current_url b5 = (Ok u2, b6) -> is_response_form u2 = true ->
  exists s',
    _apply_to_vacancy vacancy_url (Some search_page_url) s = (Ok false, s') /\
    calls s' = calls s /\
    match driver_get search_page_url b6 with
    | (Ok _, b7) =>
        self s' = incr_skipped (self s) /\ world s' = b7 /\
        error_count (self s') = error_count (self s)
    | (Raise _, b7) =>
        self s' = incr_error (incr_skipped (self s)) /\
        world s' = (driver_get search_page_url b7).2 /\
        error_count (self s') = error_count (self s) + 1
    end /\
    skipped_count (self s') = skipped_count (self s) + 1 /\
    applied_count (self s') = applied_count (self s) /\
    applied_vacancies (self s') = applied_vacancies (self s) /\
    config (self s') = config (self s).
Proof.
  intros Hspu Hcond%not_ledger_skip H1 H2 Hu1 H3 H4 H5 H6 Hu2.
  destruct s as [o b0 c]. unfold set_world in *. cbn [self world calls] in *.
  unfold _apply_to_vacancy. rewrite Hspu.
  unfold_apply.
  repeat first
    [ progress cbn [self world calls]
    | rewrite Hcond | rewrite H1 | rewrite H2 | rewrite Hu1 | rewrite H3
    | rewrite H4 | rewrite H5 | rewrite H6 | rewrite Hu2 ].
  destruct (driver_get search_page_url b6) as [[[]|e] b7]; cbn [self world calls].
  - eexists. split; [reflexivity|]. done.
  - destruct (driver_get search_page_url b7) as [[[]|e'] b8]; cbn [self world calls snd];
      (eexists; split; [reflexivity|]; done).
Qed.

(** When the click on the submission control is refused, whatever the
    exception, the control is clicked by script instead, and the
    application is saved and counted like one whose click went through. *)
Theorem refused_click_falls_back_to_script
    vacancy_url search_page_url (s : State B)
    b1 u1 b2 apply_button b3 b4 b5 u2 b6 b7 b8 submit_button c1 c2 e c3 b9 b10 b11 :
  PyStr.truthy search_page_url = true ->
  ~ ledger_skip vacancy_url (self s) ->
  driver_get vacancy_url (world s) = (Ok tt, b1) ->
  driver_current_url b1 = (Ok u1, b2) -> is_response_form u1 = false ->
  find_apply_button apply_selectors (set_world s b2)
    = (Ok (Some apply_button), set_world s b3) ->
  driver_execute_script scroll_to_button apply_button b3 = (Ok tt, b4) ->
  element_click apply_button b4 = (Ok tt, b5) ->
  driver_current_url b5 = (Ok u2, b6) -> is_response_form u2 = false ->
  dismiss_cookies_banner (set_world s b6) = (Ok tt, set_world s b7) ->
  fill_cover_letter (set_world s b7) = (Ok tt, set_world s b8) ->
  wait_until 10 presence_of_element_located submit_selector b8
    = (Ok submit_button, c1) ->
  driver_execute_script scroll_to_center submit_button c1 = (Ok tt, c2) ->
  element_click submit_button c2 = (Raise e, c3) ->
  driver_execute_script "arguments[0].click();" submit_button c3 = (Ok tt, b9) ->
  file_append "applied_vacancies.txt" (vacancy_id_of vacancy_url +:+ newline) b9
    = (Ok tt, b10) ->
  driver_get search_page_url b10 = (Ok tt, b11) ->
  let out := _apply_to_vacancy vacancy_url (Some search_page_url) s in
  out =
    (Ok true,
     {| self := incr_applied (add_applied (vacancy_id_of vacancy_url) (self s));
        world := b11; calls := calls s |}) /\
  vacancy_id_of vacancy_url ∈ applied_vacancies (self out.2) /\
  applied_vacancies (self out.2)
    = {[ vacancy_id_of vacancy_url ]} ∪ applied_vacancies (self s) /\
  applied_count (self out.2) = applied_count (self s) + 1 /\
  skipped_count (self out.2) = skipped_count (self s) /\
  error_count (self out.2) = error_count (self s) /\
  config (self out.2) = config (self s).
Proof.
  intros Hspu Hcond%not_ledger_skip H1 H2 Hu1 H3 H4 H5 H6 Hu2 H7 H8
    H9 H9a H9b H9c H10 H11 out.
  assert (Hout : out =
    (Ok true,
     {| self := incr_applied (add_applied (vacancy_id_of vacancy_url) (self s));
        world := b11; calls := calls s |})); [subst out|].
  2: { rewrite Hout. cbn. split; [reflexivity|]. split; [apply ledger_has|].
       repeat split. }
  destruct s as [o b0 c]. unfold set_world in *. cbn [self world calls] in *.
  unfold _apply_to_vacancy. rewrite Hspu.
  unfold_apply.
  repeat first
    [ progress cbn [self world calls]
    | rewrite Hcond | rewrite H1 | rewrite H2 | rewrite Hu1 | rewrite H3
    | rewrite H4 | rewrite H5 | rewrite H6 | rewrite Hu2 | rewrite H7 | rewrite H8
    | rewrite H9 | rewrite H9a | rewrite H9b | rewrite H9c | rewrite H10
    | rewrite H11 ].
  reflexivity.
Qed.

End ApplyMore.

(** ** What is asked of the outside world *)

Import Recording.

Section Quiet.
Context {B : Type} `{WebDriver B}.

Abbreviation RPy := (M (State (B * list event))).

Lemma quiet_ret {A} P (a : A) : quiet P (ret a : RPy A).
Proof.
  intros [o [b t] c]. exists (Ok a), b, []. split; [|constructor].
  unfold ret, set_world, record. cbn. by rewrite app_nil_r.
Qed.

Lemma quiet_call {A} P (q : request) (op : B -> Res A * B) :
  (forall o ok, P o (q, ok)) -> quiet P (call (recorded q op)).
Proof.
  intros HP [o [b t] c]. unfold call, recorded. cbn.
  destruct (op b) as [r b']. exists r, b', [(q, returned r)].
  split; [reflexivity|]. repeat constructor. apply HP.
Qed.

Lemma quiet_bind {A C} P (m : RPy A) (k : A -> RPy C) :
  quiet P m -> (forall a, quiet P (k a)) -> quiet P (bind m k).
Proof.
  intros Hm Hk s. unfold bind. destruct (Hm s) as (r & b & evs & -> & Hevs).
  destruct r as [a|e]; [|by exists (Raise e), b, evs].
  destruct (Hk a (set_world s (b, record s ++ evs))) as (r' & b' & evs' & -> & Hevs').
  exists r', b', (evs ++ evs'). split.
  - unfold set_world, record. cbn. by rewrite app_assoc.
  - apply Forall_app. by split.
Qed.

(** What follows [get_self] may use that the object it got is the one of
    the state. *)
Lemma quiet_get_self_bind {C} P (k : HHAutoApply -> RPy C) :
  (forall o, quiet (fun o' ev => o' = o -> P o' ev) (k o)) ->
  quiet P (bind get_self k).
Proof.
  intros Hk s. unfold bind, get_self.
  destruct (Hk (self s) s) as (r & b & evs & -> & Hevs).
  exists r, b, evs. split; [reflexivity|].
  eapply Forall_impl; [exact Hevs|]. cbn. auto.
Qed.

Lemma quiet_try {A} P (m : RPy A) (h : exn -> option (RPy A)) :
  quiet P m -> (forall e k, h e = Some k -> quiet P k) ->
  quiet P (try_except m h).
Proof.
  intros Hm Hh s. unfold try_except. destruct (Hm s) as (r & b & evs & -> & Hevs).
  destruct r as [a|e]; [by exists (Ok a), b, evs|].
  destruct (h e) as [k|] eqn:Hk; [|by exists (Raise e), b, evs].
  destruct (Hh e k Hk (set_world s (b, record s ++ evs))) as (r' & b' & evs' & -> & Hevs').
  exists r', b', (evs ++ evs'). split.
  - unfold set_world, record. cbn. by rewrite app_assoc.
  - apply Forall_app. by split.
Qed.

Lemma quiet_impl {A} (P Q : HHAutoApply -> event -> Prop) (m : RPy A) :
  (forall o ev, P o ev -> Q o ev) -> quiet P m -> quiet Q m.
Proof.
  intros HPQ Hm s. destruct (Hm s) as (r & b & evs & -> & Hevs).
  exists r, b, evs. split; [reflexivity|].
  eapply Forall_impl; [exact Hevs|]. apply HPQ.
Qed.

Lemma quiet_steps {A} P (m : RPy A) : quiet (fun _ => P) m -> steps (extends P) m.
Proof.
  intros Hm s. destruct (Hm s) as (r & b & evs & -> & Hevs).
  exists r, (b, record s ++ evs). split; [reflexivity|]. by exists evs.
Qed.

Lemma quiet_find_apply_button sels :
  quiet listing_page_request (find_apply_button sels).
Proof.
  induction sels as [|sel rest IH]; simpl; [apply quiet_ret|].
  apply quiet_try.
  - apply quiet_bind; [by apply quiet_call|intros; apply quiet_ret].
  - intros [] k [= <-]. exact IH.
Qed.

Lemma quiet_dismiss_cookies_banner :
  quiet listing_page_request dismiss_cookies_banner.
Proof.
  unfold dismiss_cookies_banner.
  apply quiet_try.
  - apply quiet_bind; [by apply quiet_call|intros banner].
    apply quiet_bind; [by apply quiet_call|intros [|]].
    + apply quiet_try.
      * apply quiet_bind; [by apply quiet_call|intros; by apply quiet_call].
      * intros e k [= <-]. by apply quiet_call.
    + apply quiet_ret.
  - intros [] k [= <-]. apply quiet_ret.
Qed.

Lemma quiet_fill_cover_letter : quiet listing_page_request fill_cover_letter.
Proof.
  unfold fill_cover_letter.
  apply quiet_try.
  - apply quiet_bind; [by apply quiet_call|intros ta].
    apply quiet_get_self_bind. intros o.
    apply quiet_bind; [by apply quiet_call|intros _].
    apply quiet_call. intros o' ok ->. reflexivity.
  - intros [] k [= <-]. apply quiet_ret.
Qed.

End Quiet.

(** Running a method symbolically on the recording world. *)
Ltac blocks_recorded :=
  match goal with
  | |- context [find_apply_button ?l ?s] =>
      let r := fresh "r" in let b := fresh "b" in let evs := fresh "evs" in
      destruct (quiet_find_apply_button l s) as (r & b & evs & -> & ?);
      destruct r as [[?|]|?]
  | |- context [dismiss_cookies_banner ?s] =>
      let r := fresh "r" in let b := fresh "b" in let evs := fresh "evs" in
      destruct (quiet_dismiss_cookies_banner s) as (r & b & evs & -> & ?);
      destruct r as [[]|?]
  | |- context [fill_cover_letter ?s] =>
      let r := fresh "r" in let b := fresh "b" in let evs := fresh "evs" in
      destruct (quiet_fill_cover_letter s) as (r & b & evs & -> & ?);
      destruct r as [[]|?]
  end.

Ltac unfold_recorded :=
  unfold_apply;
  unfold record, recorded, listing_page_request in *;
  cbn [driver_get driver_current_url driver_find_element driver_find_elements
       driver_execute_script wait_until element_click element_is_displayed
       element_clear element_send_keys element_get_attribute driver_quit
       file_append chrome_start chrome_configure login_session
       recording_driver recorded] in *.

Ltac run_recorded :=
  unfold_recorded;
  repeat (cbn [self world calls fst snd returned] in *;
          unfold record, recorded, set_world, listing_page_request in *;
          first [blocks_recorded | step]).

Ltac record_eq :=
  cbn [record world snd fst self calls];
  rewrite <- ?app_assoc;
  first [reflexivity | symmetry; apply app_nil_r].

Lemma page_request_apply_request vacancy_url search_page_url cover ev :
  page_request cover ev -> apply_request vacancy_url search_page_url cover ev.
Proof. destruct ev as [[] ok]; cbn; tauto. Qed.

Lemma lines_written_app line evs1 evs2 :
  lines_written line (evs1 ++ evs2)
  = lines_written line evs1 + lines_written line evs2.
Proof. unfold lines_written. rewrite List.filter_app, length_app. lia. Qed.

Lemma lines_written_page_requests line cover evs :
  Forall (page_request cover) evs -> lines_written line evs = 0.
Proof.
  unfold lines_written. induction 1 as [|[q ok] evs Hq _ IH]; [reflexivity|].
  cbn [List.filter]. destruct q; try (destruct Hq; fail); cbn; try done.
  all: destruct ok; done.
Qed.

Lemma lines_written_saved line :
  lines_written line [(FileAppend "applied_vacancies.txt" line, true)] = 1.
Proof. unfold lines_written. cbn. by rewrite String.eqb_refl. Qed.

Lemma lines_written_failed line path text :
  lines_written line [(FileAppend path text, false)] = 0.
Proof. reflexivity. Qed.

Ltac requests_ok :=
  repeat first
    [ apply Forall_nil_2
    | apply Forall_app_2
    | apply Forall_cons_2
    | (eapply Forall_impl; [eassumption|];
       intros ? ?; apply page_request_apply_request; assumption)
    | (cbn; first [exact I | (left; reflexivity) | (right; reflexivity)
                  | (split; reflexivity) | reflexivity]) ].

Ltac count_lines :=
  cbn [returned];
  rewrite ?lines_written_app;
  repeat match goal with
         | Hq : Forall (page_request _) ?evs |- context [lines_written ?l ?evs] =>
             rewrite (lines_written_page_requests l _ evs Hq)
         end;
  rewrite ?lines_written_saved, ?lines_written_failed;
  change (lines_written _ []) with 0;
  repeat match goal with
         | |- context [lines_written ?l [(?q, ?ok)]] =>
             change (lines_written l [(q, ok)]) with 0
         end.

Section ApplyRecord.
Context {B : Type} `{WebDriver B}.

(** The requests of one call, whatever it is given: [back] is the return
    location, given or read from the browser. *)
Lemma apply_record vacancy_url search_page_url (s : State (B * list event)) :
  exists r s' evs back,
    _apply_to_vacancy vacancy_url search_page_url s = (r, s') /\
    record s' = record s ++ evs /\
    (forall url, search_page_url = Some url -> PyStr.truthy url = true -> back = url) /\
    Forall (apply_request vacancy_url back
              (cover_letter (application_settings (config (self s))))) evs /\
    applied_count (self s') - applied_count (self s)
      <= lines_written (vacancy_id_of vacancy_url +:+ newline) evs /\
    (1 <= lines_written (vacancy_id_of vacancy_url +:+ newline) evs ->
     vacancy_id_of vacancy_url ∈ applied_vacancies (self s')).
Proof.
  destruct s as [o [b0 t] c].
  run_recorded.
  all: eexists _, _, _, _; (split; [reflexivity|]).
  all: split; [record_eq|].
  all: split;
    [intros url Hu Ht;
     first [discriminate Hu | injection Hu as <-; first [congruence | reflexivity]]|].
  all: split; [requests_ok|].
  all: cbn [self applied_count applied_vacancies incr_applied incr_skipped incr_error
            add_applied]; count_lines.
  all: split; [lia|intros Hl; first [lia | apply ledger_has]].
  Unshelve. all: exact EmptyString.
Qed.

End ApplyRecord.

Lemma failed_gets_app url evs1 evs2 :
  failed_gets url (evs1 ++ evs2) = failed_gets url evs1 + failed_gets url evs2.
Proof. unfold failed_gets. rewrite List.filter_app, length_app. lia. Qed.

Lemma failed_gets_page_requests url cover evs :
  Forall (page_request cover) evs -> failed_gets url evs = 0.
Proof.
  unfold failed_gets. induction 1 as [|[q ok] evs Hq _ IH]; [reflexivity|].
  cbn [List.filter]. destruct q; try (destruct Hq; fail); cbn; done.
Qed.

Lemma failed_gets_failed url : failed_gets url [(Get url, false)] = 1.
Proof. unfold failed_gets. cbn. by rewrite String.eqb_refl. Qed.

Lemma failed_gets_one url ev : 0 <= failed_gets url [ev] <= 1.
Proof.
  unfold failed_gets. cbn [List.filter]. destruct (failed_get url ev); cbn; lia.
Qed.

Lemma ledger_skip_test vacancy_url o :
  ledger_skip vacancy_url o <->
  skip_already_applied (application_settings (config o))
  && bool_decide (vacancy_id_of vacancy_url ∈ applied_vacancies o) = true.
Proof.
  unfold ledger_skip. rewrite andb_true_iff, bool_decide_eq_true. tauto.
Qed.

(** The failed navigations in a record that is a chain of single
    requests and of the requests of the page steps. *)
Ltac count_failed_gets :=
  cbn [returned];
  rewrite ?failed_gets_app;
  repeat match goal with
         | Hq : Forall (page_request _) ?evs |- context [failed_gets ?u ?evs] =>
             rewrite (failed_gets_page_requests u _ evs Hq)
         end;
  rewrite ?failed_gets_failed;
  change (failed_gets _ []) with 0;
  repeat match goal with
         | |- context [failed_gets ?u (@cons ?T (Get ?v, false) ?l)] =>
             let k := fresh "k" in
             let E := fresh "E" in
             remember (failed_gets u (@cons T (Get v, false) l)) as k eqn:E;
             assert (0 <= k <= 1) by (rewrite E; apply failed_gets_one);
             clear E
         | |- context [failed_gets ?u [(?q, ?ok)]] =>
             change (failed_gets u [(q, ok)]) with 0
         end.

Section Requests.
Context {B : Type} `{WebDriver B}.

(** C1, as the code has it. For a call that is given its return location,
    on a browser where a navigation that returns shows the URL asked for,
    with everything the call asks of the outside world recorded: the call
    returns. When the listing is in the ledger and skipping is enabled,
    it returns [False] and has asked nothing: the outside world, the
    location of the browser included, is as before. In every other case
    the last thing the call did to the outside world was a navigation to
    the return location: the world it leaves is the one that navigation
    left, and the navigation is the last entry of the record. When that
    navigation returned, the browser shows the return location. When it
    raised, it was the navigation of the exception handler, whose failure
    is swallowed: the call returned [False] and an error was counted. *)
Theorem apply_returns_to_search_page
    vacancy_url search_page_url (s : State (B * list event)) :
  PyStr.truthy search_page_url = true ->
  (forall b b', driver_get search_page_url b = (Ok tt, b') ->
                location b' = search_page_url) ->
  exists r s',
    _apply_to_vacancy vacancy_url (Some search_page_url) s = (Ok r, s') /\
    (ledger_skip vacancy_url (self s) -> r = false /\ world s' = world s) /\
    (~ ledger_skip vacancy_url (self s) ->
     exists before (w : B * list event) res,
       w.2 = record s ++ before /\
       driver_get search_page_url w = (res, world s') /\
       record s' = (record s ++ before)
                   ++ [(Get search_page_url, returned res)] /\
       (res = Ok tt -> location (world s') = search_page_url) /\
       (forall e, res = Raise e ->
                  r = false /\ error_count (self s) < error_count (self s'))).
Proof.
  intros Hspu Hlaw. destruct s as [o [b0 t] c].
  unfold _apply_to_vacancy. rewrite Hspu.
  run_recorded.
  all: repeat match goal with u : unit |- _ => destruct u end.
  all: eexists _, _; (split; [reflexivity|]); cbn [self world calls].
  all: rewrite ledger_skip_test.
  all: split; [intros Hskip; first [done | congruence]|].
  all: intros Hskip; try congruence.
  all: match goal with
       | Hg : driver_get ?u ?b = (?res, ?b')
         |- context [(?b', ?X ++ [(Get ?u, _)])] =>
           eexists _, (b, X), res;
           split; [cbn [snd]; record_eq|];
           split; [cbn [driver_get recording_driver recorded fst snd];
                   rewrite Hg; reflexivity|];
           split; [unfold record; cbn [world snd returned]; f_equal; record_eq|];
           split; [intros Hr; first [discriminate Hr | eapply Hlaw; exact Hg]|];
           intros e' He'; first [discriminate He' | (split; [reflexivity|cbn; lia])]
       end.
Qed.

(** C10, as the code has it. For a call that is given its return
    location, with everything the call asks of the outside world
    recorded: the call returns and lowers no counter. Either it asked
    nothing (the listing was in the ledger) and one counter went up by
    one, or what it asked began with opening the listing and ended with a
    navigation to the return location, and the three counters went up, in
    total, by one plus the number of navigations to the return location
    in between that raised: every navigation back inside the [try] block
    comes after the path has counted, and when it raises, the [except]
    clause that catches it, the handler or an inner one, counts once
    more. So the total is at least one and at most one more than the
    number of navigations to the return location that raised, and when
    none raised, exactly one counter went up, by exactly one. *)
Theorem apply_counts_once_unless_return_fails
    vacancy_url search_page_url (s : State (B * list event)) :
  PyStr.truthy search_page_url = true ->
  exists r s' evs,
    _apply_to_vacancy vacancy_url (Some search_page_url) s = (Ok r, s') /\
    record s' = record s ++ evs /\
    applied_count (self s) <= applied_count (self s') /\
    skipped_count (self s) <= skipped_count (self s') /\
    error_count (self s) <= error_count (self s') /\
    (let rise := (applied_count (self s') - applied_count (self s))
                 + (skipped_count (self s') - skipped_count (self s))
                 + (error_count (self s') - error_count (self s)) in
     ((evs = [] /\ rise = 1) \/
      (exists opened inner last,
         evs = [(Get vacancy_url, opened)] ++ inner
               ++ [(Get search_page_url, last)] /\
         rise = 1 + failed_gets search_page_url inner)) /\
     1 <= rise <= 1 + failed_gets search_page_url evs) /\
    (failed_gets search_page_url evs = 0 -> counted_once (self s) (self s')).
Proof.
  intros Hspu. destruct s as [o [b0 t] c].
  unfold _apply_to_vacancy. rewrite Hspu.
  run_recorded.
  all: eexists _, _, _; (split; [reflexivity|]).
  all: split; [record_eq|].
  all: cbn [self applied_count skipped_count error_count incr_applied incr_skipped
            incr_error add_applied]; cbv zeta.
  all: unfold counted_once;
       cbn [self applied_count skipped_count error_count incr_applied incr_skipped
            incr_error add_applied].
  all: repeat (split; [lia|]).
  all: split; [split|].
  all: try (count_failed_gets; lia).
  all: first
    [ (left; split; [reflexivity|lia])
    | (right; eexists _, _, _; split;
       [ f_equal; rewrite ?app_assoc;
         first [reflexivity | exact (eq_sym (app_nil_l _))]
       | count_failed_gets; lia ]) ].
Qed.

(** Given its return location, a call loads the listing and the return
    location and no other page; it writes nothing but the line of the
    listing, and only to the ledger file; it types nothing but the
    configured cover letter; it reads no list of elements and no
    attribute; and it does not start, log in or close the browser. *)
Theorem apply_asks_only_for_its_listing
    vacancy_url search_page_url (s : State (B * list event)) :
  PyStr.truthy search_page_url = true ->
  exists r s' evs,
    _apply_to_vacancy vacancy_url (Some search_page_url) s = (r, s') /\
    record s' = record s ++ evs /\
    Forall (apply_request vacancy_url search_page_url
              (cover_letter (application_settings (config (self s))))) evs.
Proof.
  intros Hspu.
  destruct (apply_record vacancy_url (Some search_page_url) s)
    as (r & s' & evs & back & Heq & Hrec & Hback & Hall & _).
  rewrite (Hback search_page_url eq_refl Hspu) in Hall.
  by exists r, s', evs.
Qed.

(** Every application a call counts was written to the ledger file
    first: the application counter rises by no more than the number of
    lines with the identifier of the listing that the call wrote
    successfully. And whenever such a line was written, the identifier
    is in the ledger in memory. *)
Theorem counted_application_is_in_ledger_file
    vacancy_url search_page_url (s : State (B * list event)) :
  exists r s' evs,
    _apply_to_vacancy vacancy_url search_page_url s = (r, s') /\
    record s' = record s ++ evs /\
    applied_count (self s') - applied_count (self s)
      <= lines_written (vacancy_id_of vacancy_url +:+ newline) evs /\
    (1 <= lines_written (vacancy_id_of vacancy_url +:+ newline) evs ->
     vacancy_id_of vacancy_url ∈ applied_vacancies (self s')).
Proof.
  destruct (apply_record vacancy_url search_page_url s)
    as (r & s' & evs & back & Heq & Hrec & _ & _ & Hcount & Hin).
  by exists r, s', evs.
Qed.

(** The cover letter is typed at most once, into the field that the
    wait found and that was cleared first, and it is the configured
    text; when the field does not show up nothing is typed. The step
    never raises [TimeoutException]: a timeout of any of its three calls
    is taken for a missing field. *)
Theorem cover_letter_is_typed_into_the_cleared_field (s : State (B * list event)) :
  let field := "textarea[data-qa='vacancy-response-popup-form-letter-input']" in
  let cover := cover_letter (application_settings (config (self s))) in
  exists r b evs,
    fill_cover_letter s = (r, set_world s (b, record s ++ evs)) /\
    (r = Ok tt \/ exists e, e <> TimeoutException /\ r = Raise e) /\
    (evs = [(Wait 10 presence_of_element_located field, false)]
     \/ (exists textarea,
          evs = [(Wait 10 presence_of_element_located field, true);
                 (Clear textarea, false)])
     \/ (exists textarea returned,
          evs = [(Wait 10 presence_of_element_located field, true);
                 (Clear textarea, true); (SendKeys textarea cover, returned)] /\
          (returned = true -> r = Ok tt))).
Proof.
  intros field cover. subst field cover.
  destruct s as [o [b0 t] c].
  unfold fill_cover_letter.
  run_recorded.
  all: repeat match goal with a : unit |- _ => destruct a end.
  all: eexists _, _, _; (split; [f_equal; f_equal; f_equal; record_eq|]).
  all: cbn [app returned].
  all: split;
    [first [left; reflexivity | right; eexists; split; [|reflexivity]; discriminate]|].
  all: first
    [ left; reflexivity
    | right; left; eexists; reflexivity
    | right; right; eexists _, _; split;
        [reflexivity|intros Hr; reflexivity || discriminate Hr] ].
Qed.

Lemma quiet_find_alternative_cards sels :
  quiet (fun _ => reading) (find_alternative_cards sels).
Proof.
  induction sels as [|sel rest IH]; simpl; [apply quiet_ret|].
  apply quiet_bind.
  - apply quiet_try; [by apply quiet_call|].
    intros e k [= <-]. apply quiet_ret.
  - intros [|? ?]; [exact IH|apply quiet_ret].
Qed.

Lemma quiet_find_cards : quiet (fun _ => reading) find_cards.
Proof.
  unfold find_cards. apply quiet_try.
  - apply quiet_bind; [by apply quiet_call|intros; by apply quiet_call].
  - intros [] k [= <-]. exact (quiet_find_alternative_cards alternative_selectors).
Qed.

Lemma quiet_collect_links cards acc :
  quiet (fun _ => reading) (collect_links cards acc).
Proof.
  revert acc. induction cards as [|card rest IH]; intros acc; simpl;
    [apply quiet_ret|].
  apply quiet_bind; [|intros acc'; apply IH].
  apply quiet_try.
  - apply quiet_bind; [by apply quiet_call|intros; apply quiet_ret].
  - intros e k [= <-]. apply quiet_ret.
Qed.

Lemma quiet_get_vacancy_links : quiet (fun _ => reading) _get_vacancy_links.
Proof.
  unfold _get_vacancy_links. apply quiet_try.
  - apply quiet_bind; [by apply quiet_call|intros current_url].
    apply quiet_bind; [apply quiet_find_cards|intros cards].
    apply quiet_collect_links.
  - intros e k [= <-]. apply quiet_ret.
Qed.

Lemma quiet_next_page current_search_url :
  quiet (fun _ => pager_request current_search_url) (next_page current_search_url).
Proof.
  unfold next_page. apply quiet_try.
  - apply quiet_bind; [by apply quiet_call|intros current_url].
    apply quiet_bind.
    { destruct (negb _); [by apply quiet_call|apply quiet_ret]. }
    intros _. apply quiet_bind; [by apply quiet_call|intros next_button].
    apply quiet_bind; [by apply quiet_call|intros button_class].
    cbv zeta. destruct (_ || _); [apply quiet_ret|].
    apply quiet_bind; [by apply quiet_call|intros _].
    apply quiet_bind; [by apply quiet_call|intros _]. apply quiet_ret.
  - intros e k [= <-]. apply quiet_ret.
Qed.

(** [_get_vacancy_links] returns and does not raise, whatever the page
    does; it changes nothing in the object; and it only reads: the
    location, a wait, lists of elements and their [href]. It loads no
    page, clicks nothing, runs no script and writes no file. *)
Theorem vacancy_links_only_reads (s : State (B * list event)) :
  exists links b evs,
    _get_vacancy_links s = (Ok links, set_world s (b, record s ++ evs)) /\
    Forall reading evs.
Proof.
  destruct (quiet_get_vacancy_links s) as (r & b & evs & Heq & Hevs).
  destruct (get_vacancy_links_spec s) as (links & b' & Hok & _).
  rewrite Hok in Heq. injection Heq as <- Hs.
  exists links, b, evs. by rewrite Hok, Hs.
Qed.

(** [next_page] returns and does not raise; it changes nothing in the
    object; it loads no page but the search page it was given, writes no
    file and runs no script; and when it returns [True], the last two
    things it did were a click on the pager that returned and a read of
    the location that returned. *)
Theorem next_page_clicks_before_it_reports
    current_search_url (s : State (B * list event)) :
  exists more b evs,
    next_page current_search_url s = (Ok more, set_world s (b, record s ++ evs)) /\
    Forall (pager_request current_search_url) evs /\
    (more = true ->
     exists next_button before,
       evs = before ++ [(Click next_button, true); (CurrentUrl, true)]).
Proof.
  destruct s as [o [b0 t] c].
  unfold next_page.
  run_recorded.
  all: eexists _, _, _; (split; [f_equal; f_equal; f_equal; record_eq|]).
  all: cbn [app].
  all: split; [repeat (apply Forall_cons_2 || apply Forall_nil_2); cbn; done|].
  all: intros Hm; try discriminate Hm.
  all: match goal with
       | |- exists _ _, ?l = _ =>
           match l with
           | context [(Click ?w, true)] =>
               exists w, (take (length l - 2) l); reflexivity
           end
       end.
Qed.

(** A pager that is marked as disabled ends the pages of the keyword.
    [next_page] reads the location; when that is not a search page (no
    [/search/vacancy] in it) it loads the search page it was given first;
    it finds the pager and reads its class; and, the class holding
    [disabled] or [HH-Pager-Disabled], it returns [False] there. These
    are all its requests: the pager is not clicked, and nothing else is
    asked of the browser. *)
Theorem disabled_pager_is_not_clicked
    current_search_url (s : State (B * list event))
    current_url b1 b1' next_button b2 class b3 :
  driver_current_url (world s).1 = (Ok current_url, b1) ->
  (if PyStr.contains "/search/vacancy" current_url then b1' = b1
   else driver_get current_search_url b1 = (Ok tt, b1')) ->
  driver_find_element "a[data-qa='pager-next']" b1' = (Ok next_button, b2) ->
  element_get_attribute next_button "class" b2 = (Ok (Some class), b3) ->
  PyStr.contains "disabled" class = true \/
  PyStr.contains "HH-Pager-Disabled" class = true ->
  next_page current_search_url s =
    (Ok false,
     set_world s
       (b3,
        record s
        ++ [(CurrentUrl, true)]
        ++ (if PyStr.contains "/search/vacancy" current_url then []
            else [(Get current_search_url, true)])
        ++ [(FindElement "a[data-qa='pager-next']", true);
            (GetAttribute next_button "class", true)])).
Proof.
  intros H1 Hback H2 H3 Hd. destruct s as [o [b0 t] c]. cbn [world fst] in H1.
  assert (Ht : PyStr.truthy_opt (Some class) = true).
  { destruct class; [|reflexivity]. destruct Hd as [Hd|Hd]; discriminate Hd. }
  assert (Hor : PyStr.contains "disabled" class
                || PyStr.contains "HH-Pager-Disabled" class = true).
  { apply orb_true_iff. exact Hd. }
  unfold next_page, try_except, mbind, M_bind, bind, call, ret, set_world, record.
  cbn [self world calls driver_get driver_current_url driver_find_element
       element_get_attribute recording_driver fst snd].
  unfold recorded at 1. cbn [fst snd]. rewrite H1. cbn [self world calls returned].
  destruct (PyStr.contains "/search/vacancy" current_url); cbn [negb].
  - subst b1'. cbn [self world calls].
    unfold recorded at 1. cbn [fst snd]. rewrite H2. cbn [self world calls returned].
    unfold recorded at 1. cbn [fst snd]. rewrite H3. cbn [self world calls returned].
    rewrite Ht. cbn [default from_option]. unfold id. rewrite Hor.
    cbn [app]. by rewrite <- !app_assoc.
  - unfold recorded at 1. cbn [self world calls fst snd].
    rewrite Hback. cbn [self world calls returned].
    unfold recorded at 1. cbn [fst snd]. rewrite H2. cbn [self world calls returned].
    unfold recorded at 1. cbn [fst snd]. rewrite H3. cbn [self world calls returned].
    rewrite Ht. cbn [default from_option]. unfold id. rewrite Hor.
    cbn [app]. by rewrite <- !app_assoc.
Qed.

End Requests.

(** ** The loops of [run] *)

Lemma steps_any {W A} (m : M (State W) A) :
  world_only m -> steps (fun _ _ => True) m.
Proof. intros Hm s. destruct (Hm s) as (r & b & ->). by exists r, b. Qed.

(** What every step of the loops keeps, the loops keep: [J] is an
    invariant of the state that survives the steps on the outside world
    (which [R] describes), the ghost note and a call of
    [_apply_to_vacancy]. *)
Section Loops.
Context {W : Type} `{WebDriver W}.
Variable R : W -> W -> Prop.
Variable J : State W -> Prop.
Hypothesis Hworld : forall s b, J s -> R (world s) b -> J (set_world s b).
Hypothesis Hget : forall url, steps R (call (driver_get url)).
Hypothesis Hcur : steps R (call driver_current_url).
Hypothesis Hlinks : steps R _get_vacancy_links.
Hypothesis Hnext : forall url, steps R (next_page url).
Hypothesis Hconfigure : steps R (call chrome_configure).
Hypothesis Hlogin : steps R (call login_session).
Hypothesis Hnote : forall u r s, J s -> J (note_call u r s).2.
Hypothesis Happly : forall u spu s, J s -> J (_apply_to_vacancy u spu s).2.

Lemma listings_loop_keeps max_applications current_search_url vacancy_links
    applications_today (s : State W) :
  J s ->
  J (listings_loop max_applications current_search_url vacancy_links
       applications_today s).2.
Proof.
  revert applications_today s.
  induction vacancy_links as [|vacancy_url rest IH]; intros at_ s HJ;
    cbn [listings_loop]; [exact HJ|].
  destruct (at_ >=? max_applications); [exact HJ|].
  unfold mbind, M_bind, bind at 1.
  pose proof (Happly vacancy_url (Some current_search_url) s HJ) as Ha.
  destruct (_apply_to_vacancy vacancy_url (Some current_search_url) s)
    as [[applied|e] s1]; cbn [snd] in Ha; [|exact Ha].
  unfold bind at 1.
  pose proof (Hnote vacancy_url applied s1 Ha) as Hn.
  unfold note_call in *. cbn [snd] in Hn.
  unfold bind at 1.
  match goal with |- context [_human_like_delay ?st] =>
    destruct (human_like_delay_state st) as [r ->] end.
  destruct r as [[]|e]; [by apply IH|exact Hn].
Qed.

Lemma pages_loop_keeps fuel max_applications applications_today (s : State W) :
  J s -> J (pages_loop fuel max_applications applications_today s).2.
Proof.
  revert applications_today s.
  induction fuel as [|fuel IH]; intros at_ s HJ; cbn [pages_loop].
  - by destruct (at_ <? max_applications).
  - destruct (at_ <? max_applications); [|exact HJ].
    unfold mbind, M_bind, bind at 1.
    destruct (Hlinks s) as (r & b1 & -> & HR1).
    apply (Hworld _ b1) in HJ; [|exact HR1].
    destruct r as [[|link links]|e]; [exact HJ| |exact HJ].
    unfold bind at 1.
    destruct (Hcur (set_world s b1)) as (r & b2 & -> & HR2).
    apply (Hworld _ b2) in HJ; [|exact HR2].
    destruct r as [current_search_url|e]; [|exact HJ].
    unfold bind at 1.
    pose proof (listings_loop_keeps max_applications current_search_url
                  (link :: links) at_ _ HJ) as Hl.
    destruct (listings_loop max_applications current_search_url (link :: links) at_ _)
      as [[at1|e] s1]; cbn [snd] in Hl; [|exact Hl].
    destruct (at1 >=? max_applications); [exact Hl|].
    unfold bind at 1.
    destruct (Hnext current_search_url s1) as (r & b3 & -> & HR3).
    apply (Hworld _ b3) in Hl; [|exact HR3].
    destruct r as [[|]|e]; [by apply IH|exact Hl|exact Hl].
Qed.

Lemma keywords_loop_keeps fuel max_applications keywords applications_today
    (s : State W) :
  J s -> J (keywords_loop fuel max_applications keywords applications_today s).2.
Proof.
  revert applications_today s.
  induction keywords as [|keyword rest IH]; intros at_ s HJ; cbn [keywords_loop];
    [exact HJ|].
  destruct (at_ >=? max_applications); [exact HJ|].
  unfold mbind, M_bind, bind at 1.
  pose proof (build_search_url_pure (Some keyword) s) as Hp.
  destruct (_build_search_url (Some keyword) s) as [[search_url|e] s0];
    cbn [snd] in Hp; subst s0; [|exact HJ].
  unfold bind at 1.
  destruct (Hget search_url s) as (r & b1 & -> & HR1).
  apply (Hworld _ b1) in HJ; [|exact HR1].
  destruct r as [[]|e]; [|exact HJ].
  unfold bind at 1.
  pose proof (pages_loop_keeps fuel max_applications at_ _ HJ) as Hl.
  destruct (pages_loop fuel max_applications at_ _) as [[[at1 fin]|e] s1];
    cbn [snd] in Hl; [|exact Hl].
  cbn [fst snd].
  destruct fin; cbn [negb]; [|exact Hl].
  destruct (at1 >=? max_applications); [exact Hl|]. by apply IH.
Qed.

(** [run_body] when the browser starts: the invariant need only hold
    from the moment [self.driver] is set. *)
Lemma run_body_keeps fuel (s : State W) b1 :
  chrome_start (world s) = (Ok tt, b1) ->
  J {| self := set_driver (self s); world := b1; calls := calls s |} ->
  J (run_body fuel s).2.
Proof.
  intros Hstart HJ. destruct s as [o b0 c]. cbn [self world calls] in *.
  unfold run_body, _setup_driver, mbind, M_bind.
  unfold bind at 1 2. unfold call at 1, modify_self. cbn [self world calls].
  rewrite Hstart. cbn [self world calls]. unfold bind at 1.
  match goal with |- context [call chrome_configure ?st] =>
    destruct (Hconfigure st) as (r & b2 & -> & HR2);
    apply (Hworld _ b2) in HJ; [|exact HR2] end.
  destruct r as [[]|e]; [|exact HJ].
  unfold bind at 1.
  match goal with |- context [call login_session ?st] =>
    destruct (Hlogin st) as (r & b3 & -> & HR3);
    apply (Hworld _ b3) in HJ; [|exact HR3] end.
  destruct r as [logged_in|e]; [|exact HJ].
  destruct logged_in; cbn [negb]; [|exact HJ].
  unfold bind at 1, get_self. unfold set_world. cbn [self world calls].
  destruct (keywords (search_filters (config (set_driver o)))) as [[|keyword rest]|];
    [exact HJ| |exact HJ].
  unfold bind at 1.
  match goal with |- context [keywords_loop fuel ?m ?ks 0 ?st] =>
    pose proof (keywords_loop_keeps fuel m ks 0 st HJ) as Hl;
    destruct (keywords_loop fuel m ks 0 st) as [[r|e] s1] end; exact Hl.
Qed.

End Loops.

Section RunShape.
Context {W : Type} `{WebDriver W}.

(** [run] is [run_body] with its exceptions swallowed, followed by
    [driver.quit()] when [self.driver] is set. *)
Lemma run_eq fuel (s : State W) :
  run fuel s =
  let (r, s1) := run_body fuel s in
  let r0 : Res bool := Ok (match r with Ok v => v | Raise _ => true end) in
  if driver (self s1) then
    match driver_quit (world s1) with
    | (Ok _, b) => (r0, set_world s1 b)
    | (Raise e, b) => (Raise e, set_world s1 b)
    end
  else (r0, s1).
Proof.
  unfold run, try_finally, try_except, except_Exception, mbind, M_bind, bind,
    get_self, call, ret, set_world.
  destruct (run_body fuel s) as [[v|e] s1]; destruct (driver (self s1)); try reflexivity.
  all: destruct s1 as [o1 b1 c1]; cbn [self world calls];
    try (destruct (driver_quit b1) as [[[]|e'] b2]); reflexivity.
Qed.

Lemma run_body_not_started fuel (s : State W) e b1 :
  chrome_start (world s) = (Raise e, b1) ->
  run_body fuel s = (Raise e, set_world s b1).
Proof.
  intros Hstart. unfold run_body, _setup_driver, mbind, M_bind.
  unfold bind at 1 2. unfold call at 1. by rewrite Hstart.
Qed.

(** The same for an invariant of the object alone. *)
Lemma run_body_keeps_object (J : HHAutoApply -> Prop) fuel (s : State W) b1 :
  (forall u spu (s0 : State W),
     J (self s0) -> J (self (_apply_to_vacancy u spu s0).2)) ->
  chrome_start (world s) = (Ok tt, b1) ->
  J (set_driver (self s)) ->
  J (self (run_body fuel s).2).
Proof.
  intros Happly Hstart HJ.
  apply (run_body_keeps (fun _ _ => True) (fun s => J (self s))) with (b1 := b1).
  all: first
    [ exact Hstart
    | exact HJ
    | exact Happly
    | (intros; apply steps_any;
       first [apply world_only_call | apply world_only_get_vacancy_links
             | apply world_only_next_page])
    | (intros; assumption) ].
Qed.

Lemma run_body_driver fuel (s : State W) :
  driver (self (run_body fuel s).2) = true <->
  driver (self s) = true \/ exists b1, chrome_start (world s) = (Ok tt, b1).
Proof.
  destruct (chrome_start (world s)) as [[[]|e] b1] eqn:Hstart.
  - split; [intros _; right; by exists b1|intros _].
    apply (run_body_keeps_object (fun o => driver o = true)) with (b1 := b1);
      [|exact Hstart|reflexivity].
    intros u spu s0 Hd. by rewrite (proj1 (proj2 (apply_grows u spu s0))).
  - rewrite (run_body_not_started fuel s e b1 Hstart). cbn.
    split; [by left|]. intros [?|[b Hb]]; [done|discriminate].
Qed.

(** A run only moves the object forward: however far the page loops are
    followed and however the run ends, the configuration is the same, no
    counter is lower, and no identifier has left the ledger. *)
Theorem run_only_moves_forward fuel (s : State W) :
  grows (self s) (self (run fuel s).2).
Proof.
  assert (Hbody : grows (self s) (self (run_body fuel s).2)).
  { destruct (chrome_start (world s)) as [[[]|e] b1] eqn:Hstart.
    - apply (run_body_keeps_object (grows (self s))) with (b1 := b1);
        [|exact Hstart|].
      + intros u spu s0 Hg. eapply grows_trans; [exact Hg|]. apply apply_grows.
      + unfold grows. cbn. repeat split; try lia; done.
    - rewrite (run_body_not_started fuel s e b1 Hstart). apply grows_refl. }
  rewrite run_eq. destruct (run_body fuel s) as [r s1]. cbn [snd] in Hbody.
  cbv zeta. destruct (driver (self s1)); [|exact Hbody].
  by destruct (driver_quit (world s1)) as [[[]|e] b].
Qed.

(** With a delay that can be slept, the delay returns. *)
Lemma human_like_delay_usable (s : State W) :
  delay_usable (self s) -> _human_like_delay s = (Ok tt, s).
Proof.
  intros (q & Hq & H0 & _).
  unfold _human_like_delay, mbind, M_bind, bind, get_self, ret. rewrite Hq.
  unfold Qle in H0. cbn in H0.
  destruct (Z.ltb_spec (Qnum q) 0); [lia|reflexivity].
Qed.

(** With a delay that is refused, the delay raises. *)
Lemma human_like_delay_refused (s : State W) :
  delay_refused (self s) -> exists e, _human_like_delay s = (Raise e, s).
Proof.
  unfold delay_refused, _human_like_delay, mbind, M_bind, bind, get_self, raise, ret.
  destruct (delay_between_applications _) as [[q|]|]; [|by eexists..].
  intros Hq. unfold Qlt in Hq. cbn in Hq.
  destruct (Z.ltb_spec (Qnum q) 0); [by eexists|lia].
Qed.

Lemma delay_usable_config (o o' : HHAutoApply) :
  config o' = config o -> delay_usable o -> delay_usable o'.
Proof. unfold delay_usable. by intros ->. Qed.

(** The loop returns when every call has its return location and the
    delay can be slept. *)
Lemma listings_loop_returns
    max_applications current_search_url vacancy_links applications_today
    (s : State W) :
  PyStr.truthy current_search_url = true ->
  delay_usable (self s) ->
  exists applications_today',
    (listings_loop max_applications current_search_url vacancy_links
       applications_today s).1 = Ok applications_today'.
Proof.
  intros Hspu. revert applications_today s.
  induction vacancy_links as [|vacancy_url rest IH]; intros at_ s Hd;
    cbn [listings_loop]; [by eexists|].
  destruct (at_ >=? max_applications); [by eexists|].
  unfold mbind, M_bind, bind at 1.
  destruct (apply_frame vacancy_url current_search_url s Hspu)
    as (r & s1 & -> & _ & Hc & _).
  unfold bind at 1, note_call. unfold bind at 1.
  match goal with |- context [_human_like_delay ?st] =>
    rewrite (human_like_delay_usable st)
      by (eapply delay_usable_config; [exact Hc|exact Hd]) end.
  apply IH. eapply delay_usable_config; [exact Hc|exact Hd].
Qed.

(** With a delay that is refused, the loop raises after its first
    attempt. *)
Lemma listings_loop_delay_refused
    max_applications current_search_url vacancy_url rest applications_today
    (s : State W) :
  PyStr.truthy current_search_url = true ->
  delay_refused (self s) ->
  applications_today < max_applications ->
  exists e applied s',
    listings_loop max_applications current_search_url (vacancy_url :: rest)
      applications_today s = (Raise e, s') /\
    calls s' = calls s ++ [(vacancy_url, applied)].
Proof.
  intros Hspu Hd Hlt. cbn [listings_loop].
  destruct (Z.geb_spec applications_today max_applications) as [Hge|_]; [lia|].
  unfold mbind, M_bind, bind at 1.
  destruct (apply_frame vacancy_url current_search_url s Hspu)
    as (r & s1 & -> & Hcalls & Hc & _).
  unfold bind at 1, note_call. unfold bind at 1.
  match goal with |- context [_human_like_delay ?st] =>
    destruct (human_like_delay_refused st) as [e ->] end.
  { unfold delay_refused in *. cbn [self]. by rewrite Hc. }
  eexists e, r, _. split; [reflexivity|]. cbn [calls]. by rewrite Hcalls.
Qed.

(** The listings of a page are attempted in the order of the page, each
    once, and no listing is attempted once the quota is reached. However
    the loop ends, the calls that returned are those for the first
    listings of the page, in order, and each was made below the quota.
    When the loop returns, it went through all the listings or stopped at
    the quota, and what it returns is the count it was given plus the
    attempts that returned [True]. The loop returns when it has a return
    location to give (the location read is not the empty string) and the
    configured delay can be slept. With a delay that is missing, not a
    number or negative, it raises after its first attempt, at the delay
    of lines 1216-1221. *)
Theorem listings_are_attempted_in_page_order
    max_applications current_search_url vacancy_links applications_today
    (s : State W) :
  exists r s' attempted,
    listings_loop max_applications current_search_url vacancy_links
      applications_today s = (r, s') /\
    calls s' = calls s ++ attempted /\
    (exists rest, vacancy_links = map fst attempted ++ rest) /\
    (forall k, (k < length attempted)%nat ->
       applications_today + applied_calls (take k attempted) < max_applications) /\
    (forall applications_today', r = Ok applications_today' ->
       applications_today' = applications_today + applied_calls attempted /\
       (length attempted = length vacancy_links \/
        max_applications <= applications_today')) /\
    (PyStr.truthy current_search_url = true -> delay_usable (self s) ->
     exists applications_today', r = Ok applications_today') /\
    (PyStr.truthy current_search_url = true -> delay_refused (self s) ->
     vacancy_links <> [] -> applications_today < max_applications ->
     exists e, r = Raise e /\ length attempted = 1%nat).
Proof.
  assert (Horder : exists r s' attempted,
    listings_loop max_applications current_search_url vacancy_links
      applications_today s = (r, s') /\
    calls s' = calls s ++ attempted /\
    (exists rest, vacancy_links = map fst attempted ++ rest) /\
    (forall k, (k < length attempted)%nat ->
       applications_today + applied_calls (take k attempted) < max_applications) /\
    (forall applications_today', r = Ok applications_today' ->
       applications_today' = applications_today + applied_calls attempted /\
       (length attempted = length vacancy_links \/
        max_applications <= applications_today'))).
  { revert applications_today s.
    induction vacancy_links as [|vacancy_url rest IH]; intros at_ s;
      cbn [listings_loop].
    { exists (Ok at_), s, []. cbn [applied_calls length map app take].
      rewrite app_nil_r.
      split; [reflexivity|]. split; [reflexivity|]. split; [by exists []|].
      split; [intros k Hk; lia|]. intros a' [= <-]. split; [lia|by left]. }
    destruct (Z.geb_spec at_ max_applications) as [Hge|Hlt].
    { exists (Ok at_), s, []. cbn [applied_calls length map app take].
      rewrite app_nil_r.
      split; [reflexivity|]. split; [reflexivity|]. split; [by eexists|].
      split; [intros k Hk; lia|]. intros a' [= <-]. split; [lia|right; lia]. }
    unfold mbind, M_bind, bind at 1.
    pose proof (apply_calls_kept vacancy_url (Some current_search_url) s) as Hc.
    destruct (_apply_to_vacancy vacancy_url (Some current_search_url) s)
      as [[applied|e] s1]; cbn [snd] in Hc.
    2: { exists (Raise e), s1, []. cbn [applied_calls length map app take].
         rewrite app_nil_r.
         split; [reflexivity|]. split; [exact Hc|]. split; [by eexists|].
         split; [intros k Hk; lia|]. intros a' [=]. }
    unfold bind at 1, note_call. unfold bind at 1.
    match goal with |- context [_human_like_delay ?st] =>
      destruct (human_like_delay_state st) as [rd ->] end.
    destruct rd as [[]|e].
    2: { eexists (Raise e), _, [(vacancy_url, applied)].
         split; [reflexivity|].
         cbn [applied_calls length map app take fst snd calls].
         split; [by rewrite Hc|]. split; [by exists rest|].
         split; [|intros a' [=]].
         intros [|k] Hk; cbn [take applied_calls]; [lia|]. cbn [length] in Hk. lia. }
    match goal with |- context [listings_loop _ _ _ ?a ?st] =>
      destruct (IH a st) as (r & s' & att & -> & Hcalls & [rest' Hrest] & Hlt' & Hret)
    end.
    cbn [calls] in Hcalls.
    exists r, s', ((vacancy_url, applied) :: att).
    split; [reflexivity|].
    split; [by rewrite Hcalls, Hc, <- app_assoc|].
    split; [exists rest'; cbn; by rewrite Hrest|].
    split.
    { intros [|k] Hk; cbn [take applied_calls]; [lia|].
      cbn [length] in Hk. specialize (Hlt' k ltac:(lia)). destruct applied; lia. }
    intros a' Ha'. destruct (Hret a' Ha') as [Hat Hlen].
    split; [rewrite Hat; cbn [applied_calls]; destruct applied; lia|].
    cbn [length]. destruct Hlen as [->|?]; [by left|by right]. }
  destruct Horder as (r & s' & attempted & Hloop & Hcalls & Hrest & Hlt & Hret).
  exists r, s', attempted.
  split; [exact Hloop|]. split; [exact Hcalls|]. split; [exact Hrest|].
  split; [exact Hlt|]. split; [exact Hret|]. split.
  - intros Hspu Hd.
    destruct (listings_loop_returns max_applications current_search_url
                vacancy_links applications_today s Hspu Hd) as [a' Ha'].
    rewrite Hloop in Ha'. by exists a'.
  - intros Hspu Hd Hne Hquota.
    destruct vacancy_links as [|vacancy_url rest]; [done|].
    destruct (listings_loop_delay_refused max_applications current_search_url
                vacancy_url rest applications_today s Hspu Hd Hquota)
      as (e & applied & s1 & Heq & Hc1).
    rewrite Hloop in Heq. injection Heq as -> <-.
    rewrite Hcalls in Hc1. apply app_inv_head in Hc1 as ->.
    by exists e.
Qed.

End RunShape.

(** ** [run]: the session *)

Lemma not_quit_reading ev : reading ev -> ~ is_quit ev.
Proof. destruct ev as [[] ok]; cbn; unfold is_quit; cbn; done. Qed.

Lemma not_quit_pager url ev : pager_request url ev -> ~ is_quit ev.
Proof. destruct ev as [[] ok]; cbn; unfold is_quit; cbn; done. Qed.

Lemma not_quit_apply u back cover ev : apply_request u back cover ev -> ~ is_quit ev.
Proof. destruct ev as [[] ok]; cbn; unfold is_quit; cbn; done. Qed.

Lemma recorded_since_extends {B} t P (s : State (B * list event)) b :
  recorded_since t P s -> extends P (world s) b -> recorded_since t P (set_world s b).
Proof.
  intros (evs & Hrec & Hevs) (evs' & Hb & Hevs'). exists (evs ++ evs').
  split; [|by apply Forall_app].
  unfold record in *. cbn. by rewrite Hb, Hrec, app_assoc.
Qed.

Lemma keywords_loop_idle {W} `{WebDriver W} fuel max_applications keywords
    (s : State W) :
  max_applications <= 0 ->
  keywords_loop fuel max_applications keywords 0 s = (Ok (0, true), s).
Proof.
  intros Hmax. destruct keywords as [|keyword rest]; [reflexivity|].
  cbn [keywords_loop].
  destruct (Z.geb_spec 0 max_applications); [reflexivity|lia].
Qed.

Lemma lines_written_le_ledger_writes line evs :
  lines_written line evs <= ledger_writes evs.
Proof.
  unfold lines_written, ledger_writes.
  induction evs as [|[q ok] evs IH]; [done|].
  cbn [List.filter]. destruct q; cbn [wrote_line wrote_ledger]; try lia.
  destruct ok; [|lia].
  destruct (String.eqb path "applied_vacancies.txt"); cbn [andb]; [|lia].
  destruct (String.eqb text line); cbn [length]; lia.
Qed.

Lemma ledger_writes_app evs1 evs2 :
  ledger_writes (evs1 ++ evs2) = ledger_writes evs1 + ledger_writes evs2.
Proof. unfold ledger_writes. rewrite List.filter_app, length_app. lia. Qed.

Lemma ledger_writes_nonneg evs : 0 <= ledger_writes evs.
Proof. unfold ledger_writes. lia. Qed.

Section Session.
Context {B : Type} `{WebDriver B}.

Lemma any_call {A} (q : request) (op : B -> Res A * B) :
  steps (extends (fun _ => True)) (call (recorded q op)).
Proof. apply quiet_steps, quiet_call. done. Qed.

Lemma covered_extends t base (s : State (B * list event)) b :
  covered t base s -> extends (fun _ => True) (world s) b ->
  covered t base (set_world s b).
Proof.
  intros (evs & Hrec & Hle) (evs' & Hb & _). exists (evs ++ evs'). split.
  - unfold record in *. cbn. by rewrite Hb, Hrec, app_assoc.
  - rewrite ledger_writes_app. pose proof (ledger_writes_nonneg evs'). cbn. lia.
Qed.

Lemma run_body_covered fuel (s : State (B * list event)) :
  covered (record s) (applied_count (self s)) (run_body fuel s).2.
Proof.
  destruct (chrome_start (world s).1) as [[[]|e] b1] eqn:Hstart.
  - apply (run_body_keeps (extends (fun _ => True))
             (covered (record s) (applied_count (self s))))
      with (b1 := (b1, record s ++ [(ChromeStart, true)])).
    + apply covered_extends.
    + intros url. apply any_call.
    + apply any_call.
    + eapply quiet_steps, quiet_impl; [|apply quiet_get_vacancy_links]. done.
    + intros url. eapply quiet_steps, quiet_impl; [|apply quiet_next_page]. done.
    + apply any_call.
    + apply any_call.
    + intros u r s0 HJ. exact HJ.
    + intros u spu s0 (evs0 & Hrec0 & Hle0).
      destruct (apply_record u spu s0)
        as (r & s' & evs & back & Heq & Hrec & _ & _ & Hle & _).
      rewrite Heq. cbn [snd]. exists (evs0 ++ evs). split.
      * by rewrite Hrec, Hrec0, app_assoc.
      * rewrite ledger_writes_app.
        pose proof (lines_written_le_ledger_writes
                      (vacancy_id_of u +:+ newline) evs). lia.
    + destruct s as [o [b0 t] c]. cbn in *. unfold recorded. cbn. by rewrite Hstart.
    + exists [(ChromeStart, true)]. split; [reflexivity|].
      unfold ledger_writes. cbn. lia.
  - rewrite (run_body_not_started fuel s e (b1, record s ++ [(ChromeStart, false)])).
    + exists [(ChromeStart, false)]. split; [reflexivity|].
      unfold ledger_writes. cbn. lia.
    + destruct s as [o [b0 t] c]. cbn in *. unfold recorded. cbn. by rewrite Hstart.
Qed.

(** Over a whole run, every application counted has a line in the
    ledger file: the application counter rises by no more than the number
    of successful writes to the file. *)
Theorem run_counts_only_written_applications fuel (s : State (B * list event)) :
  exists evs,
    record (run fuel s).2 = record s ++ evs /\
    applied_count (self (run fuel s).2) - applied_count (self s)
      <= ledger_writes evs.
Proof.
  destruct (run_body_covered fuel s) as (evs & Hrec & Hle).
  rewrite run_eq. destruct (run_body fuel s) as [r s1]. cbn [snd] in *.
  cbv zeta. destruct (driver (self s1)); [|by exists evs].
  destruct s1 as [o1 [w1 t1] c1]. unfold record in *. cbn [world snd self] in *.
  cbn [driver_quit recording_driver]. unfold recorded. cbn [fst snd].
  destruct (driver_quit w1) as [[[]|e] w2]; cbn [returned].
  all: eexists (evs ++ [_]); split;
    [unfold set_world; cbn; by rewrite Hrec, app_assoc|];
    rewrite ledger_writes_app; unfold set_world; cbn [self snd];
    change (ledger_writes [_]) with 0; lia.
Qed.

Lemma not_quit_call {A} (q : request) (op : B -> Res A * B) :
  q <> Quit ->
  steps (extends (fun ev => ~ is_quit ev)) (call (recorded q op)).
Proof.
  intros Hq. apply quiet_steps, quiet_call. intros _ ok. exact Hq.
Qed.

(** From the moment [self.driver] is set to the end of [run_body], the
    browser is not closed. *)
Lemma run_body_does_not_quit fuel (s : State (B * list event)) b1 :
  chrome_start (world s).1 = (Ok tt, b1) ->
  let s1 := (run_body fuel s).2 in
  driver (self s1) = true /\
  recorded_since (record s ++ [(ChromeStart, true)]) (fun ev => ~ is_quit ev) s1.
Proof.
  intros Hstart.
  apply (run_body_keeps (extends (fun ev => ~ is_quit ev))
           (fun s1 => driver (self s1) = true /\
              recorded_since (record s ++ [(ChromeStart, true)])
                (fun ev => ~ is_quit ev) s1))
    with (b1 := (b1, record s ++ [(ChromeStart, true)])).
  - intros s0 b [Hd Hr] Hb. split; [exact Hd|]. by apply recorded_since_extends.
  - intros url. by apply not_quit_call.
  - by apply not_quit_call.
  - eapply quiet_steps, quiet_impl; [|apply quiet_get_vacancy_links].
    intros o ev. apply not_quit_reading.
  - intros url. eapply quiet_steps, quiet_impl; [|apply quiet_next_page].
    intros o ev. apply not_quit_pager.
  - by apply not_quit_call.
  - by apply not_quit_call.
  - intros u r s0 HJ. exact HJ.
  - intros u spu s0 [Hd Hr].
    destruct (apply_record u spu s0)
      as (r & s' & evs & back & Heq & Hrec & _ & Hall & _).
    pose proof (apply_grows u spu s0) as (_ & Hdrv & _).
    rewrite Heq in Hdrv |- *. cbn [snd] in Hdrv |- *. split; [by rewrite Hdrv|].
    destruct Hr as (evs0 & Hrec0 & Hall0). exists (evs0 ++ evs). split.
    + by rewrite Hrec, Hrec0, app_assoc.
    + apply Forall_app. split; [exact Hall0|].
      eapply Forall_impl; [exact Hall|]. intros ev. apply not_quit_apply.
  - destruct s as [o [b0 t] c]. cbn in *. unfold recorded. cbn. by rewrite Hstart.
  - split; [reflexivity|]. exists []. split; [|constructor].
    unfold record. cbn. by rewrite app_nil_r.
Qed.

(** A run closes the browser it started, once, as the last thing it
    does, however the run went; when Chrome does not start there is
    nothing to close and nothing else is asked. The only exception a run
    lets through is one raised by closing the browser. *)
Theorem run_closes_the_browser_last fuel (s : State (B * list event)) :
  driver (self s) = false ->
  exists r s' evs,
    run fuel s = (r, s') /\
    Forall (fun ev => ~ is_quit ev) evs /\
    ((r = Ok true /\ driver (self s') = false /\
      record s' = record s ++ [(ChromeStart, false)])
     \/ exists closed,
          driver (self s') = true /\
          record s' = record s ++ (ChromeStart, true) :: evs ++ [(Quit, closed)] /\
          (closed = true <-> exists v, r = Ok v)).
Proof.
  intros Hdrv. rewrite run_eq.
  destruct (chrome_start (world s).1) as [[[]|e] b1] eqn:Hstart.
  - destruct (run_body_does_not_quit fuel s b1 Hstart) as (Hd & evs & Hrec & Hevs).
    destruct (run_body fuel s) as [r s1]. cbn [snd] in *.
    cbv zeta. rewrite Hd.
    destruct s1 as [o1 [w1 t1] c1]. unfold record in Hrec. cbn [world snd] in Hrec.
    cbn [world driver_quit recording_driver]. unfold recorded. cbn [fst snd].
    destruct (driver_quit w1) as [[[]|e] w2]; cbn [returned].
    + eexists _, _, evs. split; [reflexivity|]. split; [exact Hevs|].
      right. exists true. split; [exact Hd|]. split.
      * unfold record, set_world. cbn. rewrite Hrec, <- !app_assoc. reflexivity.
      * split; [intros _; by eexists|done].
    + eexists _, _, evs. split; [reflexivity|]. split; [exact Hevs|].
      right. exists false. split; [exact Hd|]. split.
      * unfold record, set_world. cbn. rewrite Hrec, <- !app_assoc. reflexivity.
      * split; [done|intros [v Hv]; discriminate].
  - rewrite (run_body_not_started fuel s e (b1, record s ++ [(ChromeStart, false)])).
    + cbv zeta. unfold set_world. cbn [self]. rewrite Hdrv.
      eexists _, _, []. split; [reflexivity|]. split; [constructor|].
      left. by repeat split.
    + destruct s as [o [b0 t] c]. cbn in *. unfold recorded. cbn. by rewrite Hstart.
Qed.

(** With a quota of zero or less, or with no keywords configured, a run
    starts the browser, logs in and closes the browser, and asks nothing
    else: no page is loaded, no listing attempted, and no counter and no
    ledger entry changes. *)
Theorem run_with_nothing_to_do fuel (s : State (B * list event)) :
  max_applications_per_day (application_settings (config (self s))) <= 0 \/
  keywords (search_filters (config (self s))) = None \/
  keywords (search_filters (config (self s))) = Some [] ->
  exists r s' evs,
    run fuel s = (r, s') /\
    record s' = record s ++ evs /\
    Forall session_request evs /\
    calls s' = calls s /\
    (self s' = self s \/ self s' = set_driver (self s)).
Proof.
  intros Hidle. destruct s as [o [b0 t] c]. cbn [self] in Hidle.
  unfold run, run_body, _setup_driver, try_finally.
  unfold_recorded.
  repeat (cbn [self world calls fst snd returned config set_driver driver negb] in *;
          unfold record, recorded, set_world in *;
          first [ rewrite keywords_loop_idle by
                    (destruct Hidle as [Hm|[Hk|Hk]]; [exact Hm|congruence|congruence])
                | step ]).
  all: try (destruct Hidle as [Hm|[Hk|Hk]]; congruence).
  all: eexists _, _, _; (split; [reflexivity|]).
  all: split; [record_eq|].
  all: split; [repeat (apply Forall_app_2 || apply Forall_cons_2 || apply Forall_nil_2);
               exact I|].
  all: cbn [self calls]; split; [reflexivity|]; auto.
Qed.

End Session.

(** ** The further properties on the scenarios *)

Import Cases.

(** A keyword with a plus sign, a space and Cyrillic letters: the query
    string decodes to the parameters that were set. *)
Lemma search_url_decodes_to_its_parameters_witness :
  map (fun kv : string * string => (unquote_plus kv.1, unquote_plus kv.2))
      (parse_query (query_of
         "https://hh.ru/search/vacancy?text=c%2B%2B+%D1%80%D0%B0%D0%B7%D1%80%D0%B0%D0%B1%D0%BE%D1%82%D1%87%D0%B8%D0%BA&salary=100000&area=1&experience=between1And3&employment=full&schedule=remote"))
  = build_params (Some "c++ разработчик") escaped_filters.
Proof.
  apply (search_url_decodes_to_its_parameters (Some "c++ разработчик")
           (searching escaped_filters)).
  vm_compute. reflexivity.
Defined.

Lemma search_url_has_only_url_characters_witness :
  exists query,
    "https://hh.ru/search/vacancy?text=c%2B%2B+%D1%80%D0%B0%D0%B7%D1%80%D0%B0%D0%B1%D0%BE%D1%82%D1%87%D0%B8%D0%BA&salary=100000&area=1&experience=between1And3&employment=full&schedule=remote"
      = "https://hh.ru/search/vacancy?" +:+ query /\
    all_chars url_char query = true.
Proof.
  apply (search_url_has_only_url_characters (Some "c++ разработчик")
           (searching escaped_filters)).
  vm_compute. reflexivity.
Defined.

Lemma search_url_parameters_in_fixed_order_witness :
  sublist
    (map fst (parse_query (query_of
       "https://hh.ru/search/vacancy?text=python&salary=100000&area=2&experience=between1And3&employment=full&schedule=remote")))
    param_keys.
Proof.
  apply (search_url_parameters_in_fixed_order (Some "python") (searching full_filters)).
  vm_compute. reflexivity.
Defined.

(** Of the values that could be sent for the experience, the one
    configured is, and it is not sent as employment or schedule. *)
Lemma search_url_sends_known_values_as_configured_witness :
  (In ("experience", "between1And3")
      (parse_query (query_of
         "https://hh.ru/search/vacancy?text=python&salary=100000&area=2&experience=between1And3&employment=full&schedule=remote"))
   <-> experience full_filters = Some "between1And3" /\
       In "between1And3" (map fst exp_map)) /\
  (In ("employment", "between1And3")
      (parse_query (query_of
         "https://hh.ru/search/vacancy?text=python&salary=100000&area=2&experience=between1And3&employment=full&schedule=remote"))
   <-> employment full_filters = Some "between1And3" /\
       In "between1And3" (map fst employment_map)) /\
  (In ("schedule", "between1And3")
      (parse_query (query_of
         "https://hh.ru/search/vacancy?text=python&salary=100000&area=2&experience=between1And3&employment=full&schedule=remote"))
   <-> schedule full_filters = Some "between1And3" /\
       In "between1And3" (map fst schedule_map)).
Proof.
  apply (search_url_sends_known_values_as_configured (Some "python")
           (searching full_filters)
           "https://hh.ru/search/vacancy?text=python&salary=100000&area=2&experience=between1And3&employment=full&schedule=remote").
  vm_compute. reflexivity.
Defined.

(** The empty keyword of a configured list searches for the first
    keyword of the list. *)
Lemma search_url_of_configured_keyword_witness :
  exists url,
    _build_search_url (Some EmptyString) (searching escaped_filters)
      = (Ok url, searching escaped_filters) /\
    In ("text", Urllib.quote_plus "c++ разработчик") (parse_query (query_of url)).
Proof.
  apply (search_url_of_configured_keyword EmptyString (searching escaped_filters)
           ["c++ разработчик"; EmptyString]).
  - reflexivity.
  - repeat constructor.
  - right. left. reflexivity.
Defined.

(** Bytes that are no text: a surrogate as three bytes, and a byte of
    Latin-1. *)
Example lone_surrogate_is_not_encodable :
  PyText.encodable (String "237" (String "160" (String "128" EmptyString))) = false /\
  PyText.encodable (String "233" EmptyString) = false /\
  PyText.encodable "c++ разработчик" = true.
Proof. vm_compute. repeat split. Qed.

(** Three lines written, one of them padded and one empty: two
    identifiers are read back. *)
Lemma ledger_file_is_read_back_witness :
  exists o,
    __init__ (Ok configuration) (Some (Ok (written ["123"; " 456 "; EmptyString]))) = Ok o /\
    applied_vacancies o
      = list_to_set (List.filter PyStr.truthy
                       (map PyText.strip ["123"; " 456 "; EmptyString])) /\
    (forall id, In id ["123"; " 456 "; EmptyString] -> plain_identifier id ->
                id ∈ applied_vacancies o).
Proof.
  apply (ledger_file_is_read_back configuration ["123"; " 456 "; EmptyString]).
  repeat constructor; vm_compute; intuition discriminate.
Defined.

(** A listing whose URL ends in a slash, after a run that saved its empty
    identifier. *)
Lemma empty_identifier_is_not_read_back_witness :
  let o := {| config := configuration; driver := false;
              applied_count := 0; skipped_count := 0; error_count := 0;
              applied_vacancies := ledger_of_text (written [EmptyString; "123"]) |} in
  applied_count o = 0 /\ skipped_count o = 0 /\ error_count o = 0 /\
  driver o = false /\ ~ ledger_skip "https://hh.ru/vacancy/123/" o.
Proof.
  apply (empty_identifier_is_not_read_back (Ok configuration)
           (Some (Ok (written [EmptyString; "123"]))) _ "https://hh.ru/vacancy/123/").
  - reflexivity.
  - vm_compute. reflexivity.
Defined.

Lemma listing_saved_in_earlier_run_is_skipped_witness :
  exists o,
    __init__ (Ok configuration) (Some (Ok (written ["123"]))) = Ok o /\
    _apply_to_vacancy listing (Some search_page)
      {| self := o; world := world (fresh true []); calls := [] |}
    = (Ok false,
       {| self := incr_skipped o; world := world (fresh true []); calls := [] |}).
Proof.
  apply (listing_saved_in_earlier_run_is_skipped configuration ["123"] listing
           search_page (world (fresh true [])) []).
  - repeat constructor; vm_compute; intuition discriminate.
  - reflexivity.
  - left. vm_compute. reflexivity.
  - split; [vm_compute; discriminate|vm_compute; reflexivity].
  - reflexivity.
Defined.

Lemma apply_result_matches_counters_witness :
  exists r s',
    _apply_to_vacancy listing (Some search_page) (fresh true confirmed) = (Ok r, s') /\
    grows (self (fresh true confirmed)) (self s') /\
    (r = true ->
       applied_count (self (fresh true confirmed)) < applied_count (self s') /\
       skipped_count (self s') = skipped_count (self (fresh true confirmed)) /\
       error_count (self s') = error_count (self (fresh true confirmed)) /\
       vacancy_id_of listing ∈ applied_vacancies (self s')) /\
    (r = false ->
       skipped_count (self (fresh true confirmed)) < skipped_count (self s') \/
       error_count (self (fresh true confirmed)) < error_count (self s')).
Proof.
  apply (apply_result_matches_counters listing search_page (fresh true confirmed)).
  reflexivity.
Defined.

(** C1 on a call that applies: the last request is the navigation back,
    and the browser ends on the search page. *)
Lemma apply_returns_to_search_page_witness :
  exists r s',
    _apply_to_vacancy listing (Some search_page) (recording (fresh true confirmed))
      = (Ok r, s') /\
    (ledger_skip listing (self (recording (fresh true confirmed))) ->
     r = false /\ world s' = world (recording (fresh true confirmed))) /\
    (~ ledger_skip listing (self (recording (fresh true confirmed))) ->
     exists before (w : Scripted.browser * list event) res,
       w.2 = record (recording (fresh true confirmed)) ++ before /\
       driver_get search_page w = (res, world s') /\
       record s' = (record (recording (fresh true confirmed)) ++ before)
                   ++ [(Get search_page, returned res)] /\
       (res = Ok tt -> location (world s') = search_page) /\
       (forall e, res = Raise e ->
                  r = false /\
                  error_count (self (recording (fresh true confirmed)))
                  < error_count (self s'))).
Proof.
  apply (apply_returns_to_search_page listing search_page
           (recording (fresh true confirmed))).
  - reflexivity.
  - intros b b'. apply scripted_navigation_lands.
Defined.

(** The call that is left stranded: the listing opened, the location
    could not be read, and the navigation back of the handler raised. The
    call returns [False] with one error counted, and the browser is still
    on the listing. *)
Example record_of_a_stranded_call :
  let out := _apply_to_vacancy listing (Some search_page) (recording stranded) in
  out.1 = Ok false /\
  error_count (self out.2) = 1 /\
  record out.2
  = [(Get listing, true); (CurrentUrl, false); (Get search_page, false)] /\
  location (world out.2) = listing.
Proof. vm_compute. repeat split. Qed.

(** The listing in the ledger: nothing is asked. *)
Example record_of_a_ledger_skip :
  let out := _apply_to_vacancy listing (Some search_page) (recording known_listing) in
  out.1 = Ok false /\ record out.2 = [] /\
  location (world out.2) = "https://hh.ru/vacancy/999".
Proof. vm_compute. repeat split. Qed.

(** C10 on the call that counts twice: one navigation back raised
    between the first and the last request, and the counters went up by
    two. *)
Lemma apply_counts_once_unless_return_fails_witness :
  exists r s' evs,
    _apply_to_vacancy listing (Some search_page) (recording form_then_failure)
      = (Ok r, s') /\
    record s' = record (recording form_then_failure) ++ evs /\
    applied_count (self (recording form_then_failure)) <= applied_count (self s') /\
    skipped_count (self (recording form_then_failure)) <= skipped_count (self s') /\
    error_count (self (recording form_then_failure)) <= error_count (self s') /\
    (let rise := (applied_count (self s')
                  - applied_count (self (recording form_then_failure)))
                 + (skipped_count (self s')
                    - skipped_count (self (recording form_then_failure)))
                 + (error_count (self s')
                    - error_count (self (recording form_then_failure))) in
     ((evs = [] /\ rise = 1) \/
      (exists opened inner last,
         evs = [(Get listing, opened)] ++ inner ++ [(Get search_page, last)] /\
         rise = 1 + failed_gets search_page inner)) /\
     1 <= rise <= 1 + failed_gets search_page evs) /\
    (failed_gets search_page evs = 0 ->
     counted_once (self (recording form_then_failure)) (self s')).
Proof.
  apply (apply_counts_once_unless_return_fails listing search_page
           (recording form_then_failure)).
  reflexivity.
Defined.

Example record_of_a_call_counted_twice :
  let out := _apply_to_vacancy listing (Some search_page)
               (recording form_then_failure) in
  out.1 = Ok false /\
  skipped_count (self out.2) = 1 /\ error_count (self out.2) = 1 /\
  record out.2
  = [(Get listing, true); (CurrentUrl, true); (Get search_page, false);
     (Get search_page, true)] /\
  failed_gets search_page (record out.2) = 1.
Proof. vm_compute. repeat split. Qed.

(** A call that applies counts once, and none of its navigations
    raised. *)
Example record_of_a_call_counted_once :
  let out := _apply_to_vacancy listing (Some search_page)
               (recording (fresh true confirmed)) in
  out.1 = Ok true /\
  counted_once (self (recording (fresh true confirmed))) (self out.2) /\
  failed_gets search_page (record out.2) = 0.
Proof. vm_compute. split; [reflexivity|]. split; [left; repeat split|reflexivity]. Qed.

(** Without a return location, on a browser that cannot tell where it
    is, the call raises and counts nothing. *)
Example apply_without_location_raises :
  _apply_to_vacancy listing None (fresh true [Scripted.Raises OtherException])
  = (Raise OtherException, fresh true []).
Proof. vm_compute. reflexivity. Qed.

Lemma listing_on_response_form_is_skipped_witness :
  exists s',
    _apply_to_vacancy listing (Some search_page) on_response_form = (Ok false, s') /\
    calls s' = calls on_response_form /\
    match driver_get search_page
            (after [Scripted.Done; Scripted.Lands response_form; Scripted.Done]
               2 response_form []) with
    | (Ok _, b3) =>
        self s' = incr_skipped (self on_response_form) /\ world s' = b3 /\
        error_count (self s') = error_count (self on_response_form)
    | (Raise _, b3) =>
        self s' = incr_error (incr_skipped (self on_response_form)) /\
        world s' = (driver_get search_page b3).2 /\
        error_count (self s') = error_count (self on_response_form) + 1
    end /\
    skipped_count (self s') = skipped_count (self on_response_form) + 1 /\
    applied_count (self s') = applied_count (self on_response_form) /\
    applied_vacancies (self s') = applied_vacancies (self on_response_form) /\
    config (self s') = config (self on_response_form).
Proof.
  apply (listing_on_response_form_is_skipped listing search_page on_response_form
           (after [Scripted.Done; Scripted.Lands response_form; Scripted.Done]
              1 listing [])
           response_form).
  - reflexivity.
  - intros [_ Hin]. exact (not_elem_of_empty (C:=gset string) _ Hin).
  - reflexivity.
  - reflexivity.
  - reflexivity.
Defined.

Lemma listing_marked_as_applied_is_remembered_witness :
  let out := _apply_to_vacancy listing (Some search_page)
               (fresh true already_applied_page) in
  out =
    (Ok false,
     {| self := incr_skipped (add_applied (vacancy_id_of listing)
                                (self (fresh true already_applied_page)));
        world := after already_applied_page 10 search_page ["123" +:+ newline];
        calls := calls (fresh true already_applied_page) |}) /\
  vacancy_id_of listing ∈ applied_vacancies (self out.2) /\
  applied_vacancies (self out.2)
    = {[ vacancy_id_of listing ]}
      ∪ applied_vacancies (self (fresh true already_applied_page)) /\
  skipped_count (self out.2)
    = skipped_count (self (fresh true already_applied_page)) + 1 /\
  applied_count (self out.2) = applied_count (self (fresh true already_applied_page)) /\
  error_count (self out.2) = error_count (self (fresh true already_applied_page)) /\
  config (self out.2) = config (self (fresh true already_applied_page)).
Proof.
  apply (listing_marked_as_applied_is_remembered listing search_page
           (fresh true already_applied_page)
           (after already_applied_page 1 listing []) listing
           (after already_applied_page 2 listing [])
           (after already_applied_page 7 listing []) 7%nat
           (after already_applied_page 8 listing [])
           (after already_applied_page 9 listing ["123" +:+ newline])
           (after already_applied_page 10 search_page ["123" +:+ newline])).
  - reflexivity.
  - intros [_ Hin]. exact (not_elem_of_empty (C:=gset string) _ Hin).
  - reflexivity.
  - reflexivity.
  - reflexivity.
  - reflexivity.
  - reflexivity.
  - reflexivity.
  - reflexivity.
Defined.

Lemma listing_without_control_is_an_error_witness :
  let out := _apply_to_vacancy listing (Some search_page) (fresh true broken_page) in
  out = (Ok false,
         {| self := incr_error (self (fresh true broken_page));
            world := after broken_page 9 search_page [];
            calls := calls (fresh true broken_page) |}) /\
  ~ ledger_skip listing (self out.2) /\
  error_count (self out.2) = error_count (self (fresh true broken_page)) + 1 /\
  applied_count (self out.2) = applied_count (self (fresh true broken_page)) /\
  skipped_count (self out.2) = skipped_count (self (fresh true broken_page)) /\
  applied_vacancies (self out.2) = applied_vacancies (self (fresh true broken_page)) /\
  config (self out.2) = config (self (fresh true broken_page)).
Proof.
  apply (listing_without_control_is_an_error listing search_page
           (fresh true broken_page)
           (after broken_page 1 listing []) listing
           (after broken_page 2 listing [])
           (after broken_page 7 listing [])
           (after broken_page 8 listing [])
           (after broken_page 9 search_page [])).
  - reflexivity.
  - intros [_ Hin]. exact (not_elem_of_empty (C:=gset string) _ Hin).
  - reflexivity.
  - reflexivity.
  - reflexivity.
  - reflexivity.
  - reflexivity.
  - reflexivity.
Defined.

Lemma apply_asks_only_for_its_listing_witness :
  exists r s' evs,
    _apply_to_vacancy listing (Some search_page) (recording (fresh true confirmed))
      = (r, s') /\
    record s' = record (recording (fresh true confirmed)) ++ evs /\
    Forall (apply_request listing search_page "Hello") evs.
Proof.
  apply (apply_asks_only_for_its_listing listing search_page
           (recording (fresh true confirmed))).
  reflexivity.
Defined.

(** The record of a call that applies: the last two requests are the
    write of the line to the ledger file and the way back. *)
Example record_of_an_application :
  let out := _apply_to_vacancy listing (Some search_page)
               (recording (fresh true confirmed)) in
  out.1 = Ok true /\
  applied_count (self out.2) = 1 /\
  drop 11 (record out.2)
  = [(FileAppend "applied_vacancies.txt" ("123" +:+ newline), true);
     (Get search_page, true)].
Proof. vm_compute. repeat split. Qed.

(** Of three listings with a quota of one: the first fails, the second
    is applied to, the third is not attempted. *)
Example listings_stop_at_the_quota :
  let out := listings_loop 1 search_page
               [listing; "https://hh.ru/vacancy/124"; "https://hh.ru/vacancy/125"] 0
               broken_then_open in
  out.1 = Ok 1 /\
  calls out.2 = [(listing, false); ("https://hh.ru/vacancy/124", true)].
Proof. vm_compute. repeat split. Qed.

(** The same page with no delay configured: the first listing is
    attempted, and the loop raises at the delay. *)
Example listings_stop_at_the_delay :
  let out := listings_loop 1 search_page
               [listing; "https://hh.ru/vacancy/124"; "https://hh.ru/vacancy/125"] 0
               (without_delay broken_then_open) in
  out.1 = Raise OtherException /\
  calls out.2 = [(listing, false)] /\
  error_count (self out.2) = 1.
Proof. vm_compute. repeat split. Qed.

(** The browser was left on a listing: the search page is loaded again
    before the pager is looked for. *)
Lemma disabled_pager_is_not_clicked_witness :
  next_page search_page (recording left_on_listing)
  = (Ok false,
     set_world (recording left_on_listing)
       (after [Scripted.Lands listing; Scripted.Done; Scripted.Element 9%nat;
               Scripted.Attribute (Some "bloko-button disabled")]
          4 search_page [],
        record (recording left_on_listing)
        ++ [(CurrentUrl, true)]
        ++ (if PyStr.contains "/search/vacancy" listing then []
            else [(Get search_page, true)])
        ++ [(FindElement "a[data-qa='pager-next']", true);
            (GetAttribute 9%nat "class", true)])).
Proof.
  apply (disabled_pager_is_not_clicked search_page (recording left_on_listing)
           listing
           (after [Scripted.Lands listing; Scripted.Done; Scripted.Element 9%nat;
                   Scripted.Attribute (Some "bloko-button disabled")]
              1 listing [])
           (after [Scripted.Lands listing; Scripted.Done; Scripted.Element 9%nat;
                   Scripted.Attribute (Some "bloko-button disabled")]
              2 search_page [])
           9%nat
           (after [Scripted.Lands listing; Scripted.Done; Scripted.Element 9%nat;
                   Scripted.Attribute (Some "bloko-button disabled")]
              3 search_page [])
           "bloko-button disabled").
  - reflexivity.
  - reflexivity.
  - reflexivity.
  - reflexivity.
  - left. reflexivity.
Defined.

(** On the search page the pager is looked for at once. *)
Example disabled_pager_on_the_search_page :
  let out := next_page search_page (recording last_page) in
  out.1 = Ok false /\
  record out.2
  = [(CurrentUrl, true); (FindElement "a[data-qa='pager-next']", true);
     (GetAttribute 9%nat "class", true)].
Proof. vm_compute. repeat split. Qed.

(** A pager that is not disabled is clicked, and the record ends with
    the click and the read of the location. *)
Example pager_is_clicked :
  let out := next_page search_page (recording middle_page) in
  out.1 = Ok true /\
  record out.2
  = [(CurrentUrl, true); (FindElement "a[data-qa='pager-next']", true);
     (GetAttribute 9%nat "class", true); (Click 9%nat, true); (CurrentUrl, true)].
Proof. vm_compute. repeat split. Qed.

Lemma run_closes_the_browser_last_witness :
  exists r s' evs,
    run 3 (recording (before_run 5 one_listing_run)) = (r, s') /\
    Forall (fun ev => ~ is_quit ev) evs /\
    ((r = Ok true /\ driver (self s') = false /\
      record s' = record (recording (before_run 5 one_listing_run))
                  ++ [(ChromeStart, false)])
     \/ exists closed,
          driver (self s') = true /\
          record s' = record (recording (before_run 5 one_listing_run))
                      ++ (ChromeStart, true) :: evs ++ [(Quit, closed)] /\
          (closed = true <-> exists v, r = Ok v)).
Proof.
  apply (run_closes_the_browser_last 3 (recording (before_run 5 one_listing_run))).
  reflexivity.
Defined.

(** When Chrome does not start, the run ends there: nothing else is
    asked, and nothing is closed. *)
Example run_without_browser :
  let out := run 3 (recording (before_run 5 [Scripted.Raises OtherException])) in
  out.1 = Ok true /\ record out.2 = [(ChromeStart, false)].
Proof. vm_compute. repeat split. Qed.

Lemma run_with_nothing_to_do_witness :
  exists r s' evs,
    run 3 (recording (before_run 0 session_only)) = (r, s') /\
    record s' = record (recording (before_run 0 session_only)) ++ evs /\
    Forall session_request evs /\
    calls s' = calls (recording (before_run 0 session_only)) /\
    (self s' = self (recording (before_run 0 session_only)) \/
     self s' = set_driver (self (recording (before_run 0 session_only)))).
Proof.
  apply (run_with_nothing_to_do 3 (recording (before_run 0 session_only))).
  left. cbn. lia.
Defined.

(** A run over one page with one listing: one application counted, one
    line written. *)
Example run_of_one_listing :
  let out := run 3 (recording (before_run 5 one_listing_run)) in
  out.1 = Ok true /\
  applied_count (self out.2) = 1 /\
  ledger_writes (record out.2) = 1 /\
  Scripted.ledger_file (world out.2).1 = ["1" +:+ newline] /\
  last (record out.2) = Some (Quit, true).
Proof. vm_compute. repeat split. Qed.

Lemma click_that_opens_response_form_is_skipped_witness :
  exists s',
    _apply_to_vacancy listing (Some search_page) (fresh true click_opens_form)
      = (Ok false, s') /\
    calls s' = calls (fresh true click_opens_form) /\
    match driver_get search_page (after click_opens_form 6 response_form []) with
    | (Ok _, b7) =>
        self s' = incr_skipped (self (fresh true click_opens_form)) /\ world s' = b7 /\
        error_count (self s') = error_count (self (fresh true click_opens_form))
    | (Raise _, b7) =>
        self s' = incr_error (incr_skipped (self (fresh true click_opens_form))) /\
        world s' = (driver_get search_page b7).2 /\
        error_count (self s') = error_count (self (fresh true click_opens_form)) + 1
    end /\
    skipped_count (self s') = skipped_count (self (fresh true click_opens_form)) + 1 /\
    applied_count (self s') = applied_count (self (fresh true click_opens_form)) /\
    applied_vacancies (self s') = applied_vacancies (self (fresh true click_opens_form)) /\
    config (self s') = config (self (fresh true click_opens_form)).
Proof.
  apply (click_that_opens_response_form_is_skipped listing search_page
           (fresh true click_opens_form)
           (after click_opens_form 1 listing []) listing
           (after click_opens_form 2 listing []) 1%nat
           (after click_opens_form 3 listing [])
           (after click_opens_form 4 listing [])
           (after click_opens_form 5 response_form []) response_form).
  - reflexivity.
  - intros [_ Hin]. exact (not_elem_of_empty (C:=gset string) _ Hin).
  - reflexivity.
  - reflexivity.
  - reflexivity.
  - reflexivity.
  - reflexivity.
  - reflexivity.
  - reflexivity.
  - reflexivity.
Defined.

Lemma refused_click_falls_back_to_script_witness :
  let out := _apply_to_vacancy listing (Some search_page) (fresh true refused_click) in
  out =
    (Ok true,
     {| self := incr_applied (add_applied (vacancy_id_of listing)
                                (self (fresh true refused_click)));
        world := after refused_click 14 search_page ["123" +:+ newline];
        calls := calls (fresh true refused_click) |}) /\
  vacancy_id_of listing ∈ applied_vacancies (self out.2) /\
  applied_vacancies (self out.2)
    = {[ vacancy_id_of listing ]} ∪ applied_vacancies (self (fresh true refused_click)) /\
  applied_count (self out.2) = applied_count (self (fresh true refused_click)) + 1 /\
  skipped_count (self out.2) = skipped_count (self (fresh true refused_click)) /\
  error_count (self out.2) = error_count (self (fresh true refused_click)) /\
  config (self out.2) = config (self (fresh true refused_click)).
Proof.
  apply (refused_click_falls_back_to_script listing search_page
           (fresh true refused_click)
           (after refused_click 1 listing []) listing
           (after refused_click 2 listing []) 1%nat
           (after refused_click 3 listing []) (after refused_click 4 listing [])
           (after refused_click 5 listing []) listing
           (after refused_click 6 listing []) (after refused_click 7 listing [])
           (after refused_click 8 listing []) 2%nat
           (after refused_click 9 listing []) (after refused_click 10 listing [])
           OtherException
           (after refused_click 11 listing []) (after refused_click 12 listing [])
           (after refused_click 13 listing ["123" +:+ newline])
           (after refused_click 14 search_page ["123" +:+ newline])).
  - reflexivity.
  - intros [_ Hin]. exact (not_elem_of_empty (C:=gset string) _ Hin).
  - reflexivity.
  - reflexivity.
  - reflexivity.
  - reflexivity.
  - reflexivity.
  - reflexivity.
  - reflexivity.
  - reflexivity.
  - reflexivity.
  - reflexivity.
  - reflexivity.
  - reflexivity.
  - reflexivity.
  - reflexivity.
  - reflexivity.
  - reflexivity.
Defined.

(** The cover letter on a page that has the field: a wait, the field
    cleared, the text typed. *)
Example cover_letter_is_typed :
  let out := fill_cover_letter (recording with_cover_letter_field) in
  out.1 = Ok tt /\
  record out.2
  = [(Wait 10 presence_of_element_located
        "textarea[data-qa='vacancy-response-popup-form-letter-input']", true);
     (Clear 3%nat, true); (SendKeys 3%nat "Hello", true)].
Proof. vm_compute. repeat split. Qed.

(** A typing that times out is taken for a missing field, and the step
    returns. *)
Example cover_letter_timeout_is_swallowed :
  let out := fill_cover_letter
               (recording (fresh true [Scripted.Element 3%nat; Scripted.Done;
                                       Scripted.Raises TimeoutException])) in
  out.1 = Ok tt /\
  last (record out.2) = Some (SendKeys 3%nat "Hello", false).
Proof. vm_compute. repeat split. Qed.
